(** * Link enrichment pipeline of quitemailingyourself

    A shallow embedding of [backend/app.py] and [backend/utils.py]:
    URL normalisation, the fetch layer, content extraction, enrichment
    with its fallback, the link queue, the system-tag upsert and one
    iteration of the worker loop, followed by the properties proved
    about them.

    Python strings are sequences of Unicode code points; exceptions are
    values of [exn] carried by [result]. *)

From Stdlib Require Import List NArith ZArith Lia Bool String Ascii.
From Stdlib Require Import DecimalString Sorted.
Import ListNotations.
Set Warnings "-register-all,-abstract-large-number".
Local Open Scope string_scope.
Local Open Scope list_scope.
Local Open Scope N_scope.

(* ------------------------------------------------------------------ *)
(** ** Python strings *)

Module Py.

Definition char := N.
Definition str := list char.

(** A string literal of the source, as code points. *)
Definition lit (s : string) : str := map N_of_ascii (list_ascii_of_string s).

Definition ch (a : ascii) : char := N_of_ascii a.

Definition str_eqb (a b : str) : bool :=
  if list_eq_dec N.eq_dec a b then true else false.

(** [x or y] on strings: the first operand unless it is empty. *)
Definition str_or (a b : str) : str :=
  match a with [] => b | _ => a end.

(** [str.isspace] of one code point (the interpreter's whitespace table). *)
Definition isspace (c : char) : bool :=
  ((9 <=? c) && (c <=? 13)) || ((28 <=? c) && (c <=? 32))
  || (c =? 133) || (c =? 160) || (c =? 5760)
  || ((8192 <=? c) && (c <=? 8202))
  || (c =? 8232) || (c =? 8233) || (c =? 8239) || (c =? 8287) || (c =? 12288).

Definition isascii (c : char) : bool := c <? 128.
Definition isupper_ascii (c : char) : bool := (65 <=? c) && (c <=? 90).
Definition islower_ascii (c : char) : bool := (97 <=? c) && (c <=? 122).
Definition isalpha_ascii (c : char) : bool := isupper_ascii c || islower_ascii c.
Definition isdigit_ascii (c : char) : bool := (48 <=? c) && (c <=? 57).

Definition lower_char (c : char) : char := if isupper_ascii c then c + 32 else c.
Definition upper_char (c : char) : char := if islower_ascii c then c - 32 else c.

Fixpoint dropWhile (p : char -> bool) (l : str) : str :=
  match l with
  | [] => []
  | x :: t => if p x then dropWhile p t else l
  end.

(** [s.lstrip(chars)], [s.rstrip(chars)], [s.strip(chars)] with the set
    of stripped characters given as a predicate. *)
Definition lstrip_by (p : char -> bool) (s : str) : str := dropWhile p s.
Definition rstrip_by (p : char -> bool) (s : str) : str := rev (dropWhile p (rev s)).
Definition strip_by (p : char -> bool) (s : str) : str := rstrip_by p (lstrip_by p s).

(** [s.strip()] *)
Definition strip (s : str) : str := strip_by isspace s.

(** [c in s] for a single character. *)
Definition has (c : char) (s : str) : bool := existsb (N.eqb c) s.

(** [s.find(c)]: the index of the first occurrence; [None] is Python's -1. *)
Fixpoint find_char (c : char) (s : str) : option nat :=
  match s with
  | [] => None
  | x :: t => if x =? c then Some O else option_map S (find_char c t)
  end.

(** [s.find(c, start)] *)
Definition find_from (c : char) (s : str) (start : nat) : option nat :=
  option_map (Nat.add start) (find_char c (skipn start s)).

(** [s.rfind(c)] *)
Definition rfind_char (c : char) (s : str) : option nat :=
  match find_char c (rev s) with
  | Some i => Some (List.length s - 1 - i)%nat
  | None => None
  end.

(** [s[a:b]] for [0 <= a], [0 <= b]. *)
Definition slice (s : str) (a b : nat) : str := firstn (b - a) (skipn a s).

(** [s.split(c, 1)] when [c in s]: the text before and after the first [c]. *)
Fixpoint split_first (c : char) (s : str) : option (str * str) :=
  match s with
  | [] => None
  | x :: t =>
      if x =? c then Some ([], t)
      else match split_first c t with
           | Some (a, b) => Some (x :: a, b)
           | None => None
           end
  end.

(** [s.rsplit(c, 1)] when [c in s]: the text before and after the last [c]. *)
Definition rsplit_last (c : char) (s : str) : option (str * str) :=
  match split_first c (rev s) with
  | Some (a, b) => Some (rev b, rev a)
  | None => None
  end.

(** [s.startswith(p)] *)
Fixpoint startswith (s p : str) : bool :=
  match p, s with
  | [], _ => true
  | _ :: _, [] => false
  | a :: p', b :: s' => (a =? b) && startswith s' p'
  end.

(** [p in s] for a string [p]. *)
Fixpoint contains (s p : str) : bool :=
  startswith s p || match s with [] => false | _ :: t => contains t p end.

(** [s.replace(c, "")] *)
Definition remove_char (c : char) (s : str) : str := filter (fun x => negb (x =? c)) s.

(** [sep.join(parts)] *)
Fixpoint join (sep : str) (parts : list str) : str :=
  match parts with
  | [] => []
  | [p] => p
  | p :: rest => p ++ sep ++ join sep rest
  end.

(** Words of [s.split()]: maximal runs of non-whitespace.  [cur] is the
    word being read, reversed. *)
Fixpoint split_ws_aux (s : str) (cur : str) : list str :=
  match s with
  | [] => match cur with [] => [] | _ => [rev cur] end
  | x :: t =>
      if isspace x
      then match cur with [] => split_ws_aux t [] | _ => rev cur :: split_ws_aux t [] end
      else split_ws_aux t (x :: cur)
  end.

Definition split_ws (s : str) : list str := split_ws_aux s [].

(** [str(n)] for a natural number. *)
Definition str_of_N (n : N) : str := lit (NilZero.string_of_uint (N.to_uint n)).

(** [str(z)] for an integer. *)
Definition str_of_Z (z : Z) : str :=
  match z with
  | Zneg p => ch "-" :: str_of_N (Npos p)
  | _ => str_of_N (Z.to_N z)
  end.

End Py.
Import Py.

(* ------------------------------------------------------------------ *)
(** ** Exceptions and results *)

Inductive exn : Type :=
| ValueError (msg : str)
| HTTPException (status_code : Z) (detail : str)
| AttributeError
| IntegrityError
| PendingRollbackError
| UnicodeEncodeError
| LibraryError (name : str).

Inductive result (A : Type) : Type :=
| Ok (a : A)
| Raise (e : exn).
Arguments Ok {A} a.
Arguments Raise {A} e.

Definition bind {A B} (r : result A) (k : A -> result B) : result B :=
  match r with
  | Ok a => k a
  | Raise e => Raise e
  end.

Notation "x <- e ;; k" := (bind e (fun x => k))
  (at level 61, e at next level, right associativity).
Notation "' p <- e ;; k" := (bind e (fun x => let p := x in k))
  (at level 61, p pattern, e at next level, right associativity).

(** [try: body except Exception: handler] where the handler returns a value. *)
Definition try_except {A} (body : result A) (handler : exn -> result A) : result A :=
  match body with
  | Ok a => Ok a
  | Raise e => handler e
  end.

(* ------------------------------------------------------------------ *)
(** ** What the program takes from its libraries and from the outside *)

(** A parsed JSON document as Python values.  [PFloat] carries the
    truth value and the [str()] text of the float. *)
Inductive pyval : Type :=
| PNone
| PBool (b : bool)
| PInt (z : Z)
| PFloat (truthy : bool) (text : str)
| PStr (s : str)
| PList (items : list pyval)
| PDict (entries : list (str * pyval)).

(** Outcome of one call [client.get(url)] of an httpx client built with
    [follow_redirects=True]: an exception (URL refused, connection, DNS,
    TLS, timeout, too many redirects) or the response at the end of the
    redirects, of any status code. *)
Inductive http_outcome : Type :=
| HttpRaises (e : exn)
| HttpResponse (status_code : Z) (content_type : option str) (text : str).

(** Outcome of [chat.completions.create] followed by
    [resp.choices[0].message.content]. *)
Inductive completion : Type :=
| CallRaises (e : exn)
| Content (text : str).

(** An address of [ipaddress]: the version and the integer value. *)
Inductive ip_address : Type :=
| IPv4 (n : N)
| IPv6 (n : N).

(** The queries the program makes on a BeautifulSoup document. *)
Record Soup : Type := {
  (** [soup.title], and inside it [soup.title.string] *)
  soup_title : option (option str);
  (** [soup.find("meta", property=p)], and inside it [.get("content")] *)
  soup_meta_property : str -> option (option str);
  (** [soup.find("meta", attrs={"name": n})], and inside it [.get("content")] *)
  soup_meta_name : str -> option (option str);
  (** [[p.get_text(" ", strip=True) for p in soup.find_all("p")]] *)
  soup_p_texts : list str;
  (** [soup.get_text(" ")] *)
  soup_get_text : str
}.

(** Library functions and external services.  The development proves
    its statements for every value of this record. *)
Record Env : Type := {
  (** [str.lower] on text that has code points above 127 *)
  unicode_lower : str -> str;
  (** [str.title] on text that has code points above 127 *)
  unicode_title : str -> str;
  (** [urllib.parse._checknetloc] passes on a non-ASCII netloc *)
  nfkc_netloc_ok : str -> bool;
  (** [urllib.parse._check_bracketed_host(hostname)]: [None] when it
      returns, the message of the [ValueError] it raises otherwise (its
      own for an IPvFuture or IPv4 literal, that of
      [ipaddress.ip_address] for text that is no address) *)
  _check_bracketed_host : str -> option str;
  (** [hashlib.sha256(b).hexdigest()] for the UTF-8 encoding [b] of a
      text that has one *)
  sha256_hexdigest : str -> str;
  (** one call [client.get(url)] of [httpx.AsyncClient], redirects
      followed *)
  http_get : str -> http_outcome;
  (** [socket.getaddrinfo(host, None)] with each address parsed by
      [ipaddress.ip_address]; [None] when either raises *)
  getaddrinfo : str -> option (list ip_address);
  (** [BeautifulSoup(html, "html.parser")] *)
  BeautifulSoup : str -> result Soup;
  (** the document after [decompose()] of every script, style and
      noscript element *)
  decompose_scripts : Soup -> Soup;
  (** [_openai_client]; [None] when [OPENAI_API_KEY] is empty or the
      client could not be built *)
  openai_client : option (str -> completion);
  (** [json.loads]; [None] when it raises *)
  json_loads : str -> option pyval;
  (** [str(v)] of a list or a dict *)
  repr_container : pyval -> str
}.

(** [s.lower()] *)
Definition lower (E : Env) (s : str) : str :=
  if forallb isascii s then map lower_char s else unicode_lower E s.

(* ------------------------------------------------------------------ *)
(** ** urllib.parse (CPython 3.11) *)

Module UrlParse.

Record SplitResult : Type := {
  scheme : str;
  netloc : str;
  path : str;
  query : str;
  fragment : str
}.

Definition uses_netloc : list str :=
  map lit [""; "ftp"; "http"; "gopher"; "nntp"; "telnet";
           "imap"; "wais"; "file"; "mms"; "https"; "shttp";
           "snews"; "prospero"; "rtsp"; "rtspu"; "rsync";
           "svn"; "svn+ssh"; "sftp"; "nfs"; "git"; "git+ssh";
           "ws"; "wss"].

Definition scheme_chars : str :=
  lit "abcdefghijklmnopqrstuvwxyzABCDEFGHIJKLMNOPQRSTUVWXYZ0123456789+-.".

(** [_WHATWG_C0_CONTROL_OR_SPACE]: code points 0 to 32. *)
Definition c0_control_or_space (c : char) : bool := c <=? 32.

(** [_UNSAFE_URL_BYTES_TO_REMOVE] *)
Definition unsafe_url_bytes : list char := [9; 13; 10].

Definition _splitnetloc (url : str) (start : nat) : str * str :=
  let delim :=
    fold_left
      (fun delim c =>
         match find_from c url start with
         | Some wdelim => Nat.min delim wdelim
         | None => delim
         end)
      (lit "/?#") (List.length url) in
  (slice url start delim, skipn delim url).

Definition _checknetloc (E : Env) (netloc : str) : result unit :=
  match netloc with
  | [] => Ok tt
  | _ =>
      if forallb isascii netloc then Ok tt
      else if nfkc_netloc_ok E netloc then Ok tt
      else Raise (ValueError (lit "netloc contains invalid characters under NFKC normalization"))
  end.

(** [_check_bracketed_netloc(netloc)], the validation of what
    surrounds a bracketed host (gh-105704), called on a netloc that
    holds both brackets. *)
Definition _check_bracketed_netloc (E : Env) (netloc : str) : result unit :=
  let hostname_and_port :=
    match rsplit_last (ch "@") netloc with
    | Some (_, after) => after
    | None => netloc
    end in
  hostname <-
    match split_first (ch "[") hostname_and_port with
    | Some (before_bracket, bracketed) =>
        (* No data is allowed before a bracket. *)
        if negb (str_eqb before_bracket [])
        then Raise (ValueError (lit "Invalid IPv6 URL"))
        else
          let '(hostname, port) :=
            match split_first (ch "]") bracketed with
            | Some (h, p) => (h, p)
            | None => (bracketed, [])
            end in
          (* No data is allowed after the bracket but before the port delimiter. *)
          if negb (str_eqb port []) && negb (startswith port (lit ":"))
          then Raise (ValueError (lit "Invalid IPv6 URL"))
          else Ok hostname
    | None =>
        match split_first (ch ":") hostname_and_port with
        | Some (h, _) => Ok h
        | None => Ok hostname_and_port
        end
    end ;;
  match _check_bracketed_host E hostname with
  | None => Ok tt
  | Some msg => Raise (ValueError msg)
  end.

(** [urlsplit(url)] with the default [scheme=''] and [allow_fragments=True]. *)
Definition urlsplit (E : Env) (url : str) : result SplitResult :=
  let url := lstrip_by c0_control_or_space url in
  let url := fold_left (fun u b => remove_char b u) unsafe_url_bytes url in
  let '(scheme, url) :=
    match find_char (ch ":") url with
    | Some i =>
        if (0 <? i)%nat
           && isascii (hd 0 url) && isalpha_ascii (hd 0 url)
           && forallb (fun c => has c scheme_chars) (firstn i url)
        then (lower E (firstn i url), skipn (i + 1) url)
        else ([], url)
    | None => ([], url)
    end in
  '(netloc, url) <-
    (if str_eqb (firstn 2 url) (lit "//") then
       let '(netloc, url) := _splitnetloc url 2 in
       if (has (ch "[") netloc && negb (has (ch "]") netloc))
          || (has (ch "]") netloc && negb (has (ch "[") netloc))
       then Raise (ValueError (lit "Invalid IPv6 URL"))
       else if has (ch "[") netloc && has (ch "]") netloc
       then _ <- _check_bracketed_netloc E netloc ;; Ok (netloc, url)
       else Ok (netloc, url)
     else Ok ([], url)) ;;
  let '(url, fragment) :=
    match split_first (ch "#") url with
    | Some (u, f) => (u, f)
    | None => (url, [])
    end in
  let '(url, query) :=
    match split_first (ch "?") url with
    | Some (u, q) => (u, q)
    | None => (url, [])
    end in
  _ <- _checknetloc E netloc ;;
  Ok {| scheme := scheme; netloc := netloc; path := url;
        query := query; fragment := fragment |}.

(** [urlunsplit((scheme, netloc, url, query, fragment))] *)
Definition urlunsplit (scheme netloc url query fragment : str) : str :=
  let url :=
    if negb (str_eqb netloc [])
       || (negb (str_eqb scheme []) && existsb (str_eqb scheme) uses_netloc
           && negb (str_eqb (firstn 2 url) (lit "//")))
    then
      let url := if negb (str_eqb url []) && negb (str_eqb (firstn 1 url) (lit "/"))
                 then lit "/" ++ url else url in
      lit "//" ++ netloc ++ url
    else url in
  let url := if negb (str_eqb scheme []) then scheme ++ lit ":" ++ url else url in
  let url := if negb (str_eqb query []) then url ++ lit "?" ++ query else url in
  let url := if negb (str_eqb fragment []) then url ++ lit "#" ++ fragment else url in
  url.

End UrlParse.

(* ------------------------------------------------------------------ *)
(** ** backend/app.py: hashing and URL normalisation *)

(** [s.encode("utf-8")] succeeds: the text holds no surrogate code point
    (U+D800 to U+DFFF); on one it raises [UnicodeEncodeError]. *)
Definition encodes_utf8 (s : str) : bool :=
  forallb (fun c => negb ((55296 <=? c) && (c <=? 57343))) s.

(** [sha256_hex(s)] *)
Definition sha256_hex (E : Env) (s : str) : result str :=
  if encodes_utf8 s then Ok (sha256_hexdigest E s) else Raise UnicodeEncodeError.

(** [normalize_url(raw)]: keep the query string, drop the fragment,
    normalise scheme and host case, strip default ports. *)
Definition normalize_url (E : Env) (raw : str) : result str :=
  let raw := strip raw in
  match raw with
  | [] => Ok raw
  | _ =>
      parts <- UrlParse.urlsplit E raw ;;
      let scheme := lower E (str_or (UrlParse.scheme parts) (lit "http")) in
      let netloc := UrlParse.netloc parts in
      let netloc :=
        match rsplit_last (ch ":") netloc with
        | Some (host, port) =>
            let host_l := lower E host in
            if (str_eqb scheme (lit "http") && str_eqb port (lit "80"))
               || (str_eqb scheme (lit "https") && str_eqb port (lit "443"))
            then host_l
            else host_l ++ lit ":" ++ port
        | None => lower E netloc
        end in
      let path := str_or (UrlParse.path parts) (lit "/") in
      let query := UrlParse.query parts in
      let frag := [] in
      Ok (UrlParse.urlunsplit scheme netloc path query frag)
  end.

(* ------------------------------------------------------------------ *)
(** ** backend/app.py: reading time and enrichment *)

(** [round(n / d)] of Python for a positive [d]: the nearest integer,
    a tie going to the even one.  The float quotient of the source is
    exact on ties and never crosses one for word counts below 2^53. *)
Definition py_round_div (n d : N) : N :=
  let q := n / d in
  let r := n mod d in
  if 2 * r <? d then q
  else if d <? 2 * r then q + 1
  else if N.even q then q else q + 1.

(** [len(text.split())] *)
Definition word_count (text : str) : N := N.of_nat (List.length (split_ws text)).

(** [calculate_reading_time(text)]: minutes at 200 words per minute,
    at least 1. *)
Definition calculate_reading_time (text : str) : N :=
  match text with
  | [] => 1
  | _ =>
      let word_count := word_count text in
      let reading_time_minutes := N.max 1 (py_round_div word_count 200) in
      reading_time_minutes
  end.

(** The character U+2026 of the source. *)
Definition ellipsis : str := [8230].

(** The expression
    [f"[{reading_time} min read] " + ((context_text[:340] + "…") if context_text else (title or url))]
    which [ai_enrich] uses in three places. *)
Definition fallback_summary (reading_time : N) (url title context_text : str) : str :=
  (lit "[" ++ str_of_N reading_time ++ lit " min read] ")
  ++ match context_text with
     | [] => str_or title url
     | _ => firstn 340 context_text ++ ellipsis
     end.

(** Truth value of a Python value. *)
Definition truthy (v : pyval) : bool :=
  match v with
  | PNone => false
  | PBool b => b
  | PInt z => negb (Z.eqb z 0)
  | PFloat t _ => t
  | PStr s => negb (str_eqb s [])
  | PList l => match l with [] => false | _ => true end
  | PDict d => match d with [] => false | _ => true end
  end.

(** [data.get(key)] *)
Definition dict_get (d : list (str * pyval)) (key : str) : pyval :=
  match find (fun kv => str_eqb (fst kv) key) d with
  | Some (_, v) => v
  | None => PNone
  end.

(** [(v or "").strip()]: a truthy value that is not a string has no
    [strip]. *)
Definition or_empty_strip (v : pyval) : result str :=
  if truthy v then
    match v with
    | PStr s => Ok (strip s)
    | _ => Raise AttributeError
    end
  else Ok [].

(** [s.title()] on ASCII text: the first letter of every run of letters
    in upper case, the others in lower case. *)
Fixpoint title_ascii (prev_cased : bool) (s : str) : str :=
  match s with
  | [] => []
  | c :: t =>
      if isalpha_ascii c
      then (if prev_cased then lower_char c else upper_char c) :: title_ascii true t
      else c :: title_ascii false t
  end.

Definition py_title (E : Env) (s : str) : str :=
  if forallb isascii s then title_ascii false s else unicode_title E s.

(** [str(v)] *)
Definition py_str (E : Env) (v : pyval) : str :=
  match v with
  | PNone => lit "None"
  | PBool true => lit "True"
  | PBool false => lit "False"
  | PInt z => str_of_Z z
  | PFloat _ text => text
  | PStr s => s
  | PList _ | PDict _ => repr_container E v
  end.

(** The prompt sent to the completion service. *)
Definition enrich_prompt (reading_time : N) (url title context_text : str) : str :=
  lit "You are helping organize saved web links." ++ [10]
  ++ lit "Given the URL, title, and extracted text, produce a concise 2" ++ [8211]
  ++ lit "3 sentence summary, "
  ++ lit "a single high-level category (like Technology, Science, Business, Culture, Politics, Sports, Personal Finance, "
  ++ lit "Programming, Product, Education, Health, Other), and 3" ++ [8211]
  ++ lit "6 short, lowercase tags." ++ [10]
  ++ lit "IMPORTANT: Start the summary with '[" ++ str_of_N reading_time
  ++ lit " min read] ' followed by your summary." ++ [10]
  ++ lit "Return ONLY a compact JSON object with keys: summary, category, tags." ++ [10]
  ++ lit "URL: " ++ url ++ [10]
  ++ lit "Title: " ++ title ++ [10]
  ++ lit "Text: " ++ firstn 4000 context_text ++ [10].

(** The JSON parse with its safety net: [json.loads(content)], and when
    that raises, the text between the first opening and the last closing
    brace, after the code fences are stripped. *)
Definition parse_reply (E : Env) (content : str) : pyval :=
  match json_loads E content with
  | Some data => data
  | None =>
      let content_stripped :=
        if startswith content (lit "```") then strip_by (N.eqb 96) content
        else content in
      match find_char (ch "{") content_stripped,
            rfind_char (ch "}") content_stripped with
      | Some l, Some r =>
          if (l <? r)%nat then
            match json_loads E (slice content_stripped l (r + 1)) with
            | Some data => data
            | None => PDict []
            end
          else PDict []
      | _, _ => PDict []
      end
  end.

(** [ai_enrich(url, title, context_text)]: (summary, category, tags). *)
Definition ai_enrich (E : Env) (url title context_text : str) : str * str * list str :=
  let reading_time := calculate_reading_time context_text in
  match openai_client E with
  | None =>
      let fallback_summary := fallback_summary reading_time url title context_text in
      (fallback_summary, lit "Other", [])
  | Some create =>
      let prompt := enrich_prompt reading_time url title context_text in
      let body : result (str * str * list str) :=
        content <- match create prompt with
                   | CallRaises e => Raise e
                   | Content text => Ok (strip text)
                   end ;;
        let data := parse_reply E content in
        summary <- match data with
                   | PDict d => or_empty_strip (dict_get d (lit "summary"))
                   | _ => Ok []
                   end ;;
        category <- match data with
                    | PDict d =>
                        c <- or_empty_strip (dict_get d (lit "category")) ;;
                        Ok (py_title E c)
                    | _ => Ok []
                    end ;;
        let tags := match data with
                    | PDict d => dict_get d (lit "tags")
                    | _ => PList []
                    end in
        let tags := match tags with PList l => l | _ => [] end in
        let summary :=
          match summary with
          | [] => fallback_summary reading_time url title context_text
          | _ =>
              if negb (startswith summary
                         (lit "[" ++ str_of_N reading_time ++ lit " min read]"))
              then lit "[" ++ str_of_N reading_time ++ lit " min read] " ++ summary
              else summary
          end in
        let category := str_or category (lit "Other") in
        let tags :=
          map (fun t => firstn 40 (lower E (strip (py_str E t))))
              (filter (fun t => negb (str_eqb (strip (py_str E t)) [])) tags) in
        let tags := firstn 6 tags in
        Ok (summary, category, tags) in
      match body with
      | Ok r => r
      | Raise _ =>
          let fallback_summary := fallback_summary reading_time url title context_text in
          (fallback_summary, lit "Other", [])
      end
  end.

(* ------------------------------------------------------------------ *)
(** ** backend/app.py: fetch and extraction used by the worker loop *)

(** What a fetch did: the calls of [client.get] it made, each by the
    URL it passed, and what it returned.  Both clients are built with
    [follow_redirects=True]: the GET requests behind one call are the
    client's own (none when it refuses the URL or cannot connect,
    several, to other URLs, when it follows redirects) and are not
    recorded here. *)
Record fetched : Type := {
  requests : list str;
  returned : result str
}.

(** A tag that was found and has a non-empty attribute or string. *)
Definition tag_text (t : option (option str)) : str :=
  match t with
  | Some (Some s) => s
  | _ => []
  end.

Module App.

(** [fetch_html(url)] of app.py: one call of the client; every
    exception becomes the empty string; the response the call ends
    with is kept when it looks like HTML. *)
Definition fetch_html (E : Env) (url : str) : fetched :=
  {| requests := [url];
     returned :=
       try_except
         (match http_get E url with
          | HttpRaises e => Raise e
          | HttpResponse _ content_type text =>
              let ct := match content_type with Some c => c | None => [] end in
              if negb (contains ct (lit "text/html"))
                 && negb (contains (lower E text) (lit "<html"))
              then Ok []
              else Ok (str_or text [])
          end)
         (fun _ => Ok []) |}.

(** [_extract_text_from_html(html)]: (title, description). *)
Definition _extract_text_from_html (E : Env) (html : str) : result (str * str) :=
  match html with
  | [] => Ok ([], [])
  | _ =>
      soup <- BeautifulSoup E html ;;
      let title := [] in
      let title :=
        match tag_text (soup_title soup) with
        | [] => title
        | s => strip s
        end in
      let title :=
        match title with
        | [] =>
            match tag_text (soup_meta_property soup (lit "og:title")) with
            | [] => title
            | s => strip s
            end
        | _ => title
        end in
      let desc := [] in
      let desc :=
        match tag_text (soup_meta_name soup (lit "description")) with
        | [] => desc
        | s => strip s
        end in
      let desc :=
        match desc with
        | [] => strip (join (lit " ") (firstn 8 (soup_p_texts soup)))
        | _ => desc
        end in
      Ok (title, desc)
  end.

End App.

(* ------------------------------------------------------------------ *)
(** ** backend/utils.py *)

Module Utils.

Record ip_network : Type := {
  net_v6 : bool;
  network_address : N;
  prefixlen : N
}.

Definition ipv4 (a b c d : N) : N := a * 16777216 + b * 65536 + c * 256 + d.

Definition PRIVATE_NETS : list ip_network :=
  [ {| net_v6 := false; network_address := ipv4 10 0 0 0; prefixlen := 8 |};
    {| net_v6 := false; network_address := ipv4 172 16 0 0; prefixlen := 12 |};
    {| net_v6 := false; network_address := ipv4 192 168 0 0; prefixlen := 16 |};
    {| net_v6 := false; network_address := ipv4 127 0 0 0; prefixlen := 8 |};
    {| net_v6 := false; network_address := ipv4 169 254 0 0; prefixlen := 16 |};
    {| net_v6 := true; network_address := 1; prefixlen := 128 |};
    {| net_v6 := true; network_address := N.shiftl 0xfc00 112; prefixlen := 7 |};
    {| net_v6 := true; network_address := N.shiftl 0xfe80 112; prefixlen := 10 |} ].

(** The netmask of a prefix length in an address of [bits] bits. *)
Definition netmask (bits prefix : N) : N :=
  N.shiftl (N.ones prefix) (bits - prefix).

(** [ip in net]: false across versions, else the masked address is the
    network address. *)
Definition ip_in (ip : ip_address) (net : ip_network) : bool :=
  match ip, net_v6 net with
  | IPv4 n, false => N.land n (netmask 32 (prefixlen net)) =? network_address net
  | IPv6 n, true => N.land n (netmask 128 (prefixlen net)) =? network_address net
  | _, _ => false
  end.

(** [is_private_host(host)]: a failing lookup counts as private. *)
Definition is_private_host (E : Env) (host : str) : bool :=
  match getaddrinfo E host with
  | Some infos => existsb (fun ip => existsb (ip_in ip) PRIVATE_NETS) infos
  | None => true
  end.

(** [s.split(c)] *)
Fixpoint split_char (c : char) (s : str) : list str :=
  match s with
  | [] => [[]]
  | x :: t =>
      if x =? c then [] :: split_char c t
      else match split_char c t with
           | w :: ws => (x :: w) :: ws
           | [] => [[x]]
           end
  end.

(** [url.split("/")[2].split("@")[-1].split(":")[0]] *)
Definition host_of (url : str) : str :=
  hd [] (split_char (ch ":") (last (split_char (ch "@") (nth 2 (split_char (ch "/") url) [])) [])).

(** [fetch_html(url, timeout, max_bytes)] of utils.py: the client is
    called, once, only for a URL that passes the guard; the guard sees
    the host of [url], not the hosts the client is redirected to. *)
Definition fetch_html (E : Env) (url : str) (max_bytes : nat) : fetched :=
  if negb (startswith url (lit "http://") || startswith url (lit "https://"))
  then {| requests := []; returned := Raise (ValueError (lit "invalid scheme")) |}
  else
    let host := host_of url in
    if is_private_host E host
    then {| requests := []; returned := Raise (ValueError (lit "blocked host")) |}
    else
      {| requests := [url];
         returned :=
           match http_get E url with
           | HttpRaises e => Raise e
           | HttpResponse status_code _ text =>
               if ((200 <=? status_code) && (status_code <=? 299))%Z
               then Ok (firstn max_bytes text)
               else Raise (LibraryError (lit "HTTPStatusError"))
           end |}.

(** [extract_content(html, title_hint)]: (title, description, body). *)
Definition extract_content (E : Env) (html title_hint : str) : result (str * str * str) :=
  soup <- BeautifulSoup E html ;;
  let soup := decompose_scripts E soup in
  let title :=
    str_or (tag_text (soup_meta_property soup (lit "og:title")))
           (str_or (tag_text (soup_title soup)) title_hint) in
  let desc := str_or (tag_text (soup_meta_property soup (lit "og:description"))) [] in
  let body := join (lit " ") (map strip (split_ws (soup_get_text soup))) in
  Ok (firstn 300 title, firstn 500 desc, body).

End Utils.

(* ------------------------------------------------------------------ *)
(** ** backend/app.py: the tables *)

Inductive status : Type := queued | processing | ready | error.

Inductive origin : Type := user | system.

Definition status_eqb (a b : status) : bool :=
  match a, b with
  | queued, queued | processing, processing | ready, ready | error, error => true
  | _, _ => false
  end.

Definition origin_eqb (a b : origin) : bool :=
  match a, b with
  | user, user | system, system => true
  | _, _ => false
  end.

Module Link.
Record t : Type := {
  id : N;
  user_id : N;
  url : str;
  url_hash : str;
  normalized_url : str;
  normalized_url_hash : str;
  title : str;
  summary : str;
  category : str;
  status : status;
  archived_at : option Z;
  created_at : Z;
  updated_at : Z
}.
End Link.

Module LinkTag.
Record t : Type := {
  id : N;
  link_id : N;
  name : str;
  submitted_by : origin;
  created_at : Z
}.
End LinkTag.

Record DB : Type := {
  links : list Link.t;
  link_tags : list LinkTag.t
}.

(** [UniqueConstraint("link_id", "name", "submitted_by", name="uq_link_tag_name_role")] *)
Definition uq_link_tag_name_role (a b : LinkTag.t) : bool :=
  (LinkTag.link_id a =? LinkTag.link_id b)
  && str_eqb (LinkTag.name a) (LinkTag.name b)
  && origin_eqb (LinkTag.submitted_by a) (LinkTag.submitted_by b).

(** [__table_args__] of [Link]: the source has
    [UniqueConstraint("user_id", "url_hash", name="uq_user_url")] inside
    a comment, so the table declares no uniqueness constraint. *)
Definition Link_table_args : list (Link.t -> Link.t -> bool) := [].

(** [__table_args__] of [LinkTag]. *)
Definition LinkTag_table_args : list (LinkTag.t -> LinkTag.t -> bool) :=
  [uq_link_tag_name_role].

(** No two rows are the same under a uniqueness constraint. *)
Fixpoint unique_ok {A : Type} (same : A -> A -> bool) (rows : list A) : bool :=
  match rows with
  | [] => true
  | r :: rest => negb (existsb (same r) rest) && unique_ok same rest
  end.

(** The declared constraints hold in a database state; a flush that
    would break one raises [IntegrityError]. *)
Definition constraints_ok (db : DB) : bool :=
  forallb (fun c => unique_ok c (links db)) Link_table_args
  && forallb (fun c => unique_ok c (link_tags db)) LinkTag_table_args.

(** The integer primary key of a new row: one more than the largest. *)
Definition next_id (ids : list N) : N := 1 + fold_right N.max 0 ids.

(* ------------------------------------------------------------------ *)
(** ** The SQLAlchemy session

    [store] is what the database holds, [view] the session's objects
    with their uncommitted changes.  A flush that fails rolls the
    transaction back, expires the loaded objects and leaves the session
    inactive: until [rollback()] or [close()], every operation that
    needs the database raises [PendingRollbackError] ("This Session's
    transaction has been rolled back due to a previous exception during
    flush. To begin a new transaction with this Session, first issue
    Session.rollback()"). *)

Inductive tx_state : Type := Active | Deactive.

Record Session : Type := {
  store : DB;
  view : DB;
  tx : tx_state
}.

(** The state a handler runs in: the session and the URLs passed to
    [client.get] so far, latest first. *)
Record Proc : Type := {
  session : Session;
  sent : list str
}.

Definition M (A : Type) : Type := Proc -> Proc * result A.

Definition ret {A} (a : A) : M A := fun p => (p, Ok a).
Definition raise {A} (e : exn) : M A := fun p => (p, Raise e).
Definition lift {A} (r : result A) : M A := fun p => (p, r).
Definition mbind {A B} (m : M A) (k : A -> M B) : M B :=
  fun p =>
    match m p with
    | (p', Ok a) => k a p'
    | (p', Raise e) => (p', Raise e)
    end.

Notation "x <~ e ;; k" := (mbind e (fun x => k))
  (at level 61, e at next level, right associativity).
Notation "e >> k" := (mbind e (fun _ => k))
  (at level 61, right associativity).

(** [try: body except Exception as e: handler] *)
Definition try_ {A} (body : M A) (handler : exn -> M A) : M A :=
  fun p =>
    match body p with
    | (p', Ok a) => (p', Ok a)
    | (p', Raise e) => handler e p'
    end.

(** [try: body finally: cleanup] *)
Definition finally {A} (body : M A) (cleanup : M unit) : M A :=
  fun p =>
    match body p with
    | (p', r) =>
        match cleanup p' with
        | (p'', Ok _) => (p'', r)
        | (p'', Raise e) => (p'', Raise e)
        end
    end.

Definition on_session {A} (f : Session -> Session * result A) : M A :=
  fun p =>
    let '(s, r) := f (session p) in
    ({| session := s; sent := sent p |}, r).

(** [SessionLocal()] *)
Definition SessionLocal (db : DB) : Session :=
  {| store := db; view := db; tx := Active |}.

(** Any operation that reads the database. *)
Definition query {A} (f : DB -> A) : M A :=
  on_session (fun s =>
    match tx s with
    | Active => (s, Ok (f (view s)))
    | Deactive => (s, Raise PendingRollbackError)
    end).

(** A change to the session's objects (attribute assignment, [add]). *)
Definition modify (f : DB -> DB) : M unit :=
  on_session (fun s =>
    ({| store := store s; view := f (view s); tx := tx s |}, Ok tt)).

(** [s.get(Link, link_id)] *)
Definition get_link (link_id : N) : M (option Link.t) :=
  query (fun db => find (fun l => Link.id l =? link_id) (links db)).

(** [s.commit()] *)
Definition commit : M unit :=
  on_session (fun s =>
    match tx s with
    | Deactive => (s, Raise PendingRollbackError)
    | Active =>
        if constraints_ok (view s)
        then ({| store := view s; view := view s; tx := Active |}, Ok tt)
        else ({| store := store s; view := store s; tx := Deactive |},
              Raise IntegrityError)
    end).

(** [s.rollback()] *)
Definition rollback : M unit :=
  on_session (fun s =>
    ({| store := store s; view := store s; tx := Active |}, Ok tt)).

(** [s.close()] *)
Definition close : M unit :=
  on_session (fun s =>
    ({| store := store s; view := store s; tx := Active |}, Ok tt)).

(** Assignment to attributes of a loaded [Link]: the row of that
    primary key is replaced. *)
Definition put_link (l : Link.t) : M unit :=
  modify (fun db =>
    {| links := map (fun r => if Link.id r =? Link.id l then l else r) (links db);
       link_tags := link_tags db |}).

(** [db.add(Link(...))]; the primary key is the one the flush assigns. *)
Definition add_link (mk : N -> Link.t) : M Link.t :=
  fun p =>
    let db := view (session p) in
    let l := mk (next_id (map Link.id (links db))) in
    match modify (fun db => {| links := links db ++ [l];
                               link_tags := link_tags db |}) p with
    | (p', _) => (p', Ok l)
    end.

(** [db.add(LinkTag(link_id=..., name=..., submitted_by=...))] *)
Definition add_link_tag (link_id : N) (name : str) (by_ : origin) (now : Z) : M unit :=
  modify (fun db =>
    {| links := links db;
       link_tags := link_tags db ++
         [ {| LinkTag.id := next_id (map LinkTag.id (link_tags db));
              LinkTag.link_id := link_id;
              LinkTag.name := name;
              LinkTag.submitted_by := by_;
              LinkTag.created_at := now |} ] |}).

(** [for x in xs: body(x)] *)
Fixpoint for_each {A} (xs : list A) (body : A -> M unit) : M unit :=
  match xs with
  | [] => ret tt
  | x :: rest => body x >> for_each rest body
  end.

Notation "' p <~ e ;; k" := (mbind e (fun x => let p := x in k))
  (at level 61, p pattern, e at next level, right associativity).

(** Running a fetch: its calls of the client are recorded, its result
    comes back. *)
Definition perform (f : fetched) : M str :=
  fun p => ({| session := session p; sent := requests f ++ sent p |}, returned f).

(* ------------------------------------------------------------------ *)
(** ** backend/app.py: queue and worker *)

Definition set_status (l : Link.t) (st : status) (now : Z) : Link.t :=
  {| Link.id := Link.id l; Link.user_id := Link.user_id l;
     Link.url := Link.url l; Link.url_hash := Link.url_hash l;
     Link.normalized_url := Link.normalized_url l;
     Link.normalized_url_hash := Link.normalized_url_hash l;
     Link.title := Link.title l; Link.summary := Link.summary l;
     Link.category := Link.category l;
     Link.status := st;
     Link.archived_at := Link.archived_at l;
     Link.created_at := Link.created_at l;
     Link.updated_at := now |}.

(** [enqueue_link(db, user_id, url, title)]; [now] is what [now_utc()]
    returns for the column defaults. *)
Definition enqueue_link (E : Env) (user_id : N) (url title : str) (now : Z) : M N :=
  let url_clean := strip url in
  match url_clean with
  | [] => raise (HTTPException 400 (lit "url required"))
  | _ =>
      normalized <~ lift (normalize_url E url_clean) ;;
      url_hash <~ lift (sha256_hex E url_clean) ;;
      normalized_hash <~
        lift (match normalized with [] => Ok [] | _ => sha256_hex E normalized end) ;;
      link <~ add_link (fun id =>
        {| Link.id := id; Link.user_id := user_id;
           Link.url := url_clean; Link.url_hash := url_hash;
           Link.normalized_url := normalized;
           Link.normalized_url_hash := normalized_hash;
           Link.title := str_or title [];
           Link.summary := []; Link.category := [];
           Link.status := queued;
           Link.archived_at := None;
           Link.created_at := now; Link.updated_at := now |}) ;;
      try_ (commit >> ret (Link.id link))
           (fun e =>
              match e with
              | IntegrityError =>
                  rollback >>
                  (* Already exists for this user+url *)
                  existing <~ query (fun db =>
                    filter (fun l => (Link.user_id l =? user_id)
                                     && str_eqb (Link.url_hash l) url_hash)
                           (links db)) ;;
                  match existing with
                  | [] => raise e
                  | [l] => ret (Link.id l)
                  | _ => raise (LibraryError (lit "MultipleResultsFound"))
                  end
              | _ => raise e
              end)
  end.

(** [ORDER BY created_at ASC LIMIT 1]: the first row of the smallest
    [created_at]; rows of equal [created_at] come in table order. *)
Fixpoint oldest (rows : list Link.t) : option Link.t :=
  match rows with
  | [] => None
  | r :: rest =>
      match oldest rest with
      | Some m => if (Link.created_at m <? Link.created_at r)%Z then Some m else Some r
      | None => Some r
      end
  end.

(** [select(Link).where(Link.status == "queued").order_by(Link.created_at.asc()).limit(1)] *)
Definition select_next_queued (db : DB) : option Link.t :=
  oldest (filter (fun l => status_eqb (Link.status l) queued) (links db)).

(** The claim of [worker_loop]: fetch the next queued item and mark it
    as processing. *)
Definition claim_next (now : Z) : M (option Link.t) :=
  link <~ query select_next_queued ;;
  match link with
  | None => ret None
  | Some link =>
      let link := set_status link processing now in
      put_link link >> commit >> ret (Some link)
  end.

(** The upsert of system tags in [_process_one]: the names not yet
    among the link's system tags are added. *)
Definition upsert_system_tags (link_id : N) (sys_tags : list str) (now : Z) : M unit :=
  tags <~ query (fun db =>
    filter (fun t => LinkTag.link_id t =? link_id) (link_tags db)) ;;
  let existing_sys :=
    map LinkTag.name
        (filter (fun t => origin_eqb (LinkTag.submitted_by t) system) tags) in
  let to_add :=
    filter (fun t => negb (existsb (str_eqb t) existing_sys)) sys_tags in
  for_each to_add (fun name => add_link_tag link_id name system now).

(** [_process_one(db, link_id)] *)
Definition _process_one (E : Env) (link_id : N) (now : Z) : M unit :=
  link <~ get_link link_id ;;
  match link with
  | None => ret tt
  | Some link =>
      html <~ perform (App.fetch_html E (Link.url link)) ;;
      '(title_extracted, text_extracted) <~ lift (App._extract_text_from_html E html) ;;
      let new_title := str_or (Link.title link) title_extracted in
      let '(summary, category, sys_tags) :=
        ai_enrich E (Link.url link) (str_or new_title (Link.url link)) text_extracted in
      put_link
        {| Link.id := Link.id link; Link.user_id := Link.user_id link;
           Link.url := Link.url link; Link.url_hash := Link.url_hash link;
           Link.normalized_url := Link.normalized_url link;
           Link.normalized_url_hash := Link.normalized_url_hash link;
           Link.title :=
             firstn 512 (str_or new_title (str_or (Link.title link) (Link.url link)));
           Link.summary := str_or summary (Link.summary link);
           Link.category :=
             str_or category (str_or (Link.category link) (lit "Other"));
           Link.status := ready;
           Link.archived_at := Link.archived_at link;
           Link.created_at := Link.created_at link;
           Link.updated_at := now |} >>
      upsert_system_tags (Link.id link) sys_tags now >>
      commit
  end.

Inductive iteration : Type := Idle | Processed.

(** The body of [while True] in [worker_loop], after the sleep. *)
Definition worker_iteration (E : Env) (now : Z) : M iteration :=
  finally
    (link <~ claim_next now ;;
     match link with
     | None => close >> ret Idle
     | Some link =>
         try_ (_process_one E (Link.id link) now)
              (fun e =>
                 (* mark error *)
                 l2 <~ get_link (Link.id link) ;;
                 match l2 with
                 | Some l2 => put_link (set_status l2 error now) >> commit
                 | None => ret tt
                 end) >>
         ret Processed
     end)
    close.

(** One iteration on a database: a new session, the body, and the
    database and the calls of the client ([wire], latest first)
    afterwards. *)
Definition run_iteration (E : Env) (now : Z) (db : DB) (wire : list str)
  : DB * list str * result iteration :=
  match worker_iteration E now {| session := SessionLocal db; sent := wire |} with
  | (p, r) => (store (session p), sent p, r)
  end.

(** [worker_loop()] for as many iterations as there are clock readings;
    an exception that leaves the body ends the loop. *)
Fixpoint worker_loop (E : Env) (clock : list Z) (db : DB) (wire : list str)
  : DB * list str * result unit :=
  match clock with
  | [] => (db, wire, Ok tt)
  | now :: later =>
      match run_iteration E now db wire with
      | (db', wire', Ok _) => worker_loop E later db' wire'
      | (db', wire', Raise e) => (db', wire', Raise e)
      end
  end.

(** A request handler calling [enqueue_link] with its own session. *)
Definition run_enqueue (E : Env) (user_id : N) (url title : str) (now : Z) (db : DB)
  : DB * result N :=
  match finally (enqueue_link E user_id url title now) close
          {| session := SessionLocal db; sent := [] |} with
  | (p, r) => (store (session p), r)
  end.

(** The names of the system tags a link has. *)
Definition existing_sys (db : DB) (link_id : N) : list str :=
  map LinkTag.name
      (filter (fun t => origin_eqb (LinkTag.submitted_by t) system)
              (filter (fun t => LinkTag.link_id t =? link_id) (link_tags db))).

(** The upsert of system tags followed by the commit of [_process_one],
    in a session of its own: the database afterwards and the outcome. *)
Definition run_upsert_system_tags (db : DB) (link_id : N) (sys_tags : list str)
                                  (now : Z) : DB * result unit :=
  match (upsert_system_tags link_id sys_tags now >> commit)
          {| session := SessionLocal db; sent := [] |} with
  | (p, r) => (store (session p), r)
  end.

(** The rows that [db.add(LinkTag(...))] appends for a list of names. *)
Fixpoint added_rows (tags : list LinkTag.t) (link_id : N) (names : list str)
                    (now : Z) : list LinkTag.t :=
  match names with
  | [] => []
  | name :: rest =>
      let t := {| LinkTag.id := next_id (map LinkTag.id tags);
                  LinkTag.link_id := link_id;
                  LinkTag.name := name;
                  LinkTag.submitted_by := system;
                  LinkTag.created_at := now |} in
      t :: added_rows (tags ++ [t]) link_id rest now
  end.

(* ------------------------------------------------------------------ *)
(** ** URLs by their parts *)

(** A URL [scheme://host[:port]path[?query][#fragment]]; the host may
    carry user information before an [@]. *)
Record Url : Type := {
  u_scheme : str;
  u_host : str;
  u_port : option str;
  u_path : str;
  u_query : option str;
  u_fragment : option str
}.

Definition port_part (u : Url) : str :=
  match u_port u with Some p => lit ":" ++ p | None => [] end.

Definition query_part (u : Url) : str :=
  match u_query u with Some q => lit "?" ++ q | None => [] end.

Definition fragment_part (u : Url) : str :=
  match u_fragment u with Some f => lit "#" ++ f | None => [] end.

(** The text of a URL. *)
Definition render (u : Url) : str :=
  u_scheme u ++ lit ":" ++ lit "//" ++ (u_host u ++ port_part u)
  ++ (u_path u ++ query_part u ++ fragment_part u).

(** Printable ASCII other than the space. *)
Definition url_char (c : char) : bool := (33 <=? c) && (c <=? 126).

Definition host_char (c : char) : bool := url_char c && negb (has c (lit "/?#:[]")).
Definition path_char (c : char) : bool := url_char c && negb (has c (lit "?#")).
Definition query_char (c : char) : bool := url_char c && negb (has c (lit "#")).

(** Well-formed parts: a scheme of letters, digits, [+], [-], [.] that
    starts with a letter; a non-empty host without delimiters; a port of
    digits; a path that is empty or starts with a slash; no whitespace
    or control character anywhere. *)
Definition wf_url (u : Url) : bool :=
  isalpha_ascii (hd 0 (u_scheme u))
  && forallb (fun c => has c UrlParse.scheme_chars) (u_scheme u)
  && negb (str_eqb (u_host u) [])
  && forallb host_char (u_host u)
  && match u_port u with Some p => forallb isdigit_ascii p | None => true end
  && match u_path u with [] => true | c :: _ => c =? 47 end
  && forallb path_char (u_path u)
  && match u_query u with Some q => forallb query_char q | None => true end
  && match u_fragment u with Some f => forallb url_char f | None => true end.

(** The port is the default one of the scheme. *)
Definition default_port (scheme port : str) : bool :=
  (str_eqb scheme (lit "http") && str_eqb port (lit "80"))
  || (str_eqb scheme (lit "https") && str_eqb port (lit "443")).

(** The normal form of a URL: scheme and host in lower case, no default
    port, a path of at least a slash, the query kept, no fragment. *)
Definition normalized (u : Url) : Url :=
  let scheme := map lower_char (u_scheme u) in
  {| u_scheme := scheme;
     u_host := map lower_char (u_host u);
     u_port := match u_port u with
               | Some p => if default_port scheme p then None else Some p
               | None => None
               end;
     u_path := str_or (u_path u) (lit "/");
     u_query := match u_query u with
                | Some [] => None
                | q => q
                end;
     u_fragment := None |}.

(* ------------------------------------------------------------------ *)
(** ** The spec's wording, for comparison with the code *)

Module Spec.

(** The fallback summary as the spec words it: the marker, then the
    first 340 characters of the body (the title or the URL when the
    body is empty), then an ellipsis. *)
Definition fallback_summary_as_worded (n : N) (url title body : str) : str :=
  (lit "[" ++ str_of_N n ++ lit " min read] ")
  ++ match body with
     | [] => str_or title url
     | _ => firstn 340 body
     end
  ++ ellipsis.


End Spec.

(* ------------------------------------------------------------------ *)
(** ** Concrete environments and inputs *)

(** No enrichment service, every request refused, every lookup failing. *)
Definition offline_env : Env :=
  {| unicode_lower := fun s => s;
     unicode_title := fun s => s;
     nfkc_netloc_ok := fun _ => true;
     _check_bracketed_host := fun _ => None;
     sha256_hexdigest := fun s => lit "sha256:" ++ s;
     http_get := fun _ => HttpRaises (LibraryError (lit "ConnectError"));
     getaddrinfo := fun _ => None;
     BeautifulSoup := fun _ => Raise (LibraryError (lit "ParserRejectedMarkup"));
     decompose_scripts := fun s => s;
     openai_client := None;
     json_loads := fun _ => None;
     repr_container := fun _ => [] |}.

(** [offline_env] with other answers from the network, the parser and
    the enrichment service. *)
Definition env_with (get : str -> http_outcome)
                    (dns : str -> option (list ip_address))
                    (bs : str -> result Soup)
                    (client : option (str -> completion))
                    (loads : str -> option pyval) : Env :=
  {| unicode_lower := unicode_lower offline_env;
     unicode_title := unicode_title offline_env;
     nfkc_netloc_ok := nfkc_netloc_ok offline_env;
     _check_bracketed_host := _check_bracketed_host offline_env;
     sha256_hexdigest := sha256_hexdigest offline_env;
     http_get := get;
     getaddrinfo := dns;
     BeautifulSoup := bs;
     decompose_scripts := decompose_scripts offline_env;
     openai_client := client;
     json_loads := loads;
     repr_container := repr_container offline_env |}.

Definition empty_db : DB := {| links := []; link_tags := [] |}.

(** A queued link as [enqueue_link] stores it. *)
Definition queued_link (id user_id : N) (url title : str) (now : Z) : Link.t :=
  {| Link.id := id; Link.user_id := user_id;
     Link.url := url; Link.url_hash := lit "sha256:" ++ url;
     Link.normalized_url := url;
     Link.normalized_url_hash := lit "sha256:" ++ url;
     Link.title := title; Link.summary := []; Link.category := [];
     Link.status := queued; Link.archived_at := None;
     Link.created_at := now; Link.updated_at := now |}.

Definition system_tag (id link_id : N) (name : str) : LinkTag.t :=
  {| LinkTag.id := id; LinkTag.link_id := link_id; LinkTag.name := name;
     LinkTag.submitted_by := system; LinkTag.created_at := 0%Z |}.

(** A document with a title element and an og:title tag. *)
Definition soup_both_titles : Soup :=
  {| soup_title := Some (Some (lit "Doc title"));
     soup_meta_property := fun p =>
       if str_eqb p (lit "og:title") then Some (Some (lit "OG title")) else None;
     soup_meta_name := fun _ => None;
     soup_p_texts := [lit "First paragraph."];
     soup_get_text := lit "Doc title First paragraph." |}.

(** The loopback, a private and the metadata-service address resolve to
    themselves, any other host to a public address. *)
Definition literal_dns (host : str) : option (list ip_address) :=
  if str_eqb host (lit "127.0.0.1") then Some [IPv4 (Utils.ipv4 127 0 0 1)]
  else if str_eqb host (lit "10.1.2.3") then Some [IPv4 (Utils.ipv4 10 1 2 3)]
  else if str_eqb host (lit "169.254.169.254") then Some [IPv4 (Utils.ipv4 169 254 169 254)]
  else Some [IPv4 (Utils.ipv4 93 184 216 34)].

(** Every host answers with a small HTML page. *)
Definition html_everywhere (url : str) : http_outcome :=
  HttpResponse 200 (Some (lit "text/html")) (lit "<html><p>internal</p></html>").

(** What the parser finds in that page: no title, no meta element, one
    paragraph. *)
Definition soup_internal : Soup :=
  {| soup_title := None;
     soup_meta_property := fun _ => None;
     soup_meta_name := fun _ => None;
     soup_p_texts := [lit "internal"];
     soup_get_text := lit "internal" |}.

(** A network where internal addresses answer. *)
Definition intranet_env : Env :=
  env_with html_everywhere literal_dns (fun _ => Ok soup_internal) None (fun _ => None).

(** An enrichment service whose reply names the same tag twice. *)
Definition twice_tagged_reply : pyval :=
  PDict [ (lit "summary", PStr (lit "A page."));
          (lit "category", PStr (lit "technology"));
          (lit "tags", PList [PStr (lit "AI"); PStr (lit "ai")]) ].

Definition twice_tagged_env : Env :=
  env_with (http_get offline_env) (getaddrinfo offline_env)
           (BeautifulSoup offline_env)
           (Some (fun _ => Content (lit "{...}")))
           (fun _ => Some twice_tagged_reply).

(** A table with a finished link and two queued links of one creation
    time. *)
Definition queue_db : DB :=
  {| links := [ set_status (queued_link 1 1 (lit "http://a.com/") [] 3) ready 4;
                queued_link 2 1 (lit "http://b.com/") [] 5;
                queued_link 3 1 (lit "http://c.com/") [] 5 ];
     link_tags := [] |}.

(** A link that already has the system tag "ai". *)
Definition tagged_db : DB :=
  {| links := [ set_status (queued_link 1 1 (lit "http://a.com/") [] 3) ready 4 ];
     link_tags := [ system_tag 1 1 (lit "ai") ] |}.

(** The URL of the spec's scenario, by its parts. *)
Definition example_url : Url :=
  {| u_scheme := lit "HTTP"; u_host := lit "Example.com";
     u_port := Some (lit "80"); u_path := lit "/path";
     u_query := Some (lit "q=1"); u_fragment := Some (lit "frag") |}.





(** The enrichment service is not configured, or the call made for
    these arguments raises. *)
Definition enrichment_unavailable (E : Env) (url title context_text : str) : Prop :=
  openai_client E = None
  \/ exists create e,
       openai_client E = Some create
       /\ create (enrich_prompt (calculate_reading_time context_text)
                    url title context_text) = CallRaises e.

(** The row [enqueue_link] builds for a given primary key. *)
Definition enqueued_row (E : Env) (user_id : N) (url_clean title normalized : str)
                        (now : Z) (id : N) : Link.t :=
  {| Link.id := id; Link.user_id := user_id;
     Link.url := url_clean; Link.url_hash := sha256_hexdigest E url_clean;
     Link.normalized_url := normalized;
     Link.normalized_url_hash :=
       match normalized with [] => [] | _ => sha256_hexdigest E normalized end;
     Link.title := str_or title [];
     Link.summary := []; Link.category := [];
     Link.status := queued;
     Link.archived_at := None;
     Link.created_at := now; Link.updated_at := now |}.

(** The names the code adds: those of the proposal not among the
    existing system tags. *)
Definition to_add (db : DB) (link_id : N) (sys_tags : list str) : list str :=
  filter (fun t => negb (existsb (str_eqb t) (existing_sys db link_id))) sys_tags.

(* ------------------------------------------------------------------ *)
(** ** backend/app.py: request handlers *)

(** What a statement leaves to the database engine. *)
Record Dialect : Type := {
  (** [func.lower(x)] *)
  func_lower : str -> str;
  (** [column.ilike(pattern)]: the column value, then the pattern *)
  ilike : str -> str -> bool
}.

(** [get_db] and [get_session]: a handler runs in a session of its own,
    closed when the handler ends. *)
Definition get_db {A} (handler : M A) (db : DB) : DB * result A :=
  match finally handler close {| session := SessionLocal db; sent := [] |} with
  | (p, r) => (store (session p), r)
  end.

Definition option_Z_eqb (a b : option Z) : bool :=
  match a, b with
  | Some x, Some y => Z.eqb x y
  | None, None => true
  | _, _ => false
  end.

(** Assignment to [archived_at] of a loaded link.  The flush emits an
    UPDATE, and with it [onupdate=now_utc] of [updated_at], only when
    the value differs from the loaded one; [flushed] is the clock
    reading of that UPDATE. *)
Definition set_archived_at (l : Link.t) (v : option Z) (flushed : Z) : Link.t :=
  if option_Z_eqb (Link.archived_at l) v then l
  else
    {| Link.id := Link.id l; Link.user_id := Link.user_id l;
       Link.url := Link.url l; Link.url_hash := Link.url_hash l;
       Link.normalized_url := Link.normalized_url l;
       Link.normalized_url_hash := Link.normalized_url_hash l;
       Link.title := Link.title l; Link.summary := Link.summary l;
       Link.category := Link.category l;
       Link.status := Link.status l;
       Link.archived_at := v;
       Link.created_at := Link.created_at l;
       Link.updated_at := flushed |}.

(** [l = db.get(Link, link_id)] followed by
    [if not l or l.user_id != user.id: raise HTTPException(404, detail)] *)
Definition owned_link (link_id user_id : N) (detail : str) : M Link.t :=
  l <~ get_link link_id ;;
  match l with
  | None => raise (HTTPException 404 detail)
  | Some l =>
      if negb (Link.user_id l =? user_id)
      then raise (HTTPException 404 detail)
      else ret l
  end.

(** [archive_link(link_id)] for the user [user_id]. *)
Definition archive_link (link_id user_id : N) (now flushed : Z) : M unit :=
  l <~ owned_link link_id user_id (lit "link not found") ;;
  put_link (set_archived_at l (Some now) flushed) >>
  commit.

(** [unarchive_link(link_id)] *)
Definition unarchive_link (link_id user_id : N) (flushed : Z) : M unit :=
  l <~ owned_link link_id user_id (lit "link not found") ;;
  put_link (set_archived_at l None flushed) >>
  commit.

(** [.scalar_one_or_none()] *)
Definition scalar_one_or_none {A} (rows : list A) : M (option A) :=
  match rows with
  | [] => ret None
  | [x] => ret (Some x)
  | _ => raise (LibraryError (lit "MultipleResultsFound"))
  end.

(** The WHERE clause
    [and_(LinkTag.link_id == link_id, LinkTag.name == name, LinkTag.submitted_by == "user")] *)
Definition is_user_tag (link_id : N) (name : str) (t : LinkTag.t) : bool :=
  (LinkTag.link_id t =? link_id)
  && str_eqb (LinkTag.name t) name
  && origin_eqb (LinkTag.submitted_by t) user.

(** [db.delete(tag_row)] *)
Definition delete_link_tag (t : LinkTag.t) : M unit :=
  modify (fun db =>
    {| links := links db;
       link_tags := filter (fun r => negb (LinkTag.id r =? LinkTag.id t)) (link_tags db) |}).

(** [add_user_tag(link_id, payload)]; [payload_name] is
    [payload.get("name")]. *)
Definition add_user_tag (E : Env) (link_id user_id : N) (payload_name : option str)
                        (now : Z) : M unit :=
  let name :=
    lower E (strip (str_or (match payload_name with Some s => s | None => [] end) [])) in
  match name with
  | [] => raise (HTTPException 400 (lit "name required"))
  | _ =>
      l <~ owned_link link_id user_id (lit "link not found") ;;
      (* upsert user tag *)
      ids <~ query (fun db =>
        map LinkTag.id (filter (is_user_tag link_id name) (link_tags db))) ;;
      exists_ <~ scalar_one_or_none ids ;;
      (* [not exists] holds of [None] and of the integer 0 *)
      if match exists_ with Some i => i =? 0 | None => true end
      then add_link_tag link_id name user now >> commit
      else ret tt
  end.

(** [remove_user_tag(link_id, name)] *)
Definition remove_user_tag (E : Env) (link_id user_id : N) (name : str) : M unit :=
  let name := lower E (strip (str_or name [])) in
  l <~ owned_link link_id user_id (lit "link not found") ;;
  rows <~ query (fun db => filter (is_user_tag link_id name) (link_tags db)) ;;
  tag_row <~ scalar_one_or_none rows ;;
  match tag_row with
  | Some tag_row => delete_link_tag tag_row >> commit
  | None => ret tt
  end.

(** The filter of [api_add_tag] and [api_delete_tag]:
    [LinkTag.link_id == link.id, func.lower(LinkTag.name) == name.lower(),
     LinkTag.submitted_by == "user"] *)
Definition is_user_tag_nocase (E : Env) (D : Dialect) (link_id : N) (name : str)
                              (t : LinkTag.t) : bool :=
  (LinkTag.link_id t =? link_id)
  && str_eqb (func_lower D (LinkTag.name t)) (lower E name)
  && origin_eqb (LinkTag.submitted_by t) user.

(** The split lists both tag handlers return:
    [s.query(LinkTag).filter_by(link_id=link.id).all()] by origin. *)
Definition split_tags (link_id : N) : M (list str * list str) :=
  tags <~ query (fun db =>
    filter (fun t => LinkTag.link_id t =? link_id) (link_tags db)) ;;
  ret (map LinkTag.name
           (filter (fun t => origin_eqb (LinkTag.submitted_by t) user) tags),
       map LinkTag.name
           (filter (fun t => origin_eqb (LinkTag.submitted_by t) system) tags)).

(** [api_add_tag(data)]: (user_tags, system_tags). *)
Definition api_add_tag (E : Env) (D : Dialect) (link_id user_id : N) (data_name : str)
                       (now : Z) : M (list str * list str) :=
  (* Verify link belongs to user *)
  link <~ owned_link link_id user_id (lit "Link not found") ;;
  (* Normalize + enforce model limits *)
  let name := strip (str_or data_name []) in
  match name with
  | [] => raise (HTTPException 400 (lit "Empty tag"))
  | _ =>
      let name := if (64 <? List.length name)%nat then firstn 64 name else name in
      (* Case-insensitive de-dupe for *user* role on this link *)
      exists_ <~ query (fun db =>
        hd_error (filter (is_user_tag_nocase E D (Link.id link) name) (link_tags db))) ;;
      match exists_ with
      | Some _ => ret tt
      | None =>
          try_ (add_link_tag (Link.id link) name user now >> commit)
               (fun e =>
                  match e with
                  | IntegrityError => rollback
                  | _ => raise e
                  end)
      end >>
      split_tags (Link.id link)
  end.

(** [q.delete(synchronize_session=False)]: a DELETE in the session's
    transaction; the number of rows it removed. *)
Definition delete_where (f : LinkTag.t -> bool) : M nat :=
  on_session (fun s =>
    match tx s with
    | Deactive => (s, Raise PendingRollbackError)
    | Active =>
        ({| store := store s;
            view := {| links := links (view s);
                       link_tags := filter (fun t => negb (f t)) (link_tags (view s)) |};
            tx := tx s |},
         Ok (List.length (filter f (link_tags (view s)))))
    end).

(** [api_delete_tag(data)]: (user_tags, system_tags). *)
Definition api_delete_tag (E : Env) (D : Dialect) (link_id user_id : N) (data_name : str)
  : M (list str * list str) :=
  link <~ owned_link link_id user_id (lit "Link not found") ;;
  let name := strip (str_or data_name []) in
  match name with
  | [] => raise (HTTPException 400 (lit "Empty tag"))
  | _ =>
      (* Only remove user-submitted tags *)
      deleted <~ delete_where (is_user_tag_nocase E D (Link.id link) name) ;;
      match deleted with
      | O => ret tt
      | S _ => commit
      end >>
      split_tags (Link.id link)
  end.








Module Hit.
(** One entry of the list [api_search] returns. *)
Record t : Type := {
  id : N;
  url : str;
  title : str;
  summary : str;
  category : str;
  status : status;
  created_at : Z;
  user_tags : list str;
  system_tags : list str
}.
End Hit.




(** [bookmarklet_capture(u, t)]: the status code of the page and the
    id of the saved link. *)
Definition bookmarklet_capture (E : Env) (user_id : N) (u t : str) (now : Z)
  : M (Z * option N) :=
  let url := strip (str_or u []) in
  let title := strip (str_or t []) in
  match url with
  | [] => ret (400%Z, None)
  | _ =>
      link_id <~ enqueue_link E user_id url title now ;;
      ret (200%Z, Some link_id)
  end.

Module User.
Record t : Type := {
  id : N;
  email : str;
  api_key : str
}.
End User.


(* ------------------------------------------------------------------ *)
(** ** What one iteration of the worker writes *)

(** The row [_process_one] stores for a claimed link, given the
    extracted title and the enrichment. *)
Definition processed_row (link : Link.t) (title_extracted summary category : str)
                         (now : Z) : Link.t :=
  let new_title := str_or (Link.title link) title_extracted in
  {| Link.id := Link.id link; Link.user_id := Link.user_id link;
     Link.url := Link.url link; Link.url_hash := Link.url_hash link;
     Link.normalized_url := Link.normalized_url link;
     Link.normalized_url_hash := Link.normalized_url_hash link;
     Link.title :=
       firstn 512 (str_or new_title (str_or (Link.title link) (Link.url link)));
     Link.summary := str_or summary (Link.summary link);
     Link.category := str_or category (str_or (Link.category link) (lit "Other"));
     Link.status := ready;
     Link.archived_at := Link.archived_at link;
     Link.created_at := Link.created_at link;
     Link.updated_at := now |}.

(** How many links wait in the queue. *)
Definition queued_count (db : DB) : nat :=
  List.length (filter (fun l => status_eqb (Link.status l) queued) (links db)).

(** Two rows are the same link: everything but title, summary,
    category, status and [updated_at] agrees. *)
Definition same_link (a b : Link.t) : Prop :=
  Link.id a = Link.id b /\ Link.user_id a = Link.user_id b
  /\ Link.url a = Link.url b /\ Link.url_hash a = Link.url_hash b
  /\ Link.normalized_url a = Link.normalized_url b
  /\ Link.normalized_url_hash a = Link.normalized_url_hash b
  /\ Link.archived_at a = Link.archived_at b
  /\ Link.created_at a = Link.created_at b.

(** Two rows differ at most in [archived_at] and [updated_at]. *)
Definition same_content (a b : Link.t) : Prop :=
  Link.id a = Link.id b /\ Link.user_id a = Link.user_id b
  /\ Link.url a = Link.url b /\ Link.url_hash a = Link.url_hash b
  /\ Link.normalized_url a = Link.normalized_url b
  /\ Link.normalized_url_hash a = Link.normalized_url_hash b
  /\ Link.title a = Link.title b /\ Link.summary a = Link.summary b
  /\ Link.category a = Link.category b /\ Link.status a = Link.status b
  /\ Link.created_at a = Link.created_at b.

(** The link of a primary key, when the given user owns it. *)
Definition link_of (db : DB) (link_id user_id : N) : option Link.t :=
  match find (fun l => Link.id l =? link_id) (links db) with
  | Some l => if Link.user_id l =? user_id then Some l else None
  | None => None
  end.

(** The names of the user tags a link has. *)
Definition existing_user (db : DB) (link_id : N) : list str :=
  map LinkTag.name
      (filter (fun t => origin_eqb (LinkTag.submitted_by t) user)
              (filter (fun t => LinkTag.link_id t =? link_id) (link_tags db))).

(** The [ValueError] of a bracket check: raised by [urlsplit] itself
    with the message "Invalid IPv6 URL", or by the library's check of
    the bracketed host with the message of that check. *)
Definition bracket_error (E : Env) (e : exn) : Prop :=
  exists msg,
    e = ValueError msg
    /\ (msg = lit "Invalid IPv6 URL"
        \/ exists hostname, _check_bracketed_host E hostname = Some msg).

(** [offline_env] with a [str.lower] that folds the capital letters of
    Latin-1 as well, as Python does. *)
Definition latin1_lower (c : char) : char :=
  if (192 <=? c) && (c <=? 222) && negb (c =? 215) then c + 32 else lower_char c.

Definition latin1_env : Env :=
  {| unicode_lower := map latin1_lower;
     unicode_title := unicode_title offline_env;
     nfkc_netloc_ok := nfkc_netloc_ok offline_env;
     _check_bracketed_host := _check_bracketed_host offline_env;
     sha256_hexdigest := sha256_hexdigest offline_env;
     http_get := http_get offline_env;
     getaddrinfo := getaddrinfo offline_env;
     BeautifulSoup := BeautifulSoup offline_env;
     decompose_scripts := decompose_scripts offline_env;
     openai_client := openai_client offline_env;
     json_loads := json_loads offline_env;
     repr_container := repr_container offline_env |}.

(** [offline_env] with a check of bracketed hosts that accepts the IPv6
    loopback and answers any other text as [ipaddress.ip_address] does
    text that is no address. *)
Definition strict_brackets_env : Env :=
  {| unicode_lower := unicode_lower offline_env;
     unicode_title := unicode_title offline_env;
     nfkc_netloc_ok := nfkc_netloc_ok offline_env;
     _check_bracketed_host := fun h =>
       if str_eqb h (lit "::1") then None
       else Some (lit "'" ++ h ++ lit "' does not appear to be an IPv4 or IPv6 address");
     sha256_hexdigest := sha256_hexdigest offline_env;
     http_get := http_get offline_env;
     getaddrinfo := getaddrinfo offline_env;
     BeautifulSoup := BeautifulSoup offline_env;
     decompose_scripts := decompose_scripts offline_env;
     openai_client := openai_client offline_env;
     json_loads := json_loads offline_env;
     repr_container := repr_container offline_env |}.

(** ASCII text without a [#]. *)
Definition ascii_no_hash (s : str) : Prop :=
  forallb (fun c => isascii c && negb (c =? 35)) s = true.

(** An IPv4-mapped IPv6 address [::ffff:a.b.c.d]. *)
Definition ipv4_mapped (v4 : N) : ip_address := IPv6 (0xffff * 4294967296 + v4).

(** [LIKE]: [%] stands for any text, [_] for one character. *)
Fixpoint like (pattern value : str) {struct pattern} : bool :=
  match pattern with
  | [] => match value with [] => true | _ => false end
  | c :: pattern' =>
      if c =? 37 then
        (fix any (v : str) : bool :=
           like pattern' v || match v with [] => false | _ :: v' => any v' end) value
      else
        match value with
        | [] => false
        | x :: value' => ((c =? 95) || (c =? x)) && like pattern' value'
        end
  end.

(** A database engine whose [lower] and [ILIKE] fold ASCII letters. *)
Definition ascii_dialect : Dialect :=
  {| func_lower := map lower_char;
     ilike := fun value pattern =>
       like (map lower_char pattern) (map lower_char value) |}.

Definition user_tag (id link_id : N) (name : str) : LinkTag.t :=
  {| LinkTag.id := id; LinkTag.link_id := link_id; LinkTag.name := name;
     LinkTag.submitted_by := user; LinkTag.created_at := 0%Z |}.

(** Two users; the first has a finished link with a user tag and two
    system tags, and an archived link; the second one link. *)
Definition library_db : DB :=
  {| links := [ set_status (queued_link 1 1 (lit "http://a.com/") (lit "A") 3) ready 4;
                set_archived_at
                  (set_status (queued_link 2 1 (lit "http://b.com/") (lit "B") 5) ready 6)
                  (Some 7%Z) 7;
                set_status (queued_link 3 2 (lit "http://c.com/") (lit "C") 8) ready 9 ];
     link_tags := [ user_tag 1 1 (lit "ai");
                    system_tag 2 1 (lit "ai");
                    system_tag 3 1 (lit "python");
                    system_tag 4 3 (lit "rust") ] |}.

(* ------------------------------------------------------------------ *)
(** * Properties *)

(** ** Strings *)

Lemma str_eqb_refl (s : str) : str_eqb s s = true.
Proof. unfold str_eqb. destruct (list_eq_dec N.eq_dec s s); congruence. Qed.

Lemma str_eqb_eq (a b : str) : str_eqb a b = true <-> a = b.
Proof.
  unfold str_eqb. destruct (list_eq_dec N.eq_dec a b); split; congruence.
Qed.

Lemma str_eqb_neq (a b : str) : str_eqb a b = false <-> a <> b.
Proof.
  unfold str_eqb. destruct (list_eq_dec N.eq_dec a b); split; congruence.
Qed.

(** ** Reading time and the enrichment fallback *)

Lemma py_round_div_nearest (n : N) :
  let r := py_round_div n 200 in
  200 * r <= n + 100 /\ n <= 200 * r + 100
  /\ (n = 200 * r + 100 \/ n + 100 = 200 * r -> N.even r = true).
Proof.
  cbv zeta. unfold py_round_div.
  pose proof (N.div_mod n 200 ltac:(discriminate)) as Hdm.
  pose proof (N.mod_lt n 200 ltac:(discriminate)) as Hlt.
  set (q := n / 200) in *. set (m := n mod 200) in *.
  destruct (N.ltb_spec (2 * m) 200); [repeat split; try lia|].
  destruct (N.ltb_spec 200 (2 * m)); [repeat split; try lia|].
  assert (m = 100) by lia.
  destruct (N.even q) eqn:Hev.
  - repeat split; try lia. intros _. exact Hev.
  - repeat split; try lia. intros _.
    rewrite N.add_1_r, N.even_succ, <- N.negb_even, Hev. reflexivity.
Qed.

Lemma calculate_reading_time_eq (text : str) :
  calculate_reading_time text = N.max 1 (py_round_div (word_count text) 200).
Proof. destruct text; reflexivity. Qed.

Lemma calculate_reading_time_examples :
  calculate_reading_time (List.concat (repeat (lit "word ") 1000%nat)) = 5
  /\ calculate_reading_time (List.concat (repeat (lit "word ") 400%nat)) = 2
  /\ calculate_reading_time (List.concat (repeat (lit "word ") 500%nat)) = 2
  /\ calculate_reading_time (lit "one two") = 1.
Proof. vm_compute. repeat split. Qed.

(** C6 (as amended).  When no enrichment service is configured, or the
    call raises, [ai_enrich] returns the fallback triple: the summary is
    the marker ["[<n> min read] "] with [n = max(1, round(words / 200))]
    (round to nearest, ties to even), followed by the first 340
    characters of the body and an ellipsis, or, when the body is empty,
    by the title (the URL when the title is empty) without an ellipsis;
    the category is ["Other"] and the tag list is empty. *)
Theorem ai_enrich_fallback (E : Env) (url title body : str) :
  enrichment_unavailable E url title body ->
  let words := word_count body in
  let n := N.max 1 (py_round_div words 200) in
  ai_enrich E url title body =
    ((lit "[" ++ str_of_N n ++ lit " min read] ")
       ++ match body with
          | [] => str_or title url
          | _ => firstn 340 body ++ ellipsis
          end,
     lit "Other", [])
  /\ 200 * py_round_div words 200 <= words + 100
  /\ words <= 200 * py_round_div words 200 + 100.
Proof.
  intros Hun words n.
  pose proof (py_round_div_nearest words) as (Hlo & Hhi & _).
  split; [|split; assumption].
  unfold ai_enrich. rewrite calculate_reading_time_eq. fold words. fold n.
  destruct Hun as [Hnone | (create & e & Hsome & Hcall)].
  - rewrite Hnone. reflexivity.
  - rewrite Hsome. rewrite calculate_reading_time_eq in Hcall.
    fold words in Hcall. fold n in Hcall. rewrite Hcall. reflexivity.
Qed.

Lemma ai_enrich_fallback_witness :
  enrichment_unavailable offline_env (lit "http://a.com/") (lit "A") (lit "some body text")
  /\ ai_enrich offline_env (lit "http://a.com/") (lit "A") (lit "some body text")
     = (lit "[1 min read] some body text" ++ ellipsis, lit "Other", []).
Proof.
  split.
  - left. reflexivity.
  - exact (proj1 (ai_enrich_fallback offline_env (lit "http://a.com/") (lit "A")
                    (lit "some body text") (or_introl eq_refl))).
Defined.

(** C6, counterexample.  With an empty body the summary of the code
    ends with the title; the summary as the spec words it ends with an
    ellipsis. *)
Lemma ai_enrich_fallback_no_ellipsis_on_empty_body :
  enrichment_unavailable offline_env (lit "http://a.com/") (lit "A") []
  /\ ai_enrich offline_env (lit "http://a.com/") (lit "A") []
     = (lit "[1 min read] A", lit "Other", [])
  /\ ai_enrich offline_env (lit "http://a.com/") (lit "A") []
     <> (Spec.fallback_summary_as_worded 1 (lit "http://a.com/") (lit "A") [],
         lit "Other", []).
Proof.
  split; [left; reflexivity|]. split; [reflexivity|].
  vm_compute. discriminate.
Qed.

(** ** Content extraction *)

(** C8.  [extract_content] picks the title in this order: the content
    of the og:title tag, then the string of the title element, then the
    supplied hint, then the empty string; the result is cut to 300
    characters. *)
Theorem extract_content_title_preference
    (E : Env) (html title_hint : str) (soup : Soup) :
  BeautifulSoup E html = Ok soup ->
  let doc := decompose_scripts E soup in
  let og := tag_text (soup_meta_property doc (lit "og:title")) in
  let ttl := tag_text (soup_title doc) in
  exists t desc body,
    Utils.extract_content E html title_hint = Ok (t, desc, body)
    /\ (og <> [] -> t = firstn 300 og)
    /\ (og = [] -> ttl <> [] -> t = firstn 300 ttl)
    /\ (og = [] -> ttl = [] -> t = firstn 300 title_hint)
    /\ (og = [] -> ttl = [] -> title_hint = [] -> t = []).
Proof.
  intros Hparse doc og ttl.
  unfold Utils.extract_content. rewrite Hparse. cbn [bind].
  fold doc. fold og. fold ttl.
  eexists _, _, _. split; [reflexivity|].
  repeat split.
  - intros Hog. destruct og; [congruence | reflexivity].
  - intros -> Httl. cbn [str_or]. destruct ttl; [congruence | reflexivity].
  - intros -> ->. reflexivity.
  - intros -> -> ->. reflexivity.
Qed.

Lemma extract_content_title_preference_witness :
  let E := env_with (http_get offline_env) (getaddrinfo offline_env)
                    (fun _ => Ok soup_both_titles) None (fun _ => None) in
  BeautifulSoup E (lit "<html>...</html>") = Ok soup_both_titles
  /\ exists desc body,
       Utils.extract_content E (lit "<html>...</html>") (lit "hint")
       = Ok (lit "OG title", desc, body).
Proof.
  cbv zeta. split; [reflexivity|].
  destruct (extract_content_title_preference
              (env_with (http_get offline_env) (getaddrinfo offline_env)
                        (fun _ => Ok soup_both_titles) None (fun _ => None))
              (lit "<html>...</html>") (lit "hint") soup_both_titles eq_refl)
    as (t & desc & body & Heq & Hog & _).
  exists desc, body. rewrite Heq.
  rewrite (Hog ltac:(discriminate)). reflexivity.
Defined.

(** ** The fetch of the worker loop *)

(** C2, at the failing inputs.  On a network where the loopback, a
    private and the metadata-service address answer, the guarded fetch
    of utils.py raises "blocked host" without a request, while the fetch
    the worker loop uses issues the GET and returns the page; a queued
    link to the metadata service is fetched and ends [ready] with the
    internal page as its summary. *)
Theorem worker_fetch_reaches_private_hosts :
  Forall (fun url =>
            Utils.is_private_host intranet_env (Utils.host_of url) = true
            /\ Utils.fetch_html intranet_env url 2000000
               = {| requests := [];
                    returned := Raise (ValueError (lit "blocked host")) |}
            /\ App.fetch_html intranet_env url
               = {| requests := [url];
                    returned := Ok (lit "<html><p>internal</p></html>") |})
         [lit "http://127.0.0.1/"; lit "http://10.1.2.3/";
          lit "http://169.254.169.254/"]
  /\ (let l := queued_link 1 1 (lit "http://169.254.169.254/") [] 0 in
      exists db',
        run_iteration intranet_env 1 {| links := [l]; link_tags := [] |} []
        = (db', [lit "http://169.254.169.254/"], Ok Processed)
        /\ map Link.status (links db') = [ready]
        /\ map Link.summary (links db') = [lit "[1 min read] internal" ++ ellipsis]).
Proof.
  split.
  - repeat constructor; vm_compute; reflexivity.
  - cbv zeta. eexists. split; [vm_compute; reflexivity|].
    split; reflexivity.
Qed.

(** ** The worker loop and an exception of the persist stage *)

(** C5, at the failing input.  The enrichment reply names one tag
    twice; the commit of [_process_one] raises [IntegrityError] and
    leaves the session inactive, the handler's [s.get] raises
    [PendingRollbackError], which leaves the loop: the link stays
    [processing] and the link queued behind it is never claimed. *)
Theorem worker_loop_stops_on_failed_commit :
  let l1 := queued_link 1 1 (lit "http://a.com/") [] 0 in
  let l2 := queued_link 2 1 (lit "http://b.com/") [] 1 in
  let db := {| links := [l1; l2]; link_tags := [] |} in
  ai_enrich twice_tagged_env (lit "http://a.com/") (lit "http://a.com/") []
  = (lit "[1 min read] A page.", lit "Technology", [lit "ai"; lit "ai"])
  /\ run_iteration twice_tagged_env 10 db []
     = ({| links := [set_status l1 processing 10; l2]; link_tags := [] |},
        [lit "http://a.com/"], Raise PendingRollbackError)
  /\ worker_loop twice_tagged_env [10; 12; 14]%Z db []
     = ({| links := [set_status l1 processing 10; l2]; link_tags := [] |},
        [lit "http://a.com/"], Raise PendingRollbackError).
Proof. cbv zeta. repeat split; vm_compute; reflexivity. Qed.

(** ** Enqueue *)

Lemma le_fold_max (ids : list N) (x : N) : In x ids -> x <= fold_right N.max 0 ids.
Proof.
  induction ids as [|y ids IH]; simpl; [tauto|].
  intros [->|H]; [lia|]. specialize (IH H). lia.
Qed.

Lemma next_id_gt (ids : list N) (x : N) : In x ids -> x < next_id ids.
Proof. intros H. apply le_fold_max in H. unfold next_id. lia. Qed.

Lemma sha256_hex_encodes (E : Env) (s : str) :
  encodes_utf8 s = true -> sha256_hex E s = Ok (sha256_hexdigest E s).
Proof. intros H. unfold sha256_hex. rewrite H. reflexivity. Qed.

(** With no uniqueness constraint on the table the commit of
    [enqueue_link] succeeds whatever the table holds. *)
Lemma run_enqueue_inserts
    (E : Env) (db : DB) (user_id : N) (url title : str) (now : Z) (nz : str) :
  constraints_ok db = true ->
  strip url <> [] ->
  normalize_url E (strip url) = Ok nz ->
  encodes_utf8 (strip url) = true ->
  encodes_utf8 nz = true ->
  let l := enqueued_row E user_id (strip url) title nz now
             (next_id (map Link.id (links db))) in
  run_enqueue E user_id url title now db
  = ({| links := links db ++ [l]; link_tags := link_tags db |}, Ok (Link.id l)).
Proof.
  intros Hok Hne Hnorm Hu Hz l.
  unfold run_enqueue, enqueue_link.
  destruct (strip url) as [|c rest] eqn:Hs; [congruence|].
  rewrite Hnorm, (sha256_hex_encodes E _ Hu).
  cbv [finally mbind lift].
  replace (match nz with [] => Ok [] | _ :: _ => sha256_hex E nz end)
    with (@Ok str (match nz with [] => [] | _ :: _ => sha256_hexdigest E nz end))
    by (rewrite (sha256_hex_encodes E _ Hz); destruct nz; reflexivity).
  cbv [add_link modify on_session try_ commit ret close mbind].
  cbn [view store tx session sent SessionLocal].
  match goal with
  | |- context [constraints_ok ?d] => change (constraints_ok d) with (constraints_ok db)
  end.
  rewrite Hok. reflexivity.
Qed.

(** C1, on the code.  Two calls of [enqueue_link] by one owner with one
    URL both commit: the table ends with two rows of the same owner and
    the same raw-URL hash, and the second call returns a new id.  The
    URL is any text that normalises and that, like its normal form,
    encodes as UTF-8 (on a lone surrogate [sha256_hex] raises before
    anything is stored). *)
Theorem enqueue_link_twice_inserts_twice
    (E : Env) (db : DB) (user_id : N) (url title : str) (now1 now2 : Z) (nz : str) :
  constraints_ok db = true ->
  strip url <> [] ->
  normalize_url E (strip url) = Ok nz ->
  encodes_utf8 (strip url) = true ->
  encodes_utf8 nz = true ->
  exists l1 l2 db1 db2,
    run_enqueue E user_id url title now1 db = (db1, Ok (Link.id l1))
    /\ run_enqueue E user_id url title now2 db1 = (db2, Ok (Link.id l2))
    /\ links db2 = links db ++ [l1; l2]
    /\ Link.id l1 < Link.id l2
    /\ Link.user_id l1 = user_id /\ Link.user_id l2 = user_id
    /\ sha256_hex E (strip url) = Ok (Link.url_hash l1)
    /\ sha256_hex E (strip url) = Ok (Link.url_hash l2).
Proof.
  intros Hok Hne Hnorm Hu Hz.
  pose proof (run_enqueue_inserts E db user_id url title now1 nz Hok Hne Hnorm Hu Hz) as H1.
  cbv zeta in H1.
  set (l1 := enqueued_row E user_id (strip url) title nz now1
               (next_id (map Link.id (links db)))) in *.
  set (db1 := {| links := links db ++ [l1]; link_tags := link_tags db |}) in *.
  assert (Hok1 : constraints_ok db1 = true) by exact Hok.
  pose proof (run_enqueue_inserts E db1 user_id url title now2 nz Hok1 Hne Hnorm Hu Hz)
    as H2.
  cbv zeta in H2.
  set (l2 := enqueued_row E user_id (strip url) title nz now2
               (next_id (map Link.id (links db1)))) in *.
  exists l1, l2, db1, {| links := links db1 ++ [l2]; link_tags := link_tags db1 |}.
  repeat split; try assumption; try reflexivity;
    try (apply sha256_hex_encodes; exact Hu).
  - cbn [links db1]. rewrite <- app_assoc. reflexivity.
  - apply next_id_gt. cbn [links db1]. rewrite map_app. apply in_or_app.
    right. left. reflexivity.
Qed.

Lemma enqueue_link_twice_inserts_twice_witness :
  constraints_ok empty_db = true
  /\ strip (lit "http://a.com/") <> []
  /\ normalize_url offline_env (strip (lit "http://a.com/")) = Ok (lit "http://a.com/")
  /\ encodes_utf8 (strip (lit "http://a.com/")) = true
  /\ encodes_utf8 (lit "http://a.com/") = true
  /\ exists l1 l2 db1 db2,
       run_enqueue offline_env 7 (lit "http://a.com/") [] 1 empty_db
       = (db1, Ok (Link.id l1))
       /\ run_enqueue offline_env 7 (lit "http://a.com/") [] 2 db1
          = (db2, Ok (Link.id l2))
       /\ links db2 = links empty_db ++ [l1; l2]
       /\ Link.id l1 < Link.id l2
       /\ Link.user_id l1 = 7 /\ Link.user_id l2 = 7
       /\ sha256_hex offline_env (strip (lit "http://a.com/")) = Ok (Link.url_hash l1)
       /\ sha256_hex offline_env (strip (lit "http://a.com/")) = Ok (Link.url_hash l2).
Proof.
  split; [reflexivity|]. split; [discriminate|].
  split; [reflexivity|]. split; [reflexivity|]. split; [reflexivity|].
  exact (enqueue_link_twice_inserts_twice offline_env empty_db 7
           (lit "http://a.com/") [] 1%Z 2%Z (lit "http://a.com/")
           eq_refl ltac:(discriminate) eq_refl eq_refl eq_refl).
Defined.

(** ** The claim of the worker loop *)

Lemma oldest_none (rows : list Link.t) : oldest rows = None -> rows = [].
Proof.
  destruct rows as [|r rest]; [reflexivity|]. cbn.
  destruct (oldest rest) as [m|]; [|discriminate].
  destruct (Link.created_at m <? Link.created_at r)%Z; discriminate.
Qed.

Lemma oldest_spec (rows : list Link.t) (l : Link.t) :
  oldest rows = Some l ->
  exists pre post,
    rows = pre ++ l :: post
    /\ (forall x, In x pre -> (Link.created_at l < Link.created_at x)%Z)
    /\ (forall x, In x post -> (Link.created_at l <= Link.created_at x)%Z).
Proof.
  revert l. induction rows as [|r rest IH]; intros l; cbn; [discriminate|].
  destruct (oldest rest) as [m|] eqn:Hm.
  - destruct (IH m eq_refl) as (pre & post & -> & Hpre & Hpost).
    destruct (Z.ltb_spec (Link.created_at m) (Link.created_at r)); intros [= <-].
    + exists (r :: pre), post. repeat split; auto.
      intros x [<-|Hx]; auto.
    + exists [], (pre ++ m :: post). repeat split; [intros x []|].
      intros x Hx. apply in_app_or in Hx. destruct Hx as [Hx | [<- | Hx]].
      * specialize (Hpre x Hx). lia.
      * lia.
      * specialize (Hpost x Hx). lia.
  - intros [= <-]. apply oldest_none in Hm. subst rest.
    exists [], []. repeat split; intros x [].
Qed.

Lemma filter_split {A} (f : A -> bool) (xs a b : list A) (l : A) :
  filter f xs = a ++ l :: b ->
  exists pre post,
    xs = pre ++ l :: post /\ filter f pre = a /\ filter f post = b /\ f l = true.
Proof.
  revert a. induction xs as [|x xs IH]; intros a; cbn.
  - destruct a; discriminate.
  - destruct (f x) eqn:Hfx.
    + destruct a as [|a0 a]; cbn; intros [= -> Hrest].
      * exists [], xs. repeat split; auto.
      * destruct (IH a Hrest) as (pre & post & -> & Hp & Hq & Hl).
        exists (a0 :: pre), post. cbn. rewrite Hfx, Hp. repeat split; auto.
    + intros H. destruct (IH a H) as (pre & post & -> & Hp & Hq & Hl).
      exists (x :: pre), post. cbn. rewrite Hfx. repeat split; auto.
Qed.

Lemma status_eqb_eq (a b : status) : status_eqb a b = true <-> a = b.
Proof. destruct a, b; cbn; split; congruence. Qed.

Lemma select_next_queued_spec (db : DB) (l : Link.t) :
  select_next_queued db = Some l ->
  exists pre post,
    links db = pre ++ l :: post
    /\ Link.status l = queued
    /\ (forall x, In x pre -> Link.status x = queued ->
                  (Link.created_at l < Link.created_at x)%Z)
    /\ (forall x, In x post -> Link.status x = queued ->
                  (Link.created_at l <= Link.created_at x)%Z).
Proof.
  unfold select_next_queued. intros H.
  destruct (oldest_spec _ _ H) as (a & b & Hf & Ha & Hb).
  destruct (filter_split _ _ _ _ _ Hf) as (pre & post & Hl & Hp & Hq & Hs).
  exists pre, post. apply status_eqb_eq in Hs. repeat split; auto.
  - intros x Hx Hst. apply Ha. rewrite <- Hp. apply filter_In. split; auto.
    apply status_eqb_eq; auto.
  - intros x Hx Hst. apply Hb. rewrite <- Hq. apply filter_In. split; auto.
    apply status_eqb_eq; auto.
Qed.

Lemma select_next_queued_none (db : DB) :
  select_next_queued db = None <->
  (forall l, In l (links db) -> Link.status l <> queued).
Proof.
  unfold select_next_queued. split.
  - intros H l Hin Hst. apply oldest_none in H.
    assert (Hf : In l (filter (fun l => status_eqb (Link.status l) queued) (links db))).
    { apply filter_In. split; auto. apply status_eqb_eq; auto. }
    rewrite H in Hf. destruct Hf.
  - intros H.
    destruct (oldest _) as [l|] eqn:Ho; [|reflexivity].
    destruct (oldest_spec _ _ Ho) as (a & b & Hf & _).
    assert (Hin : In l (filter (fun l => status_eqb (Link.status l) queued) (links db))).
    { rewrite Hf. apply in_or_app. right. left. reflexivity. }
    apply filter_In in Hin. destruct Hin as [Hin Hst].
    apply status_eqb_eq in Hst. destruct (H l Hin Hst).
Qed.

(** Replacing the row of a primary key that occurs once. *)
Lemma put_row_unique (pre post : list Link.t) (l l' : Link.t) :
  NoDup (map Link.id (pre ++ l :: post)) ->
  Link.id l' = Link.id l ->
  map (fun r => if Link.id r =? Link.id l' then l' else r) (pre ++ l :: post)
  = pre ++ l' :: post.
Proof.
  intros Hnd Hid. rewrite Hid.
  rewrite map_app in Hnd. cbn in Hnd. apply NoDup_remove_2 in Hnd.
  assert (Hother : forall xs, (forall x, In x xs -> Link.id x <> Link.id l) ->
            map (fun r => if Link.id r =? Link.id l then l' else r) xs = xs).
  { induction xs as [|x xs IH]; cbn; intros Hx; [reflexivity|].
    destruct (N.eqb_spec (Link.id x) (Link.id l)) as [e|_].
    - destruct (Hx x (or_introl eq_refl) e).
    - rewrite IH; auto. }
  rewrite map_app. cbn. rewrite N.eqb_refl.
  rewrite !Hother; auto.
  - intros x Hx e. apply Hnd. apply in_or_app. right. rewrite <- e. apply in_map. exact Hx.
  - intros x Hx e. apply Hnd. apply in_or_app. left. rewrite <- e. apply in_map. exact Hx.
Qed.

Lemma claim_next_returns_queued (db : DB) (now : Z) (wire : list str)
    (p : Proc) (l : Link.t) :
  claim_next now {| session := SessionLocal db; sent := wire |} = (p, Ok (Some l)) ->
  exists l0, In l0 (links db) /\ Link.status l0 = queued /\ Link.id l = Link.id l0.
Proof.
  unfold claim_next.
  cbv [mbind query on_session put_link modify commit ret
       SessionLocal session view store tx sent].
  destruct (select_next_queued db) as [l0|] eqn:Hsel; [|discriminate].
  destruct (select_next_queued_spec _ _ Hsel) as (pre & post & Hl & Hst & _).
  destruct (constraints_ok _); [|discriminate].
  intros [= _ <-]. exists l0. repeat split; auto.
  rewrite Hl. apply in_or_app. right. left. reflexivity.
Qed.

(** C4.  A claim takes the oldest queued row, the first in table order
    among rows of equal creation time, sets that row and no other to
    [processing] and returns it; with no queued row it returns nothing
    and changes nothing; and a claim never returns a row whose status
    is not [queued], so the row just claimed is not returned again
    until its status is set back. *)
Theorem claim_next_takes_oldest_queued_once (db : DB) (now : Z) (wire : list str) :
  constraints_ok db = true ->
  NoDup (map Link.id (links db)) ->
  let start := {| session := SessionLocal db; sent := wire |} in
  ((forall l, In l (links db) -> Link.status l <> queued) ->
   claim_next now start = (start, Ok None))
  /\ ((exists l, In l (links db) /\ Link.status l = queued) ->
      exists pre l post,
        links db = pre ++ l :: post
        /\ Link.status l = queued
        /\ (forall x, In x pre -> Link.status x = queued ->
                      (Link.created_at l < Link.created_at x)%Z)
        /\ (forall x, In x post -> Link.status x = queued ->
                      (Link.created_at l <= Link.created_at x)%Z)
        /\ let l' := set_status l processing now in
           let db' := {| links := pre ++ l' :: post; link_tags := link_tags db |} in
           claim_next now start
           = ({| session := SessionLocal db'; sent := wire |}, Ok (Some l'))
           /\ forall now2 p2 l2,
                claim_next now2 {| session := SessionLocal db'; sent := wire |}
                = (p2, Ok (Some l2)) ->
                Link.id l2 <> Link.id l)
  /\ (forall db2 now2 wire2 p2 l2 i,
        (forall x, In x (links db2) -> Link.id x = i -> Link.status x <> queued) ->
        claim_next now2 {| session := SessionLocal db2; sent := wire2 |}
        = (p2, Ok (Some l2)) ->
        Link.id l2 <> i).
Proof.
  intros Hok Hnd start.
  assert (Hgen : forall db2 now2 wire2 p2 l2 i,
        (forall x, In x (links db2) -> Link.id x = i -> Link.status x <> queued) ->
        claim_next now2 {| session := SessionLocal db2; sent := wire2 |}
        = (p2, Ok (Some l2)) ->
        Link.id l2 <> i).
  { intros db2 now2 wire2 p2 l2 i Hnq Hc Hid.
    destruct (claim_next_returns_queued _ _ _ _ _ Hc) as (l0 & Hin & Hst & Hid0).
    apply (Hnq l0 Hin); congruence. }
  split; [|split; [|exact Hgen]].
  - intros Hnone. apply select_next_queued_none in Hnone.
    unfold claim_next, start.
    cbv [mbind query on_session ret SessionLocal session view store tx sent].
    rewrite Hnone. reflexivity.
  - intros (lq & Hin & Hq).
    destruct (select_next_queued db) as [l|] eqn:Hsel.
    2:{ destruct (proj1 (select_next_queued_none db) Hsel lq Hin Hq). }
    destruct (select_next_queued_spec _ _ Hsel) as (pre & post & Hl & Hst & Hpre & Hpost).
    exists pre, l, post. repeat split; auto.
    + unfold claim_next, start.
      cbv [mbind query on_session put_link modify commit ret
           SessionLocal session view store tx sent].
      rewrite Hsel.
      match goal with
      | |- context [constraints_ok ?d] =>
          change (constraints_ok d) with (constraints_ok db)
      end.
      rewrite Hok. rewrite Hl.
      rewrite put_row_unique; [reflexivity | rewrite <- Hl; exact Hnd | reflexivity].
    + intros now2 p2 l2 Hc.
      apply (Hgen _ _ _ _ _ (Link.id l)) in Hc; auto.
      cbn [links]. intros x Hx Hid Hxq.
      apply in_app_or in Hx. destruct Hx as [Hx | [<- | Hx]].
      * rewrite Hl, map_app in Hnd. cbn in Hnd. apply NoDup_remove_2 in Hnd.
        apply Hnd. apply in_or_app. left. rewrite <- Hid. apply in_map. exact Hx.
      * discriminate.
      * rewrite Hl, map_app in Hnd. cbn in Hnd. apply NoDup_remove_2 in Hnd.
        apply Hnd. apply in_or_app. right. rewrite <- Hid. apply in_map. exact Hx.
Qed.

Lemma claim_next_takes_oldest_queued_once_witness :
  constraints_ok queue_db = true
  /\ NoDup (map Link.id (links queue_db))
  /\ exists pre l post,
       links queue_db = pre ++ l :: post
       /\ Link.status l = queued
       /\ (forall x, In x pre -> Link.status x = queued ->
                     (Link.created_at l < Link.created_at x)%Z)
       /\ (forall x, In x post -> Link.status x = queued ->
                     (Link.created_at l <= Link.created_at x)%Z)
       /\ let l' := set_status l processing 9 in
          let db' := {| links := pre ++ l' :: post; link_tags := link_tags queue_db |} in
          claim_next 9 {| session := SessionLocal queue_db; sent := [] |}
          = ({| session := SessionLocal db'; sent := [] |}, Ok (Some l'))
          /\ forall now2 p2 l2,
               claim_next now2 {| session := SessionLocal db'; sent := [] |}
               = (p2, Ok (Some l2)) ->
               Link.id l2 <> Link.id l.
Proof.
  assert (Hnd : NoDup (map Link.id (links queue_db))).
  { cbn. repeat constructor; cbn; intuition discriminate. }
  split; [reflexivity|]. split; [exact Hnd|].
  apply (proj1 (proj2 (claim_next_takes_oldest_queued_once queue_db 9 [] eq_refl Hnd))).
  exists (queued_link 2 1 (lit "http://b.com/") [] 5).
  split; [cbn; auto | reflexivity].
Defined.

(** ** The upsert of system tags *)

Lemma origin_eqb_eq (a b : origin) : origin_eqb a b = true <-> a = b.
Proof. destruct a, b; cbn; split; congruence. Qed.

Lemma uq_link_tag_name_role_eq (a b : LinkTag.t) :
  uq_link_tag_name_role a b = true <->
  LinkTag.link_id a = LinkTag.link_id b
  /\ LinkTag.name a = LinkTag.name b
  /\ LinkTag.submitted_by a = LinkTag.submitted_by b.
Proof.
  unfold uq_link_tag_name_role.
  rewrite !andb_true_iff, N.eqb_eq, str_eqb_eq, origin_eqb_eq. tauto.
Qed.

Lemma unique_ok_app {A} (same : A -> A -> bool) (a b : list A) :
  unique_ok same (a ++ b)
  = unique_ok same a && unique_ok same b
    && forallb (fun x => negb (existsb (same x) b)) a.
Proof.
  induction a as [|x a IH]; cbn.
  - rewrite andb_true_r. reflexivity.
  - rewrite existsb_app, IH, negb_orb.
    destruct (existsb (same x) a), (existsb (same x) b),
             (unique_ok same a), (unique_ok same b); reflexivity.
Qed.

Lemma unique_ok_of_NoDup {A K} (same : A -> A -> bool) (key : A -> K) (rows : list A) :
  (forall a b, same a b = true -> key a = key b) ->
  NoDup (map key rows) ->
  unique_ok same rows = true.
Proof.
  intros Hkey. induction rows as [|r rows IH]; cbn; [reflexivity|].
  intros Hnd. inversion Hnd as [|? ? Hnotin Hnd']; subst.
  rewrite IH by assumption. rewrite andb_true_r. apply negb_true_iff.
  destruct (existsb (same r) rows) eqn:Hex; [|reflexivity].
  apply existsb_exists in Hex. destruct Hex as (y & Hy & Hs).
  exfalso. apply Hnotin. rewrite (Hkey _ _ Hs). apply in_map. exact Hy.
Qed.

Lemma added_rows_names (tags : list LinkTag.t) (link_id : N) (names : list str) (now : Z) :
  map LinkTag.name (added_rows tags link_id names now) = names.
Proof.
  revert tags. induction names as [|n names IH]; intros tags; cbn; [reflexivity|].
  rewrite IH. reflexivity.
Qed.

Lemma added_rows_spec (tags : list LinkTag.t) (link_id : N) (names : list str) (now : Z)
    (t : LinkTag.t) :
  In t (added_rows tags link_id names now) ->
  LinkTag.link_id t = link_id /\ LinkTag.submitted_by t = system
  /\ In (LinkTag.name t) names.
Proof.
  revert tags. induction names as [|n names IH]; intros tags; cbn; [tauto|].
  intros [<- | Hin]; cbn; [auto|].
  destruct (IH _ Hin) as (? & ? & ?). auto.
Qed.

(** The loop of [db.add] appends [added_rows] to the session's tags. *)
Lemma for_each_add_link_tag (link_id : N) (names : list str) (now : Z) (p : Proc) :
  for_each names (fun name => add_link_tag link_id name system now) p
  = ({| session :=
          {| store := store (session p);
             view := {| links := links (view (session p));
                        link_tags := link_tags (view (session p))
                          ++ added_rows (link_tags (view (session p)))
                                        link_id names now |};
             tx := tx (session p) |};
        sent := sent p |}, Ok tt).
Proof.
  revert p. induction names as [|n names IH]; intros [[st [ls ts] t] w].
  - cbn. rewrite app_nil_r. reflexivity.
  - cbn [for_each added_rows]. unfold mbind at 1.
    unfold add_link_tag at 1. cbv [modify on_session session view store tx sent].
    cbn [links link_tags]. rewrite IH. cbn [session store view tx sent links link_tags].
    rewrite <- app_assoc. reflexivity.
Qed.

Lemma existing_sys_spec (db : DB) (link_id : N) (n : str) :
  In n (existing_sys db link_id) <->
  exists t, In t (link_tags db) /\ LinkTag.link_id t = link_id
            /\ LinkTag.submitted_by t = system /\ LinkTag.name t = n.
Proof.
  unfold existing_sys. rewrite in_map_iff. split.
  - intros (t & Hn & Hin). apply filter_In in Hin. destruct Hin as [Hin Ho].
    apply filter_In in Hin. destruct Hin as [Hin Hl].
    exists t. apply N.eqb_eq in Hl. apply origin_eqb_eq in Ho. auto.
  - intros (t & Hin & Hl & Ho & Hn). exists t. split; [exact Hn|].
    apply filter_In. split; [apply filter_In; split; [exact Hin | apply N.eqb_eq; exact Hl]|].
    apply origin_eqb_eq. exact Ho.
Qed.

Lemma to_add_spec (db : DB) (link_id : N) (sys_tags : list str) (n : str) :
  In n (to_add db link_id sys_tags) <->
  In n sys_tags /\ ~ In n (existing_sys db link_id).
Proof.
  unfold to_add. rewrite filter_In, negb_true_iff. split; intros [H1 H2]; split; auto.
  - intros Hin. assert (existsb (str_eqb n) (existing_sys db link_id) = true).
    { apply existsb_exists. exists n. split; [exact Hin | apply str_eqb_refl]. }
    congruence.
  - destruct (existsb _ _) eqn:Hex; [|reflexivity].
    apply existsb_exists in Hex. destruct Hex as (y & Hy & He).
    apply str_eqb_eq in He. subst y. contradiction.
Qed.

Lemma run_upsert_system_tags_eq (db : DB) (link_id : N) (sys_tags : list str) (now : Z) :
  let added := added_rows (link_tags db) link_id (to_add db link_id sys_tags) now in
  run_upsert_system_tags db link_id sys_tags now
  = if unique_ok uq_link_tag_name_role (link_tags db ++ added)
    then ({| links := links db; link_tags := link_tags db ++ added |}, Ok tt)
    else (db, Raise IntegrityError).
Proof.
  cbv zeta. unfold run_upsert_system_tags, upsert_system_tags.
  unfold mbind at 1. unfold mbind at 1.
  cbv [query on_session SessionLocal session view store tx sent].
  fold (existing_sys db link_id). fold (to_add db link_id sys_tags).
  rewrite for_each_add_link_tag.
  cbv [commit on_session session view store tx sent constraints_ok
       Link_table_args LinkTag_table_args forallb links link_tags].
  cbn [andb].
  destruct db as [ls ts]. cbn [links link_tags].
  rewrite andb_true_r.
  destruct (unique_ok _ _); reflexivity.
Qed.

Lemma added_rows_unique (db : DB) (link_id : N) (sys_tags : list str) (now : Z) :
  constraints_ok db = true ->
  NoDup sys_tags ->
  unique_ok uq_link_tag_name_role
    (link_tags db ++ added_rows (link_tags db) link_id (to_add db link_id sys_tags) now)
  = true.
Proof.
  intros Hok Hnd.
  rewrite unique_ok_app. rewrite !andb_true_iff. repeat split.
  - unfold constraints_ok in Hok. cbn in Hok. rewrite andb_true_r in Hok. exact Hok.
  - apply (unique_ok_of_NoDup _ LinkTag.name).
    + intros a b H. apply uq_link_tag_name_role_eq in H. tauto.
    + rewrite added_rows_names. apply NoDup_filter. exact Hnd.
  - apply forallb_forall. intros x Hx. apply negb_true_iff.
    destruct (existsb _ _) eqn:Hex; [|reflexivity].
    apply existsb_exists in Hex. destruct Hex as (y & Hy & Hs).
    apply uq_link_tag_name_role_eq in Hs. destruct Hs as (Hl & Hn & Ho).
    destruct (added_rows_spec _ _ _ _ _ Hy) as (Hyl & Hyo & Hyn).
    apply to_add_spec in Hyn. destruct Hyn as [_ Hnot].
    exfalso. apply Hnot. apply existing_sys_spec.
    exists x. repeat split; congruence.
Qed.

(** C7.  The upsert of system tags keeps every row of the table, adds
    only system rows of this link whose names are proposed and are not
    yet among the link's system tags (all of them when the proposal has
    no repetition), and leaves no two rows of one (link, name, origin);
    so a second call, whatever it proposes, leaves none either. *)
Theorem upsert_system_tags_additive_unique
    (db : DB) (link_id : N) (names : list str) (now : Z) :
  constraints_ok db = true ->
  let db' := fst (run_upsert_system_tags db link_id names now) in
  links db' = links db
  /\ (exists added,
        link_tags db' = link_tags db ++ added
        /\ (forall t, In t added ->
              LinkTag.link_id t = link_id
              /\ LinkTag.submitted_by t = system
              /\ In (LinkTag.name t) names
              /\ ~ In (LinkTag.name t) (existing_sys db link_id))
        /\ (NoDup names ->
              snd (run_upsert_system_tags db link_id names now) = Ok tt
              /\ map LinkTag.name added
                 = filter (fun n => negb (existsb (str_eqb n) (existing_sys db link_id)))
                          names))
  /\ unique_ok uq_link_tag_name_role (link_tags db') = true
  /\ forall names2 now2,
       unique_ok uq_link_tag_name_role
         (link_tags (fst (run_upsert_system_tags db' link_id names2 now2))) = true.
Proof.
  intros Hok.
  assert (Hcore : forall d ns t0, constraints_ok d = true ->
            constraints_ok (fst (run_upsert_system_tags d link_id ns t0)) = true).
  { intros d ns t0 Hd. rewrite run_upsert_system_tags_eq.
    destruct (unique_ok _ _) eqn:Hu; cbn [fst]; [|exact Hd].
    unfold constraints_ok. cbn. rewrite Hu. reflexivity. }
  assert (Huq : forall d, constraints_ok d = true ->
            unique_ok uq_link_tag_name_role (link_tags d) = true).
  { intros d Hd. unfold constraints_ok in Hd. cbn in Hd.
    rewrite andb_true_r in Hd. exact Hd. }
  cbv zeta.
  split; [|split; [|split]].
  - rewrite run_upsert_system_tags_eq. destruct (unique_ok _ _); reflexivity.
  - rewrite run_upsert_system_tags_eq.
    destruct (unique_ok _ _) eqn:Hu; cbn [fst snd link_tags].
    + eexists. split; [reflexivity|]. split.
      * intros t Ht. destruct (added_rows_spec _ _ _ _ _ Ht) as (Hl & Ho & Hn).
        apply to_add_spec in Hn. tauto.
      * intros _. split; [reflexivity|]. apply added_rows_names.
    + exists []. split; [rewrite app_nil_r; reflexivity|]. split; [intros t []|].
      intros Hnd. rewrite added_rows_unique in Hu by assumption. discriminate.
  - apply Huq, Hcore, Hok.
  - intros names2 now2. apply Huq, Hcore, Hcore, Hok.
Qed.

Lemma upsert_system_tags_additive_unique_witness :
  constraints_ok tagged_db = true
  /\ map LinkTag.name
       (link_tags (fst (run_upsert_system_tags tagged_db 1
                          [lit "ai"; lit "python"] 7)))
     = [lit "ai"; lit "python"]
  /\ unique_ok uq_link_tag_name_role
       (link_tags (fst (run_upsert_system_tags tagged_db 1
                          [lit "ai"; lit "python"] 7))) = true.
Proof.
  split; [reflexivity|]. split; [reflexivity|].
  exact (proj1 (proj2 (proj2 (upsert_system_tags_additive_unique tagged_db 1
                                [lit "ai"; lit "python"] 7 eq_refl)))).
Defined.

(** ** The claim and the fallback of the enrichment, for the worker *)


Lemma find_row_unique (pre post : list Link.t) (l : Link.t) :
  NoDup (map Link.id (pre ++ l :: post)) ->
  find (fun r => Link.id r =? Link.id l) (pre ++ l :: post) = Some l.
Proof.
  intros Hnd. rewrite map_app in Hnd. cbn in Hnd. apply NoDup_remove_2 in Hnd.
  induction pre as [|x pre IH]; cbn.
  - rewrite N.eqb_refl. reflexivity.
  - destruct (N.eqb_spec (Link.id x) (Link.id l)) as [e|_].
    + exfalso. apply Hnd. cbn. left. exact e.
    + apply IH. intros Hin. apply Hnd. cbn. right. exact Hin.
Qed.

Lemma claim_next_claims (db : DB) (now : Z) (wire : list str) (l : Link.t) :
  constraints_ok db = true ->
  NoDup (map Link.id (links db)) ->
  select_next_queued db = Some l ->
  exists pre post,
    links db = pre ++ l :: post
    /\ claim_next now {| session := SessionLocal db; sent := wire |}
       = ({| session := SessionLocal
               {| links := pre ++ set_status l processing now :: post;
                  link_tags := link_tags db |};
             sent := wire |},
          Ok (Some (set_status l processing now))).
Proof.
  intros Hok Hnd Hsel.
  destruct (select_next_queued_spec _ _ Hsel) as (pre & post & Hl & _).
  exists pre, post. split; [exact Hl|].
  unfold claim_next.
  cbv [mbind query on_session put_link modify commit ret
       SessionLocal session view store tx sent].
  rewrite Hsel.
  match goal with
  | |- context [constraints_ok ?d] =>
      change (constraints_ok d) with (constraints_ok db)
  end.
  rewrite Hok. rewrite Hl.
  rewrite put_row_unique; [reflexivity | rewrite <- Hl; exact Hnd | reflexivity].
Qed.

Lemma str_or_nil_r (s : str) : str_or s [] = s.
Proof. destruct s; reflexivity. Qed.

(** ** Searching and splitting *)

Lemma has_app (c : char) (a b : str) : has c (a ++ b) = has c a || has c b.
Proof. unfold has. apply existsb_app. Qed.

Lemma has_false_forallb (c : char) (s : str) :
  has c s = false <-> forallb (fun x => negb (x =? c)) s = true.
Proof.
  unfold has. induction s as [|x s IH]; cbn; [tauto|].
  rewrite orb_false_iff, andb_true_iff, IH, negb_true_iff, (N.eqb_sym c x). tauto.
Qed.

Lemma has_false_of_forallb (p : char -> bool) (c : char) (s : str) :
  forallb p s = true -> p c = false -> has c s = false.
Proof.
  intros Hall Hc. unfold has. induction s as [|x s IH]; cbn; [reflexivity|].
  cbn in Hall. apply andb_true_iff in Hall. destruct Hall as [Hx Hs].
  rewrite IH by assumption. rewrite orb_false_r.
  destruct (N.eqb_spec c x) as [->|]; [congruence | reflexivity].
Qed.

Lemma forallb_impl (p q : char -> bool) (s : str) :
  (forall c, p c = true -> q c = true) -> forallb p s = true -> forallb q s = true.
Proof.
  intros Hpq. induction s as [|x s IH]; cbn; [reflexivity|].
  rewrite !andb_true_iff. intros [Hx Hs]. auto.
Qed.

Lemma dropWhile_all_false (p : char -> bool) (s : str) :
  forallb (fun c => negb (p c)) s = true -> dropWhile p s = s.
Proof.
  destruct s as [|x s]; cbn; [reflexivity|].
  rewrite andb_true_iff, negb_true_iff. intros [-> _]. reflexivity.
Qed.

Lemma strip_by_all_false (p : char -> bool) (s : str) :
  forallb (fun c => negb (p c)) s = true -> strip_by p s = s.
Proof.
  intros Hall. unfold strip_by, lstrip_by, rstrip_by.
  rewrite (dropWhile_all_false p s Hall).
  rewrite dropWhile_all_false; [apply rev_involutive|].
  apply forallb_forall. intros x Hx. apply in_rev in Hx.
  exact (proj1 (forallb_forall _ _) Hall x Hx).
Qed.

Lemma remove_char_absent (c : char) (s : str) :
  has c s = false -> remove_char c s = s.
Proof.
  rewrite has_false_forallb. unfold remove_char.
  induction s as [|x s IH]; cbn; [reflexivity|].
  rewrite andb_true_iff. intros [-> Hs]. rewrite IH by assumption. reflexivity.
Qed.

Lemma find_char_absent (c : char) (s : str) : has c s = false -> find_char c s = None.
Proof.
  unfold has. induction s as [|x s IH]; cbn; [reflexivity|].
  rewrite orb_false_iff, (N.eqb_sym c x). intros [-> Hs].
  rewrite IH by assumption. reflexivity.
Qed.

Lemma find_char_app_absent (c : char) (a b : str) :
  has c a = false ->
  find_char c (a ++ b) = option_map (Nat.add (List.length a)) (find_char c b).
Proof.
  unfold has. induction a as [|x a IH]; cbn.
  - intros _. destruct (find_char c b); reflexivity.
  - rewrite orb_false_iff, (N.eqb_sym c x). intros [-> Ha].
    rewrite IH by assumption. destruct (find_char c b); reflexivity.
Qed.

Lemma find_char_here (c : char) (a b : str) :
  has c a = false -> find_char c (a ++ c :: b) = Some (List.length a).
Proof.
  intros Ha. rewrite find_char_app_absent by assumption. cbn.
  rewrite N.eqb_refl. cbn. rewrite Nat.add_0_r. reflexivity.
Qed.

Lemma split_first_absent (c : char) (s : str) : has c s = false -> split_first c s = None.
Proof.
  unfold has. induction s as [|x s IH]; cbn; [reflexivity|].
  rewrite orb_false_iff, (N.eqb_sym c x). intros [-> Hs].
  rewrite IH by assumption. reflexivity.
Qed.

Lemma split_first_here (c : char) (a b : str) :
  has c a = false -> split_first c (a ++ c :: b) = Some (a, b).
Proof.
  unfold has. induction a as [|x a IH]; cbn.
  - intros _. rewrite N.eqb_refl. reflexivity.
  - rewrite orb_false_iff, (N.eqb_sym c x). intros [-> Ha].
    rewrite IH by assumption. reflexivity.
Qed.

Lemma has_rev (c : char) (s : str) : has c (rev s) = has c s.
Proof.
  induction s as [|x s IH]; [reflexivity|].
  cbn [rev]. rewrite has_app, IH. unfold has. cbn [existsb].
  rewrite orb_false_r. apply orb_comm.
Qed.

Lemma rsplit_last_absent (c : char) (s : str) : has c s = false -> rsplit_last c s = None.
Proof.
  intros H. unfold rsplit_last. rewrite split_first_absent; [reflexivity|].
  rewrite has_rev. exact H.
Qed.

Lemma rsplit_last_here (c : char) (a b : str) :
  has c b = false -> rsplit_last c (a ++ c :: b) = Some (a, b).
Proof.
  intros H. unfold rsplit_last. rewrite rev_app_distr. cbn [rev].
  rewrite <- app_assoc. cbn [app].
  rewrite split_first_here by (rewrite has_rev; exact H).
  rewrite !rev_involutive. reflexivity.
Qed.

Lemma lower_ascii (E : Env) (s : str) :
  forallb isascii s = true -> lower E s = map lower_char s.
Proof. intros H. unfold lower. rewrite H. reflexivity. Qed.

(** Where the earliest of three optional positions lies, as
    [_splitnetloc] computes it. *)
Lemma earliest_delimiter (n total : nat) (a b c : option nat) :
  (n <= total)%nat ->
  (forall i, a = Some i \/ b = Some i \/ c = Some i -> n <= i)%nat ->
  (n < total -> a = Some n \/ b = Some n \/ c = Some n)%nat ->
  fold_left
    (fun delim w => match w with Some wdelim => Nat.min delim wdelim | None => delim end)
    [a; b; c] total = n.
Proof.
  intros Hle Hge Hhit. cbn [fold_left].
  assert (Ha := Hge). assert (Hb := Hge). assert (Hc := Hge).
  destruct a as [i|], b as [j|], c as [k|];
    try specialize (Ha i (or_introl eq_refl));
    try specialize (Hb j (or_intror (or_introl eq_refl)));
    try specialize (Hc k (or_intror (or_intror eq_refl)));
    destruct (Nat.eq_dec n total) as [->|Hne];
    try (assert (Hlt : (n < total)%nat) by lia;
         destruct (Hhit Hlt) as [[= <-] | [[= <-] | [= <-]]]);
    try discriminate; lia.
Qed.

Lemma fold_left_map_delims (url : str) (start total : nat) (cs : list char) :
  fold_left
    (fun delim c =>
       match find_from c url start with
       | Some wdelim => Nat.min delim wdelim
       | None => delim
       end) cs total
  = fold_left
      (fun delim w => match w with Some wdelim => Nat.min delim wdelim | None => delim end)
      (map (fun c => find_from c url start) cs) total.
Proof.
  revert total. induction cs as [|c cs IH]; intros total; cbn; [reflexivity|].
  apply IH.
Qed.

(** The netloc ends at the first of [/], [?], [#]. *)
Lemma _splitnetloc_at (netloc rest : str) :
  has 47 netloc = false -> has 63 netloc = false -> has 35 netloc = false ->
  match rest with
  | [] => True
  | c :: _ => c = 47 \/ c = 63 \/ c = 35
  end ->
  UrlParse._splitnetloc (lit "//" ++ netloc ++ rest) 2 = (netloc, rest).
Proof.
  intros H1 H2 H3 Hrest.
  unfold UrlParse._splitnetloc.
  rewrite fold_left_map_delims.
  change (lit "/?#") with [47; 63; 35]. cbn [map].
  unfold find_from. change (skipn 2 (lit "//" ++ netloc ++ rest)) with (netloc ++ rest).
  rewrite !find_char_app_absent by assumption.
  assert (Hlen : List.length (lit "//" ++ netloc ++ rest)
                 = (2 + List.length netloc + List.length rest)%nat).
  { change (lit "//" ++ netloc ++ rest) with (47 :: 47 :: netloc ++ rest).
    cbn [List.length]. rewrite length_app. lia. }
  rewrite Hlen.
  rewrite (earliest_delimiter (2 + List.length netloc)).
  - unfold slice.
    change (skipn 2 (lit "//" ++ netloc ++ rest)) with (netloc ++ rest).
    replace (2 + List.length netloc - 2)%nat with (List.length netloc + 0)%nat by lia.
    rewrite firstn_app_2. cbn [firstn]. rewrite app_nil_r.
    change (lit "//" ++ netloc ++ rest) with (47 :: 47 :: netloc ++ rest).
    cbn [Nat.add skipn].
    rewrite skipn_app, skipn_all, Nat.sub_diag. reflexivity.
  - lia.
  - intros i Hi.
    destruct (find_char 47 rest), (find_char 63 rest), (find_char 35 rest);
      cbn [option_map] in Hi; destruct Hi as [Hi | [Hi | Hi]];
      try discriminate; injection Hi as <-; lia.
  - intros Hlt. destruct rest as [|c rest']; [cbn in Hlt; lia|].
    cbn [find_char].
    destruct Hrest as [-> | [-> | ->]]; cbn [N.eqb Pos.eqb option_map].
    + left. f_equal. lia.
    + right. left. f_equal. lia.
    + right. right. f_equal. lia.
Qed.

(** ** Character classes of a well-formed URL *)

Ltac char_cases :=
  repeat match goal with
         | H : _ && _ = true |- _ => apply andb_true_iff in H; destruct H
         | H : negb _ = true |- _ => apply negb_true_iff in H
         | H : _ || _ = false |- _ => apply orb_false_iff in H; destruct H
         | H : (_ <=? _) = true |- _ => apply N.leb_le in H
         | H : (_ =? _) = false |- _ => apply N.eqb_neq in H
         | H : (_ =? _) = true |- _ => apply N.eqb_eq in H
         end.

Ltac char_goal :=
  repeat match goal with
         | |- context [?a <=? ?b] => destruct (N.leb_spec a b)
         | |- context [?a <? ?b] => destruct (N.ltb_spec a b)
         | |- context [?a =? ?b] => destruct (N.eqb_spec a b)
         end;
  cbn; try reflexivity; try lia.

Lemma url_char_range (c : char) : url_char c = true <-> 33 <= c <= 126.
Proof.
  unfold url_char. rewrite andb_true_iff, !N.leb_le. tauto.
Qed.

(** A property of URL characters holds when it holds of the code
    points below 127. *)
Lemma url_char_check (P : char -> bool) :
  forallb (fun c => implb (url_char c) (P c)) (map N.of_nat (seq 0 127)) = true ->
  forall c, url_char c = true -> P c = true.
Proof.
  intros Hall c Hc.
  assert (Hin : In c (map N.of_nat (seq 0 127))).
  { apply url_char_range in Hc. apply in_map_iff. exists (N.to_nat c).
    split; [apply N2Nat.id | apply in_seq; lia]. }
  pose proof (proj1 (forallb_forall _ _) Hall c Hin) as H.
  cbv beta in H. rewrite Hc in H. exact H.
Qed.

(** A property of scheme characters holds when it holds of each. *)
Lemma scheme_char_check (P : char -> bool) :
  forallb P UrlParse.scheme_chars = true ->
  forall c, has c UrlParse.scheme_chars = true -> P c = true.
Proof.
  intros Hall c Hc. apply existsb_exists in Hc. destruct Hc as (x & Hin & He).
  apply N.eqb_eq in He. subst x.
  exact (proj1 (forallb_forall _ _) Hall c Hin).
Qed.

Lemma url_char_not_space (c : char) : url_char c = true -> isspace c = false.
Proof.
  intros H. apply negb_true_iff. revert c H.
  apply (url_char_check (fun c => negb (isspace c))). vm_compute. reflexivity.
Qed.

Lemma url_char_not_c0 (c : char) :
  url_char c = true -> UrlParse.c0_control_or_space c = false.
Proof.
  intros H. apply negb_true_iff. revert c H.
  apply (url_char_check (fun c => negb (UrlParse.c0_control_or_space c))).
  vm_compute. reflexivity.
Qed.

Lemma url_char_ascii (c : char) : url_char c = true -> isascii c = true.
Proof. revert c. apply (url_char_check isascii). vm_compute. reflexivity. Qed.

Lemma scheme_char_url_char (c : char) :
  has c UrlParse.scheme_chars = true -> url_char c = true.
Proof. revert c. apply (scheme_char_check url_char). vm_compute. reflexivity. Qed.


Lemma scheme_char_lower (c : char) :
  has c UrlParse.scheme_chars = true -> has (lower_char c) UrlParse.scheme_chars = true.
Proof.
  revert c.
  apply (scheme_char_check (fun c => has (lower_char c) UrlParse.scheme_chars)).
  vm_compute. reflexivity.
Qed.

Lemma lower_char_idem (c : char) : lower_char (lower_char c) = lower_char c.
Proof.
  unfold lower_char. destruct (isupper_ascii c) eqn:Hu; [|rewrite Hu; reflexivity].
  replace (isupper_ascii (c + 32)) with false; [reflexivity|].
  unfold isupper_ascii in *. char_cases. symmetry.
  apply andb_false_iff. right. apply N.leb_gt. lia.
Qed.

Lemma lower_char_alpha (c : char) :
  isalpha_ascii c = true -> isalpha_ascii (lower_char c) = true.
Proof.
  intros H.
  assert (Hu : url_char c = true).
  { unfold isalpha_ascii, isupper_ascii, islower_ascii in H. apply url_char_range.
    apply orb_true_iff in H. destruct H as [H|H]; char_cases; lia. }
  pose proof (url_char_check
                (fun c => implb (isalpha_ascii c) (isalpha_ascii (lower_char c)))
                ltac:(vm_compute; reflexivity) c Hu) as Hc.
  cbv beta in Hc. rewrite H in Hc. exact Hc.
Qed.


Lemma lower_host_char (c : char) : host_char c = true -> host_char (lower_char c) = true.
Proof.
  intros H.
  assert (Hu : url_char c = true).
  { unfold host_char in H. apply andb_true_iff in H. tauto. }
  pose proof (url_char_check
                (fun c => implb (host_char c) (host_char (lower_char c)))
                ltac:(vm_compute; reflexivity) c Hu) as Hc.
  cbv beta in Hc. rewrite H in Hc. exact Hc.
Qed.

Lemma host_char_spec (c : char) :
  host_char c = true <->
  url_char c = true /\ c <> 47 /\ c <> 63 /\ c <> 35 /\ c <> 58 /\ c <> 91 /\ c <> 93.
Proof.
  unfold host_char, has. change (lit "/?#:[]") with [47; 63; 35; 58; 91; 93].
  cbn [existsb]. rewrite andb_true_iff, negb_true_iff, !orb_false_iff, !N.eqb_neq.
  tauto.
Qed.

Lemma path_char_spec (c : char) :
  path_char c = true <-> url_char c = true /\ c <> 63 /\ c <> 35.
Proof.
  unfold path_char, has. change (lit "?#") with [63; 35].
  cbn [existsb]. rewrite andb_true_iff, negb_true_iff, !orb_false_iff, !N.eqb_neq.
  tauto.
Qed.

Lemma query_char_spec (c : char) :
  query_char c = true <-> url_char c = true /\ c <> 35.
Proof.
  unfold query_char, has. change (lit "#") with [35].
  cbn [existsb]. rewrite andb_true_iff, negb_true_iff, !orb_false_iff, !N.eqb_neq.
  tauto.
Qed.

Lemma digit_spec (c : char) : isdigit_ascii c = true <-> 48 <= c <= 57.
Proof. unfold isdigit_ascii. rewrite andb_true_iff, !N.leb_le. tauto. Qed.

(** A character that a class excludes does not occur in a string of
    that class. *)
Lemma absent_in_class (p : char -> bool) (c : char) (s : str) :
  forallb p s = true -> p c = false -> has c s = false.
Proof. apply has_false_of_forallb. Qed.


(** ** Parsing the text of a well-formed URL *)

Lemma has_app_false (c : char) (a b : str) :
  has c a = false -> has c b = false -> has c (a ++ b) = false.
Proof. intros Ha Hb. rewrite has_app, Ha, Hb. reflexivity. Qed.

Lemma has_cons_false (c x : char) (s : str) :
  (c =? x) = false -> has c s = false -> has c (x :: s) = false.
Proof. intros Hx Hs. unfold has in *. cbn. rewrite Hx, Hs. reflexivity. Qed.

Ltac absent :=
  lazymatch goal with
  | |- has _ (_ ++ _) = false => apply has_app_false; absent
  | |- has _ (_ :: _) = false => apply has_cons_false; [reflexivity | absent]
  | |- has _ [] = false => reflexivity
  | |- has _ (lit _) = false => reflexivity
  | |- has _ ?s = false =>
      first
        [ assumption
        | match goal with
          | H : forallb _ s = true |- _ =>
              solve [eapply absent_in_class; [exact H | reflexivity]]
          end ]
  end.

Ltac all_chars :=
  lazymatch goal with
  | |- forallb _ (_ ++ _) = true =>
      rewrite forallb_app; apply andb_true_iff; split; all_chars
  | |- forallb _ (_ :: _) = true =>
      cbn [forallb]; apply andb_true_iff; split; [reflexivity | all_chars]
  | |- forallb _ [] = true => reflexivity
  | |- forallb _ (lit _) = true => reflexivity
  | |- forallb _ _ = true => assumption
  end.

Lemma wf_url_spec (u : Url) :
  wf_url u = true ->
  isalpha_ascii (hd 0 (u_scheme u)) = true
  /\ forallb (fun c => has c UrlParse.scheme_chars) (u_scheme u) = true
  /\ u_host u <> []
  /\ forallb host_char (u_host u) = true
  /\ match u_port u with Some p => forallb isdigit_ascii p = true | None => True end
  /\ match u_path u with [] => True | c :: _ => c = 47 end
  /\ forallb path_char (u_path u) = true
  /\ match u_query u with Some q => forallb query_char q = true | None => True end
  /\ match u_fragment u with Some f => forallb url_char f = true | None => True end.
Proof.
  unfold wf_url. rewrite !andb_true_iff.
  intros ((((((((H1 & H2) & H3) & H4) & H5) & H6) & H7) & H8) & H9).
  repeat split; auto.
  - apply negb_true_iff, str_eqb_neq in H3. exact H3.
  - destruct (u_port u); auto.
  - destruct (u_path u); auto. apply N.eqb_eq. exact H6.
  - destruct (u_query u); auto.
  - destruct (u_fragment u); auto.
Qed.

Lemma digit_url_char (c : char) : isdigit_ascii c = true -> url_char c = true.
Proof. rewrite digit_spec, url_char_range. lia. Qed.

Lemma host_url_char (c : char) : host_char c = true -> url_char c = true.
Proof. rewrite host_char_spec. tauto. Qed.

Lemma path_url_char (c : char) : path_char c = true -> url_char c = true.
Proof. rewrite path_char_spec. tauto. Qed.

Lemma query_url_char (c : char) : query_char c = true -> url_char c = true.
Proof. rewrite query_char_spec. tauto. Qed.

Lemma scheme_prefix (sch rest : str) :
  sch <> [] -> has 58 sch = false ->
  find_char 58 (sch ++ 58 :: rest) = Some (List.length sch)
  /\ (0 <? List.length sch)%nat = true
  /\ hd 0 (sch ++ 58 :: rest) = hd 0 sch
  /\ firstn (List.length sch) (sch ++ 58 :: rest) = sch
  /\ skipn (List.length sch + 1) (sch ++ 58 :: rest) = rest.
Proof.
  intros Hne Habs. split; [apply find_char_here; exact Habs|].
  split; [destruct sch; [congruence | reflexivity]|].
  split; [destruct sch; [congruence | reflexivity]|].
  split.
  - rewrite firstn_app, Nat.sub_diag, firstn_all, firstn_O, app_nil_r. reflexivity.
  - rewrite skipn_app, skipn_all2 by lia.
    replace (List.length sch + 1 - List.length sch)%nat with 1%nat by lia.
    reflexivity.
Qed.

Lemma port_part_chars (u : Url) :
  match u_port u with Some p => forallb isdigit_ascii p = true | None => True end ->
  forallb url_char (port_part u) = true
  /\ has 47 (port_part u) = false /\ has 63 (port_part u) = false
  /\ has 35 (port_part u) = false /\ has 91 (port_part u) = false
  /\ has 93 (port_part u) = false.
Proof.
  unfold port_part. destruct (u_port u) as [p|]; [|intros _; repeat split].
  intros Hp. change (lit ":" ++ p) with (58 :: p).
  assert (Up : forallb url_char p = true)
    by (eapply forallb_impl; [apply digit_url_char | exact Hp]).
  repeat split; [all_chars | absent ..].
Qed.

Lemma query_part_chars (u : Url) :
  match u_query u with Some q => forallb query_char q = true | None => True end ->
  forallb url_char (query_part u) = true /\ has 35 (query_part u) = false.
Proof.
  unfold query_part. destruct (u_query u) as [q|]; [|intros _; repeat split].
  intros Hq. change (lit "?" ++ q) with (63 :: q).
  assert (Uq : forallb url_char q = true)
    by (eapply forallb_impl; [apply query_url_char | exact Hq]).
  split; [all_chars | absent].
Qed.

Lemma fragment_part_chars (u : Url) :
  match u_fragment u with Some f => forallb url_char f = true | None => True end ->
  forallb url_char (fragment_part u) = true.
Proof.
  unfold fragment_part. destruct (u_fragment u) as [f|]; [|intros _; reflexivity].
  intros Hf. change (lit "#" ++ f) with (35 :: f). all_chars.
Qed.

Lemma split_fragment_part (a : str) (u : Url) :
  has 35 a = false ->
  split_first 35 (a ++ fragment_part u)
  = match u_fragment u with Some f => Some (a, f) | None => None end.
Proof.
  intros Ha. unfold fragment_part. destruct (u_fragment u) as [f|].
  - change (lit "#" ++ f) with (35 :: f). apply split_first_here. exact Ha.
  - rewrite app_nil_r. apply split_first_absent. exact Ha.
Qed.

Lemma split_query_part (a : str) (u : Url) :
  has 63 a = false ->
  split_first 63 (a ++ query_part u)
  = match u_query u with Some q => Some (a, q) | None => None end.
Proof.
  intros Ha. unfold query_part. destruct (u_query u) as [q|].
  - change (lit "?" ++ q) with (63 :: q). apply split_first_here. exact Ha.
  - rewrite app_nil_r. apply split_first_absent. exact Ha.
Qed.

Lemma rsplit_port_part (u : Url) :
  has 58 (u_host u) = false ->
  match u_port u with Some p => forallb isdigit_ascii p = true | None => True end ->
  rsplit_last 58 (u_host u ++ port_part u)
  = match u_port u with Some p => Some (u_host u, p) | None => None end.
Proof.
  intros Hh. unfold port_part. destruct (u_port u) as [p|].
  - intros Hp. change (lit ":" ++ p) with (58 :: p). apply rsplit_last_here.
    eapply absent_in_class; [exact Hp | reflexivity].
  - intros _. rewrite app_nil_r. apply rsplit_last_absent. exact Hh.
Qed.

(** The text after the netloc is empty or starts with a delimiter. *)
Lemma rest_starts_with_delimiter (u : Url) :
  match u_path u with [] => True | c :: _ => c = 47 end ->
  match u_path u ++ query_part u ++ fragment_part u with
  | [] => True
  | c :: _ => c = 47 \/ c = 63 \/ c = 35
  end.
Proof.
  unfold query_part, fragment_part.
  destruct (u_path u) as [|c path]; [|cbn; auto].
  intros _. destruct (u_query u); [cbn; auto|].
  destruct (u_fragment u); cbn; auto.
Qed.

(** What [urlsplit] returns on the text of a well-formed URL. *)
Lemma urlsplit_render (E : Env) (u : Url) :
  wf_url u = true ->
  UrlParse.urlsplit E (render u)
  = Ok {| UrlParse.scheme := map lower_char (u_scheme u);
          UrlParse.netloc := u_host u ++ port_part u;
          UrlParse.path := u_path u;
          UrlParse.query := match u_query u with Some q => q | None => [] end;
          UrlParse.fragment := match u_fragment u with Some f => f | None => [] end |}.
Proof.
  intros Hwf. apply wf_url_spec in Hwf.
  destruct Hwf as (Halpha & Hsch & Hhne & Hhost & Hport & Hslash & Hpath & Hq & Hf).
  assert (Us : forallb url_char (u_scheme u) = true)
    by (eapply forallb_impl; [apply scheme_char_url_char | exact Hsch]).
  assert (Uh : forallb url_char (u_host u) = true)
    by (eapply forallb_impl; [apply host_url_char | exact Hhost]).
  assert (Upa : forallb url_char (u_path u) = true)
    by (eapply forallb_impl; [apply path_url_char | exact Hpath]).
  destruct (port_part_chars u Hport) as (Upo & Hp47 & Hp63 & Hp35 & Hp91 & Hp93).
  destruct (query_part_chars u Hq) as (Uq & Hq35).
  pose proof (fragment_part_chars u Hf) as Uf.
  assert (Hsne : u_scheme u <> []).
  { destruct (u_scheme u); [discriminate Halpha | discriminate]. }
  assert (Uall : forallb url_char (render u) = true).
  { unfold render. all_chars. }
  unfold UrlParse.urlsplit.
  rewrite (dropWhile_all_false UrlParse.c0_control_or_space)
    by (eapply forallb_impl; [|exact Uall];
        intros c Hc; rewrite (url_char_not_c0 c Hc); reflexivity).
  unfold UrlParse.unsafe_url_bytes; cbn [fold_left].
  rewrite (remove_char_absent 9 (render u)), (remove_char_absent 13 (render u)),
          (remove_char_absent 10 (render u))
    by (eapply absent_in_class; [exact Uall | reflexivity]).
  unfold render.
  change (lit ":" ++ ?x) with (58 :: x).
  destruct (scheme_prefix (u_scheme u)
              (lit "//" ++ (u_host u ++ port_part u)
                 ++ u_path u ++ query_part u ++ fragment_part u) Hsne)
    as (Efind & Epos & Ehd & Efirst & Eskip); [absent|].
  change (ch ":") with 58.
  rewrite Efind, Epos, Ehd, Efirst, Eskip, Halpha, Hsch.
  rewrite (url_char_ascii (hd 0 (u_scheme u))).
  2:{ destruct (u_scheme u); [congruence|]. cbn [forallb hd] in *.
      apply andb_true_iff in Us. tauto. }
  cbn [andb].
  rewrite lower_ascii
    by (eapply forallb_impl; [apply url_char_ascii | exact Us]).
  replace (str_eqb (firstn 2 (lit "//" ++ (u_host u ++ port_part u)
                                ++ u_path u ++ query_part u ++ fragment_part u))
             (lit "//")) with true by reflexivity.
  rewrite _splitnetloc_at; [| absent | absent | absent
                            | apply rest_starts_with_delimiter; exact Hslash].
  change (ch "[") with 91. change (ch "]") with 93.
  replace (has 91 (u_host u ++ port_part u)) with false by (symmetry; absent).
  replace (has 93 (u_host u ++ port_part u)) with false by (symmetry; absent).
  cbn [andb orb negb bind].
  change (ch "#") with 35. change (ch "?") with 63.
  rewrite app_assoc, split_fragment_part by absent.
  assert (Enet : UrlParse._checknetloc E (u_host u ++ port_part u) = Ok tt).
  { unfold UrlParse._checknetloc.
    destruct (u_host u ++ port_part u) eqn:En; [reflexivity|]. rewrite <- En.
    replace (forallb isascii (u_host u ++ port_part u)) with true; [reflexivity|].
    symmetry. eapply forallb_impl; [apply url_char_ascii|]. all_chars. }
  destruct (u_fragment u) as [f|] eqn:Ef.
  2: (unfold fragment_part; rewrite Ef, app_nil_r).
  all: rewrite split_query_part by absent.
  all: destruct (u_query u) as [q|] eqn:Eq.
  all: try (unfold query_part; rewrite Eq, app_nil_r).
  all: rewrite Enet; reflexivity.
Qed.

(** ** Normalising the text of a well-formed URL *)

Lemma urlunsplit_with_netloc (scheme netloc path query : str) :
  scheme <> [] -> netloc <> [] ->
  (exists path', path = 47 :: path') ->
  UrlParse.urlunsplit scheme netloc path query []
  = scheme ++ lit ":" ++ lit "//" ++ netloc ++ path
    ++ match query with [] => [] | _ => lit "?" ++ query end.
Proof.
  intros Hs Hn (path' & ->). unfold UrlParse.urlunsplit.
  apply str_eqb_neq in Hs. apply str_eqb_neq in Hn. rewrite Hs, Hn.
  cbn [negb orb andb].
  replace (str_eqb (firstn 1 (47 :: path')) (lit "/")) with true by reflexivity.
  replace (str_eqb (47 :: path') []) with false by reflexivity.
  cbn [negb andb]. rewrite (str_eqb_refl []). cbn [negb].
  destruct query as [|c q].
  - rewrite (str_eqb_refl []). cbn [negb]. rewrite app_nil_r. reflexivity.
  - replace (str_eqb (c :: q) []) with false by reflexivity. cbn [negb].
    rewrite <- !app_assoc. reflexivity.
Qed.

Lemma map_lower_char_idem (s : str) :
  map lower_char (map lower_char s) = map lower_char s.
Proof. rewrite map_map. apply map_ext. apply lower_char_idem. Qed.

Lemma forallb_map_lower (p : char -> bool) (s : str) :
  (forall c, p c = true -> p (lower_char c) = true) ->
  forallb p s = true -> forallb p (map lower_char s) = true.
Proof.
  intros Hp. induction s as [|x s IH]; cbn; [reflexivity|].
  rewrite !andb_true_iff. intros [Hx Hs]. auto.
Qed.

(** The text of a well-formed URL normalises to the text of its normal
    form. *)
Lemma normalize_url_render (E : Env) (u : Url) :
  wf_url u = true ->
  normalize_url E (render u) = Ok (render (normalized u)).
Proof.
  intros Hwf. pose proof (urlsplit_render E u Hwf) as Hsplit.
  apply wf_url_spec in Hwf.
  destruct Hwf as (Halpha & Hsch & Hhne & Hhost & Hport & Hslash & Hpath & Hq & Hf).
  assert (Us : forallb url_char (u_scheme u) = true)
    by (eapply forallb_impl; [apply scheme_char_url_char | exact Hsch]).
  assert (Uh : forallb url_char (u_host u) = true)
    by (eapply forallb_impl; [apply host_url_char | exact Hhost]).
  assert (Upa : forallb url_char (u_path u) = true)
    by (eapply forallb_impl; [apply path_url_char | exact Hpath]).
  destruct (port_part_chars u Hport) as (Upo & _).
  destruct (query_part_chars u Hq) as (Uq & _).
  pose proof (fragment_part_chars u Hf) as Uf.
  assert (Hsne : u_scheme u <> []).
  { destruct (u_scheme u); [discriminate Halpha | discriminate]. }
  assert (Uall : forallb url_char (render u) = true).
  { unfold render. all_chars. }
  assert (Hrne : render u <> []).
  { unfold render. destruct (u_scheme u); [congruence | discriminate]. }
  unfold normalize_url. unfold strip.
  rewrite strip_by_all_false
    by (eapply forallb_impl; [|exact Uall];
        intros c Hc; rewrite (url_char_not_space c Hc); reflexivity).
  destruct (render u) as [|r0 r] eqn:Er; [congruence|]. rewrite <- Er in *. clear Er r0 r.
  rewrite Hsplit. cbn [bind UrlParse.scheme UrlParse.netloc UrlParse.path UrlParse.query].
  assert (Hls : map lower_char (u_scheme u) <> []).
  { destruct (u_scheme u); [congruence | discriminate]. }
  replace (str_or (map lower_char (u_scheme u)) (lit "http"))
    with (map lower_char (u_scheme u))
    by (destruct (map lower_char (u_scheme u)); [congruence | reflexivity]).
  rewrite (lower_ascii E (map lower_char (u_scheme u))).
  2:{ apply forallb_map_lower.
      - intros c Hc. unfold lower_char. destruct (isupper_ascii c) eqn:Hu; [|exact Hc].
        unfold isascii, isupper_ascii in *. char_cases. apply N.ltb_lt. lia.
      - eapply forallb_impl; [apply url_char_ascii | exact Us]. }
  rewrite map_lower_char_idem.
  change (ch ":") with 58.
  rewrite rsplit_port_part;
    [| eapply absent_in_class; [exact Hhost | reflexivity] | exact Hport].
  assert (Hlh : lower E (u_host u) = map lower_char (u_host u)).
  { apply lower_ascii. eapply forallb_impl; [apply url_char_ascii | exact Uh]. }
  assert (Hhl : map lower_char (u_host u) <> []).
  { destruct (u_host u); [congruence | discriminate]. }
  assert (Hp' : exists path', str_or (u_path u) (lit "/") = 47 :: path').
  { destruct (u_path u) as [|c path]; [exists []; reflexivity|].
    subst c. exists path. reflexivity. }
  unfold render, normalized.
  cbn [u_scheme u_host u_port u_path u_query u_fragment].
  unfold port_part at 1, query_part, fragment_part, port_part.
  cbn [u_scheme u_host u_port u_path u_query u_fragment].
  fold (default_port (map lower_char (u_scheme u))).
  destruct (u_port u) as [p|] eqn:Ep.
  - rewrite Hlh. unfold default_port at 1.
    fold (default_port (map lower_char (u_scheme u)) p).
    destruct (default_port (map lower_char (u_scheme u)) p).
    + rewrite urlunsplit_with_netloc by assumption.
      destruct (u_query u) as [[|c q]|]; rewrite ?app_nil_r; reflexivity.
    + rewrite urlunsplit_with_netloc;
        [| assumption | destruct (map lower_char (u_host u)); discriminate | assumption].
      destruct (u_query u) as [[|c q]|]; rewrite ?app_nil_r, <- ?app_assoc; reflexivity.
  - rewrite app_nil_r, Hlh.
    rewrite urlunsplit_with_netloc by assumption.
    destruct (u_query u) as [[|c q]|]; rewrite ?app_nil_r; reflexivity.
Qed.

Lemma wf_url_intro (u : Url) :
  isalpha_ascii (hd 0 (u_scheme u)) = true ->
  forallb (fun c => has c UrlParse.scheme_chars) (u_scheme u) = true ->
  u_host u <> [] ->
  forallb host_char (u_host u) = true ->
  match u_port u with Some p => forallb isdigit_ascii p = true | None => True end ->
  match u_path u with [] => True | c :: _ => c = 47 end ->
  forallb path_char (u_path u) = true ->
  match u_query u with Some q => forallb query_char q = true | None => True end ->
  match u_fragment u with Some f => forallb url_char f = true | None => True end ->
  wf_url u = true.
Proof.
  intros H1 H2 H3 H4 H5 H6 H7 H8 H9. unfold wf_url.
  rewrite H1, H2, H4, H7. apply str_eqb_neq in H3. rewrite H3. cbn [negb andb].
  destruct (u_port u); [rewrite H5|]; cbn [andb];
    (destruct (u_path u); [|apply N.eqb_eq in H6; rewrite H6]); cbn [andb];
    (destruct (u_query u); [rewrite H8|]); cbn [andb];
    (destruct (u_fragment u); [rewrite H9|]); reflexivity.
Qed.

(** The normal form of a well-formed URL is well-formed. *)
Lemma wf_url_normalized (u : Url) : wf_url u = true -> wf_url (normalized u) = true.
Proof.
  intros Hwf. apply wf_url_spec in Hwf.
  destruct Hwf as (Halpha & Hsch & Hhne & Hhost & Hport & Hslash & Hpath & Hq & Hf).
  apply wf_url_intro; unfold normalized;
    cbn [u_scheme u_host u_port u_path u_query u_fragment].
  - destruct (u_scheme u) as [|c s]; [discriminate Halpha|].
    cbn [map hd] in *. apply lower_char_alpha. exact Halpha.
  - apply forallb_map_lower; [apply scheme_char_lower | exact Hsch].
  - destruct (u_host u); [congruence | discriminate].
  - apply forallb_map_lower; [apply lower_host_char | exact Hhost].
  - destruct (u_port u) as [p|]; [|exact I].
    destruct (default_port _ p); [exact I | exact Hport].
  - destruct (u_path u); [reflexivity | exact Hslash].
  - destruct (u_path u); [reflexivity | exact Hpath].
  - destruct (u_query u) as [[|c q]|]; [exact I | exact Hq | exact I].
  - exact I.
Qed.

(** Taking the normal form twice changes nothing. *)
Lemma normalized_idem (u : Url) : normalized (normalized u) = normalized u.
Proof.
  unfold normalized. cbn [u_scheme u_host u_port u_path u_query u_fragment].
  rewrite !map_lower_char_idem. f_equal.
  - destruct (u_port u) as [p|]; [|reflexivity].
    destruct (default_port (map lower_char (u_scheme u)) p) eqn:Hd; [reflexivity|].
    rewrite Hd. reflexivity.
  - destruct (u_path u); reflexivity.
  - destruct (u_query u) as [[|c q]|]; reflexivity.
Qed.




(** C10 (as amended).  On the text of a well-formed URL
    [normalize_url] is idempotent: its result is a text it returns
    unchanged. *)
Theorem normalize_url_idempotent_on_well_formed (E : Env) (u : Url) :
  wf_url u = true ->
  exists v,
    normalize_url E (render u) = Ok v
    /\ normalize_url E v = Ok v.
Proof.
  intros Hwf. exists (render (normalized u)). split.
  - apply normalize_url_render. exact Hwf.
  - rewrite normalize_url_render by (apply wf_url_normalized; exact Hwf).
    rewrite normalized_idem. reflexivity.
Qed.

Lemma normalize_url_idempotent_on_well_formed_witness :
  wf_url example_url = true
  /\ exists v,
       normalize_url offline_env (lit "HTTP://Example.com:80/path?q=1#frag") = Ok v
       /\ normalize_url offline_env v = Ok v.
Proof.
  split; [reflexivity|].
  exact (normalize_url_idempotent_on_well_formed offline_env example_url eq_refl).
Defined.

(** C10, counterexample.  A netloc that ends with the default port
    twice loses one port at each call. *)
Lemma normalize_url_not_idempotent :
  normalize_url offline_env (lit "http://example.com:80:80/")
  = Ok (lit "http://example.com:80/")
  /\ normalize_url offline_env (lit "http://example.com:80/")
     = Ok (lit "http://example.com/")
  /\ ~ (forall (E : Env) (s v : str),
          normalize_url E s = Ok v -> normalize_url E v = Ok v).
Proof.
  split; [reflexivity|]. split; [reflexivity|].
  intros H.
  specialize (H offline_env (lit "http://example.com:80:80/")
                (lit "http://example.com:80/") eq_refl).
  vm_compute in H. discriminate H.
Qed.

(** ** Further properties of the code *)



(** The extraction of the worker loop prefers the title element over
    the og:title tag. *)
Theorem app_extract_title_prefers_title_element (E : Env) (html : str) (soup : Soup) :
  html <> [] ->
  BeautifulSoup E html = Ok soup ->
  let ttl := strip (tag_text (soup_title soup)) in
  let og := strip (tag_text (soup_meta_property soup (lit "og:title"))) in
  exists desc,
    App._extract_text_from_html E html
    = Ok (match ttl with [] => og | _ => ttl end, desc).
Proof.
  intros Hne Hparse ttl og. unfold App._extract_text_from_html.
  destruct html as [|c html]; [congruence|]. rewrite Hparse. cbn [bind].
  eexists. f_equal. f_equal. subst ttl og.
  destruct (tag_text (soup_title soup)) as [|t ts].
  - change (strip []) with (@nil char).
    destruct (tag_text (soup_meta_property soup (lit "og:title"))); reflexivity.
  - destruct (strip (t :: ts)); [|reflexivity].
    destruct (tag_text (soup_meta_property soup (lit "og:title"))); reflexivity.
Qed.

Lemma app_extract_title_prefers_title_element_witness :
  let E := env_with (http_get offline_env) (getaddrinfo offline_env)
                    (fun _ => Ok soup_both_titles) None (fun _ => None) in
  lit "<html>...</html>" <> []
  /\ BeautifulSoup E (lit "<html>...</html>") = Ok soup_both_titles
  /\ exists desc,
       App._extract_text_from_html E (lit "<html>...</html>")
       = Ok (lit "Doc title", desc).
Proof.
  cbv zeta. split; [discriminate|]. split; [reflexivity|].
  exact (app_extract_title_prefers_title_element
           (env_with (http_get offline_env) (getaddrinfo offline_env)
                     (fun _ => Ok soup_both_titles) None (fun _ => None))
           (lit "<html>...</html>") soup_both_titles
           ltac:(discriminate) eq_refl).
Defined.

(** An exception of the extract stage is caught by the worker loop: the
    iteration ends normally and the link is left in status [error]. *)
Theorem worker_marks_error_on_extract_exception
    (E : Env) (db : DB) (now : Z) (wire : list str) (l : Link.t)
    (c : char) (html : str) (e : exn) :
  constraints_ok db = true ->
  NoDup (map Link.id (links db)) ->
  select_next_queued db = Some l ->
  returned (App.fetch_html E (Link.url l)) = Ok (c :: html) ->
  BeautifulSoup E (c :: html) = Raise e ->
  exists pre post,
    links db = pre ++ l :: post
    /\ run_iteration E now db wire
       = ({| links := pre ++ set_status l error now :: post;
             link_tags := link_tags db |},
          Link.url l :: wire, Ok Processed).
Proof.
  intros Hok Hnd Hsel Hfetch Hparse.
  destruct (claim_next_claims db now wire l Hok Hnd Hsel) as (pre & post & Hl & Hclaim).
  set (lp := set_status l processing now) in *.
  assert (Hnd' : NoDup (map Link.id (pre ++ lp :: post))).
  { rewrite Hl in Hnd. rewrite map_app in *. exact Hnd. }
  exists pre, post. split; [exact Hl|].
  unfold run_iteration, worker_iteration.
  unfold finally. unfold mbind at 1. rewrite Hclaim.
  unfold mbind at 1. unfold try_.
  unfold _process_one. unfold mbind at 1.
  unfold get_link at 1.
  cbv [query on_session SessionLocal session view store tx sent].
  cbn [links].
  change (Link.id (set_status l processing now)) with (Link.id lp).
  rewrite (find_row_unique pre post lp Hnd').
  unfold mbind at 1. unfold perform at 1.
  change (Link.url lp) with (Link.url l).
  rewrite Hfetch.
  change (requests (App.fetch_html E (Link.url l))) with [Link.url l].
  cbn [session sent app].
  unfold mbind at 1. unfold lift at 1. cbn [App._extract_text_from_html].
  rewrite Hparse. cbn [bind].
  unfold mbind at 1. unfold get_link.
  cbv [query on_session session view store tx sent]. cbn [links].
  rewrite (find_row_unique pre post lp Hnd').
  unfold mbind, put_link.
  cbv [modify on_session session view store tx sent]. cbn [links link_tags].
  cbv [commit on_session session view store tx sent].
  match goal with
  | |- context [constraints_ok ?d] =>
      change (constraints_ok d) with (constraints_ok db)
  end.
  rewrite Hok.
  cbv [ret close on_session session view store tx sent].
  rewrite put_row_unique by (exact Hnd' || reflexivity).
  reflexivity.
Qed.

Lemma worker_marks_error_on_extract_exception_witness :
  let E := env_with html_everywhere (getaddrinfo offline_env)
                    (BeautifulSoup offline_env) None (fun _ => None) in
  let l := queued_link 1 1 (lit "http://a.com/") [] 0 in
  let db := {| links := [l]; link_tags := [] |} in
  constraints_ok db = true
  /\ NoDup (map Link.id (links db))
  /\ exists pre post,
       links db = pre ++ l :: post
       /\ run_iteration E 5 db []
          = ({| links := pre ++ set_status l error 5 :: post;
                link_tags := link_tags db |},
             Link.url l :: [], Ok Processed).
Proof.
  cbv zeta.
  assert (Hnd : NoDup (map Link.id [queued_link 1 1 (lit "http://a.com/") [] 0])).
  { cbn. repeat constructor. intros []. }
  split; [reflexivity|]. split; [exact Hnd|].
  exact (worker_marks_error_on_extract_exception
           (env_with html_everywhere (getaddrinfo offline_env)
                     (BeautifulSoup offline_env) None (fun _ => None))
           {| links := [queued_link 1 1 (lit "http://a.com/") [] 0]; link_tags := [] |}
           5 [] (queued_link 1 1 (lit "http://a.com/") [] 0)
           60 (lit "html><p>internal</p></html>")
           (LibraryError (lit "ParserRejectedMarkup"))
           eq_refl Hnd eq_refl eq_refl eq_refl).
Defined.

(** ** Guard rails of the enrichment *)

Lemma startswith_app (p rest : str) : startswith (p ++ rest) p = true.
Proof.
  induction p as [|c p IH]; [destruct rest; reflexivity|].
  cbn. rewrite N.eqb_refl, IH. reflexivity.
Qed.

Lemma marker_split (n : N) (rest : str) :
  lit "[" ++ str_of_N n ++ lit " min read] " ++ rest
  = (lit "[" ++ str_of_N n ++ lit " min read]") ++ lit " " ++ rest.
Proof.
  rewrite <- (app_assoc (lit "[")). f_equal.
  rewrite <- (app_assoc (str_of_N n)). f_equal.
Qed.

Lemma fallback_summary_marked (n : N) (url title body : str) :
  startswith (fallback_summary n url title body)
             (lit "[" ++ str_of_N n ++ lit " min read]") = true.
Proof.
  unfold fallback_summary.
  rewrite <- (app_assoc (lit "[")), <- (app_assoc (str_of_N n)).
  rewrite marker_split. apply startswith_app.
Qed.

Lemma Forall_firstn_of {A} (P : A -> Prop) (n : nat) (l : list A) :
  Forall P l -> Forall P (firstn n l).
Proof.
  revert n. induction l as [|x l IH]; intros [|n] H; cbn; auto.
  inversion H; subst. constructor; auto.
Qed.

Lemma py_round_div_monotone (n m : N) :
  n <= m -> py_round_div n 200 <= py_round_div m 200.
Proof.
  intros Hle.
  pose proof (py_round_div_nearest n) as (Hn1 & Hn2 & Hn3).
  pose proof (py_round_div_nearest m) as (Hm1 & Hm2 & Hm3).
  cbv zeta in *.
  set (r1 := py_round_div n 200) in *. set (r2 := py_round_div m 200) in *.
  destruct (N.le_gt_cases r1 r2) as [H|H]; [exact H|exfalso].
  assert (E1 : n + 100 = 200 * r1) by lia.
  assert (E2 : m = 200 * r2 + 100) by lia.
  assert (E3 : r1 = r2 + 1) by lia.
  specialize (Hn3 (or_intror E1)). specialize (Hm3 (or_introl E2)).
  rewrite E3, N.add_1_r, N.even_succ, <- N.negb_even, Hm3 in Hn3. discriminate.
Qed.

(** The reading time is at least one minute and never decreases when
    the text has more words. *)
Theorem calculate_reading_time_monotone (a b : str) :
  word_count a <= word_count b ->
  1 <= calculate_reading_time a
  /\ calculate_reading_time a <= calculate_reading_time b.
Proof.
  intros H. rewrite !calculate_reading_time_eq.
  pose proof (py_round_div_monotone _ _ H). lia.
Qed.

Lemma calculate_reading_time_monotone_witness :
  word_count (lit "one two") <= word_count (lit "one two three")
  /\ 1 <= calculate_reading_time (lit "one two")
  /\ calculate_reading_time (lit "one two")
     <= calculate_reading_time (lit "one two three").
Proof.
  assert (H : word_count (lit "one two") <= word_count (lit "one two three"))
    by (vm_compute; discriminate).
  split; [exact H|].
  exact (calculate_reading_time_monotone (lit "one two") (lit "one two three") H).
Defined.

Lemma ai_enrich_marked (E : Env) (url title body : str) :
  let '(summary, category, tags) := ai_enrich E url title body in
  startswith summary
    (lit "[" ++ str_of_N (calculate_reading_time body) ++ lit " min read]") = true
  /\ category <> []
  /\ (List.length tags <= 6)%nat
  /\ Forall (fun t => (List.length t <= 40)%nat) tags.
Proof.
  assert (Hfb : startswith (fallback_summary (calculate_reading_time body) url title body)
                  (lit "[" ++ str_of_N (calculate_reading_time body) ++ lit " min read]")
                = true
                /\ lit "Other" <> []
                /\ (List.length (@nil str) <= 6)%nat
                /\ Forall (fun t => (List.length t <= 40)%nat) (@nil str)).
  { split; [apply fallback_summary_marked|]. split; [discriminate|].
    split; [cbn; lia | constructor]. }
  unfold ai_enrich.
  destruct (openai_client E) as [create|]; [|exact Hfb].
  match goal with
  | |- context [match ?b with Ok r => r | Raise _ => _ end] =>
      destruct b as [[[s c] t]|e] eqn:Hb
  end; [|exact Hfb].
  destruct (create _) as [e|text]; [discriminate|].
  cbn [bind] in Hb.
  match type of Hb with
  | bind ?x _ = _ => destruct x as [summary|e]; [|discriminate]
  end.
  cbn [bind] in Hb.
  match type of Hb with
  | bind ?x _ = _ => destruct x as [category|e]; [|discriminate]
  end.
  cbn [bind] in Hb. injection Hb as <- <- <-.
  repeat split.
  - destruct summary as [|x summary]; [apply fallback_summary_marked|].
    destruct (startswith (x :: summary) _) eqn:Hs; cbn [negb]; [exact Hs|].
    change (startswith
              (lit "[" ++ str_of_N (calculate_reading_time body) ++ lit " min read] "
                 ++ x :: summary)
              (lit "[" ++ str_of_N (calculate_reading_time body) ++ lit " min read]")
            = true).
    rewrite marker_split. apply startswith_app.
  - destruct category; discriminate.
  - apply (firstn_le_length 6).
  - apply (Forall_firstn_of _ 6). apply Forall_forall. intros x Hx.
    apply in_map_iff in Hx. destruct Hx as (v & <- & _).
    apply (firstn_le_length 40).
Qed.

(** Whatever the enrichment service answers, the summary [ai_enrich]
    returns starts with the reading-time marker, the category is not
    empty, and there are at most six tags of at most forty characters. *)
Theorem ai_enrich_guardrails (E : Env) (url title body : str) :
  let '(summary, category, tags) := ai_enrich E url title body in
  startswith summary
    (lit "[" ++ str_of_N (calculate_reading_time body) ++ lit " min read]") = true
  /\ category <> []
  /\ (List.length tags <= 6)%nat
  /\ Forall (fun t => (List.length t <= 40)%nat) tags.
Proof. exact (ai_enrich_marked E url title body). Qed.

(** ** Enqueue: every outcome *)

Lemma next_id_fresh (ids : list N) : ~ In (next_id ids) ids.
Proof. intros H. apply next_id_gt in H. lia. Qed.

Lemma run_enqueue_cases
    (E : Env) (db : DB) (user_id : N) (url title : str) (now : Z) :
  constraints_ok db = true ->
  match run_enqueue E user_id url title now db with
  | (db', Ok new_id) =>
      exists l,
        db' = {| links := links db ++ [l]; link_tags := link_tags db |}
        /\ Link.id l = new_id
        /\ ~ In new_id (map Link.id (links db))
        /\ Link.user_id l = user_id
        /\ Link.url l = strip url
        /\ strip url <> []
        /\ normalize_url E (strip url) = Ok (Link.normalized_url l)
        /\ sha256_hex E (strip url) = Ok (Link.url_hash l)
        /\ encodes_utf8 (Link.normalized_url l) = true
        /\ Link.title l = title
        /\ Link.status l = queued
        /\ Link.archived_at l = None
  | (db', Raise e) =>
      db' = db
      /\ ((strip url = [] /\ e = HTTPException 400 (lit "url required"))
          \/ (strip url <> [] /\ normalize_url E (strip url) = Raise e)
          \/ (strip url <> [] /\ e = UnicodeEncodeError
              /\ exists nz,
                   normalize_url E (strip url) = Ok nz
                   /\ (encodes_utf8 (strip url) = false \/ encodes_utf8 nz = false)))
  end.
Proof.
  intros Hok.
  destruct (strip url) as [|c rest] eqn:Hs.
  - unfold run_enqueue, enqueue_link. rewrite Hs.
    cbv [finally raise close on_session session store view tx sent SessionLocal].
    split; [destruct db; reflexivity|]. left. split; reflexivity.
  - destruct (normalize_url E (c :: rest)) as [nz|e] eqn:Hn.
    + destruct (encodes_utf8 (c :: rest)) eqn:Hu.
      * destruct (encodes_utf8 nz) eqn:Hz.
        -- assert (Hne : strip url <> []) by (rewrite Hs; discriminate).
           rewrite <- Hs in Hn, Hu. rewrite <- Hs.
           rewrite (run_enqueue_inserts E db user_id url title now nz Hok Hne Hn Hu Hz).
           eexists. split; [reflexivity|].
           split; [reflexivity|]. split; [apply next_id_fresh|].
           split; [reflexivity|]. split; [reflexivity|]. split; [exact Hne|].
           split; [reflexivity|]. split; [apply sha256_hex_encodes; exact Hu|].
           split; [exact Hz|].
           split; [apply str_or_nil_r|]. split; reflexivity.
        -- destruct nz as [|z nz']; [discriminate Hz|].
           unfold run_enqueue, enqueue_link. rewrite Hs, Hn.
           unfold sha256_hex. rewrite Hu.
           cbv [finally mbind lift]. rewrite Hz.
           cbv [finally mbind lift close on_session session store view tx sent
                SessionLocal].
           split; [destruct db; reflexivity|]. right. right.
           split; [discriminate|]. split; [reflexivity|].
           exists (z :: nz'). split; [reflexivity|]. right. exact Hz.
      * unfold run_enqueue, enqueue_link. rewrite Hs, Hn.
        unfold sha256_hex. rewrite Hu.
        cbv [finally mbind lift close on_session session store view tx sent
             SessionLocal].
        split; [destruct db; reflexivity|]. right. right.
        split; [discriminate|]. split; [reflexivity|].
        exists nz. split; [reflexivity|]. left. reflexivity.
    + unfold run_enqueue, enqueue_link. rewrite Hs, Hn.
      cbv [finally mbind lift close on_session session store view tx sent SessionLocal].
      split; [destruct db; reflexivity|]. right. left.
      split; [discriminate | reflexivity].
Qed.

(** On a table that satisfies its constraints, and for a title that
    encodes as UTF-8 (the driver's encoding of the stored text is not
    part of the model), [enqueue_link] either raises and leaves the
    database as it was, or appends exactly one [queued] row with a
    primary key not used before, the stripped URL, its normal form, the
    hash of the stripped URL, and the given title and owner.  It raises
    400 for a blank URL, the [ValueError] of [normalize_url], or the
    [UnicodeEncodeError] of [sha256_hex] when the stripped URL or its
    normal form holds a lone surrogate. *)
Theorem enqueue_link_outcome
    (E : Env) (db : DB) (user_id : N) (url title : str) (now : Z) :
  constraints_ok db = true ->
  encodes_utf8 title = true ->
  match run_enqueue E user_id url title now db with
  | (db', Ok new_id) =>
      exists l,
        db' = {| links := links db ++ [l]; link_tags := link_tags db |}
        /\ Link.id l = new_id
        /\ ~ In new_id (map Link.id (links db))
        /\ Link.user_id l = user_id
        /\ Link.url l = strip url
        /\ strip url <> []
        /\ normalize_url E (strip url) = Ok (Link.normalized_url l)
        /\ sha256_hex E (strip url) = Ok (Link.url_hash l)
        /\ encodes_utf8 (Link.normalized_url l) = true
        /\ Link.title l = title
        /\ Link.status l = queued
        /\ Link.archived_at l = None
  | (db', Raise e) =>
      db' = db
      /\ ((strip url = [] /\ e = HTTPException 400 (lit "url required"))
          \/ (strip url <> [] /\ normalize_url E (strip url) = Raise e)
          \/ (strip url <> [] /\ e = UnicodeEncodeError
              /\ exists nz,
                   normalize_url E (strip url) = Ok nz
                   /\ (encodes_utf8 (strip url) = false \/ encodes_utf8 nz = false)))
  end.
Proof. intros Hok _. exact (run_enqueue_cases E db user_id url title now Hok). Qed.

Lemma enqueue_link_outcome_witness :
  constraints_ok empty_db = true
  /\ encodes_utf8 (lit "t") = true
  /\ run_enqueue offline_env 7 (lit "   ") (lit "t") 1 empty_db
     = (empty_db, Raise (HTTPException 400 (lit "url required")))
  /\ run_enqueue offline_env 7 (lit "http://[::1") (lit "t") 1 empty_db
     = (empty_db, Raise (ValueError (lit "Invalid IPv6 URL")))
  /\ run_enqueue offline_env 7 (lit "http://a.com/" ++ [55296]) (lit "t") 1 empty_db
     = (empty_db, Raise UnicodeEncodeError)
  /\ match run_enqueue offline_env 7 (lit " http://a.com/ ") (lit "t") 1 empty_db with
     | (db', Ok new_id) =>
      exists l,
           db' = {| links := links empty_db ++ [l]; link_tags := link_tags empty_db |}
           /\ Link.id l = new_id
           /\ ~ In new_id (map Link.id (links empty_db))
           /\ Link.user_id l = 7
           /\ Link.url l = strip (lit " http://a.com/ ")
           /\ strip (lit " http://a.com/ ") <> []
           /\ normalize_url offline_env (strip (lit " http://a.com/ ")) = Ok (Link.normalized_url l)
           /\ sha256_hex offline_env (strip (lit " http://a.com/ ")) = Ok (Link.url_hash l)
           /\ encodes_utf8 (Link.normalized_url l) = true
           /\ Link.title l = lit "t"
           /\ Link.status l = queued
           /\ Link.archived_at l = None
     | (db', Raise e) =>
         db' = empty_db
         /\ ((strip (lit " http://a.com/ ") = [] /\ e = HTTPException 400 (lit "url required"))
             \/ (strip (lit " http://a.com/ ") <> [] /\ normalize_url offline_env (strip (lit " http://a.com/ ")) = Raise e)
             \/ (strip (lit " http://a.com/ ") <> [] /\ e = UnicodeEncodeError
                 /\ exists nz,
                      normalize_url offline_env (strip (lit " http://a.com/ ")) = Ok nz
                      /\ (encodes_utf8 (strip (lit " http://a.com/ ")) = false \/ encodes_utf8 nz = false)))
        end.
Proof.
  split; [reflexivity|]. split; [reflexivity|]. split; [reflexivity|].
  split; [reflexivity|]. split; [reflexivity|].
  exact (enqueue_link_outcome offline_env empty_db 7 (lit " http://a.com/ ") (lit "t") 1
           eq_refl eq_refl).
Defined.

(** ** One iteration of the worker, in general *)

Lemma app_fetch_html_total (E : Env) (url : str) :
  exists text, returned (App.fetch_html E url) = Ok text.
Proof.
  unfold App.fetch_html. cbn [returned].
  destruct (http_get E url) as [e|sc ct text]; cbn [try_except].
  - eexists; reflexivity.
  - destruct (_ && _); eexists; reflexivity.
Qed.

(** What an iteration does with the link it claims, by the outcome of
    the extraction and of the commit. *)
Lemma run_iteration_claimed
    (E : Env) (db : DB) (now : Z) (wire : list str) (l : Link.t) :
  constraints_ok db = true ->
  NoDup (map Link.id (links db)) ->
  select_next_queued db = Some l ->
  exists pre post html,
    links db = pre ++ l :: post
    /\ returned (App.fetch_html E (Link.url l)) = Ok html
    /\ run_iteration E now db wire
       = match App._extract_text_from_html E html with
         | Raise _ =>
             ({| links := pre ++ set_status l error now :: post;
                 link_tags := link_tags db |},
              Link.url l :: wire, Ok Processed)
         | Ok (t, d) =>
             let '(s, c, tags) :=
               ai_enrich E (Link.url l) (str_or (str_or (Link.title l) t) (Link.url l)) d in
             let added :=
               added_rows (link_tags db) (Link.id l) (to_add db (Link.id l) tags) now in
             if unique_ok uq_link_tag_name_role (link_tags db ++ added)
             then ({| links := pre ++ processed_row l t s c now :: post;
                      link_tags := link_tags db ++ added |},
                   Link.url l :: wire, Ok Processed)
             else ({| links := pre ++ set_status l processing now :: post;
                      link_tags := link_tags db |},
                   Link.url l :: wire, Raise PendingRollbackError)
         end.
Proof.
  intros Hok Hnd Hsel.
  destruct (claim_next_claims db now wire l Hok Hnd Hsel) as (pre & post & Hl & Hclaim).
  destruct (app_fetch_html_total E (Link.url l)) as (html & Hfetch).
  set (lp := set_status l processing now) in *.
  assert (Hnd' : NoDup (map Link.id (pre ++ lp :: post))).
  { rewrite Hl in Hnd. rewrite map_app in *. exact Hnd. }
  exists pre, post, html. split; [exact Hl|]. split; [exact Hfetch|].
  unfold run_iteration, worker_iteration.
  unfold finally. unfold mbind at 1. rewrite Hclaim.
  unfold mbind at 1. unfold try_.
  unfold _process_one. unfold mbind at 1.
  unfold get_link at 1.
  cbv [query on_session SessionLocal session view store tx sent].
  cbn [links].
  change (Link.id (set_status l processing now)) with (Link.id lp).
  rewrite (find_row_unique pre post lp Hnd').
  unfold mbind at 1. unfold perform at 1.
  change (Link.url lp) with (Link.url l).
  rewrite Hfetch.
  change (requests (App.fetch_html E (Link.url l))) with [Link.url l].
  cbn [session sent app].
  unfold mbind at 1. unfold lift at 1.
  destruct (App._extract_text_from_html E html) as [[t d]|e].
  - change (Link.title lp) with (Link.title l).
    destruct (ai_enrich E (Link.url l) (str_or (str_or (Link.title l) t) (Link.url l)) d)
      as [[s c] tags].
    unfold mbind at 1. unfold put_link at 1.
    cbv [modify on_session session view store tx sent]. cbn [links link_tags].
    unfold mbind at 1.
    unfold upsert_system_tags. unfold mbind at 1.
    cbv [query on_session session view store tx sent]. cbn [links link_tags].
    change (Link.id lp) with (Link.id l).
    match goal with
    | |- context [for_each ?names _] =>
        change names with (to_add db (Link.id l) tags)
    end.
    rewrite for_each_add_link_tag.
    cbv [commit on_session session view store tx sent constraints_ok
         Link_table_args LinkTag_table_args forallb links link_tags].
    cbn [andb]. rewrite andb_true_r.
    rewrite put_row_unique by (exact Hnd' || reflexivity).
    destruct (unique_ok _ _).
    + cbv [mbind ret close on_session session view store tx sent]. reflexivity.
    + unfold mbind at 1. unfold get_link.
      cbv [mbind query ret close on_session session view store tx sent]. reflexivity.
  - unfold mbind at 1. unfold get_link.
    cbv [query on_session session view store tx sent]. cbn [links].
    rewrite (find_row_unique pre post lp Hnd').
    unfold mbind, put_link.
    cbv [modify on_session session view store tx sent]. cbn [links link_tags].
    cbv [commit on_session session view store tx sent].
    match goal with
    | |- context [constraints_ok ?d] =>
        change (constraints_ok d) with (constraints_ok db)
    end.
    rewrite Hok.
    cbv [ret close on_session session view store tx sent].
    rewrite put_row_unique by (exact Hnd' || reflexivity).
    reflexivity.
Qed.

Lemma run_iteration_idle (E : Env) (db : DB) (now : Z) (wire : list str) :
  select_next_queued db = None ->
  run_iteration E now db wire = (db, wire, Ok Idle).
Proof.
  intros Hsel. unfold run_iteration, worker_iteration, claim_next.
  cbv [finally mbind query on_session ret close SessionLocal session view store tx sent].
  rewrite Hsel. reflexivity.
Qed.

Lemma constraints_ok_tags (ls ls' : list Link.t) (ts : list LinkTag.t) :
  constraints_ok {| links := ls; link_tags := ts |}
  = constraints_ok {| links := ls'; link_tags := ts |}.
Proof. reflexivity. Qed.

Lemma constraints_ok_unique (ls : list Link.t) (ts : list LinkTag.t) :
  constraints_ok {| links := ls; link_tags := ts |} = unique_ok uq_link_tag_name_role ts.
Proof. unfold constraints_ok. cbn. apply andb_true_r. Qed.

(** ** A fetch that gives no content *)




(** An iteration of the worker on a consistent table touches nothing
    but the link it claims: with no queued link it changes nothing and
    does not call the HTTP client; otherwise it calls the client once,
    with the URL of the oldest queued link (the requests behind that
    call, redirects included, are the client's own), rewrites that row
    only (id, owner, URL, hashes, archive and creation time kept),
    removes no tag, adds only system tags of that link, and leaves the
    table consistent. *)
Theorem worker_iteration_frame (E : Env) (db : DB) (now : Z) (wire : list str) :
  constraints_ok db = true ->
  NoDup (map Link.id (links db)) ->
  let '(db', wire', r) := run_iteration E now db wire in
  match select_next_queued db with
  | None => db' = db /\ wire' = wire /\ r = Ok Idle
  | Some l =>
      wire' = Link.url l :: wire
      /\ exists pre post l' added,
           links db = pre ++ l :: post
           /\ links db' = pre ++ l' :: post
           /\ same_link l' l
           /\ link_tags db' = link_tags db ++ added
           /\ Forall (fun t => LinkTag.link_id t = Link.id l
                               /\ LinkTag.submitted_by t = system) added
           /\ constraints_ok db' = true
  end.
Proof.
  intros Hok Hnd.
  destruct (select_next_queued db) as [l|] eqn:Hsel.
  2:{ rewrite run_iteration_idle by exact Hsel. repeat split. }
  destruct (run_iteration_claimed E db now wire l Hok Hnd Hsel)
    as (pre & post & html & Hl & _ & ->).
  assert (Hsame : forall st t, same_link (set_status l st t) l)
    by (intros; repeat split).
  destruct (App._extract_text_from_html E html) as [[t d]|e].
  - destruct (ai_enrich _ _ _ _) as [[s c] tags]. cbv zeta.
    destruct (unique_ok _ _) eqn:Hu.
    + split; [reflexivity|].
      exists pre, post, (processed_row l t s c now),
        (added_rows (link_tags db) (Link.id l) (to_add db (Link.id l) tags) now).
      split; [exact Hl|]. split; [reflexivity|]. split; [repeat split|].
      split; [reflexivity|]. split.
      * apply Forall_forall. intros x Hx.
        destruct (added_rows_spec _ _ _ _ _ Hx) as (? & ? & _). auto.
      * rewrite constraints_ok_unique. exact Hu.
    + split; [reflexivity|].
      exists pre, post, (set_status l processing now), [].
      split; [exact Hl|]. split; [reflexivity|]. split; [apply Hsame|].
      split; [cbn; rewrite app_nil_r; reflexivity|]. split; [constructor|].
      rewrite <- Hok. destruct db; reflexivity.
  - split; [reflexivity|].
    exists pre, post, (set_status l error now), [].
    split; [exact Hl|]. split; [reflexivity|]. split; [apply Hsame|].
    split; [cbn; rewrite app_nil_r; reflexivity|]. split; [constructor|].
    rewrite <- Hok. destruct db; reflexivity.
Qed.

Lemma worker_iteration_frame_witness :
  constraints_ok queue_db = true
  /\ NoDup (map Link.id (links queue_db))
  /\ let '(db', wire', r) := run_iteration offline_env 9 queue_db [] in
     match select_next_queued queue_db with
     | None => db' = queue_db /\ wire' = [] /\ r = Ok Idle
     | Some l =>
         wire' = Link.url l :: []
         /\ exists pre post l' added,
              links queue_db = pre ++ l :: post
              /\ links db' = pre ++ l' :: post
              /\ same_link l' l
              /\ link_tags db' = link_tags queue_db ++ added
              /\ Forall (fun t => LinkTag.link_id t = Link.id l
                                  /\ LinkTag.submitted_by t = system) added
              /\ constraints_ok db' = true
     end.
Proof.
  assert (Hnd : NoDup (map Link.id (links queue_db))).
  { cbn. repeat constructor; cbn; intuition discriminate. }
  split; [reflexivity|]. split; [exact Hnd|].
  exact (worker_iteration_frame offline_env queue_db 9 [] eq_refl Hnd).
Defined.

(** How an iteration that claimed a link can end: normally, with the
    link [ready] or, when the extraction raised, [error]; or with
    [PendingRollbackError], the link left [processing].  No other
    exception leaves the iteration and a claimed link is never left
    [queued]. *)
Theorem worker_iteration_outcome
    (E : Env) (db : DB) (now : Z) (wire : list str) (l : Link.t) :
  constraints_ok db = true ->
  NoDup (map Link.id (links db)) ->
  select_next_queued db = Some l ->
  let '(db', _, r) := run_iteration E now db wire in
  exists l',
    find (fun x => Link.id x =? Link.id l) (links db') = Some l'
    /\ match r with
       | Ok Processed =>
           Link.status l' = ready
           \/ (Link.status l' = error
               /\ exists html e,
                    returned (App.fetch_html E (Link.url l)) = Ok html
                    /\ App._extract_text_from_html E html = Raise e)
       | Ok Idle => False
       | Raise e => e = PendingRollbackError /\ Link.status l' = processing
       end.
Proof.
  intros Hok Hnd Hsel.
  destruct (run_iteration_claimed E db now wire l Hok Hnd Hsel)
    as (pre & post & html & Hl & Hfetch & ->).
  assert (Hfind : forall l', Link.id l' = Link.id l ->
            find (fun x => Link.id x =? Link.id l) (pre ++ l' :: post) = Some l').
  { intros l' Hid. rewrite <- Hid. apply find_row_unique.
    rewrite Hl in Hnd. rewrite map_app in *. cbn [map] in *. rewrite Hid. exact Hnd. }
  destruct (App._extract_text_from_html E html) as [[t d]|e] eqn:Hex.
  - destruct (ai_enrich _ _ _ _) as [[s c] tags]. cbv zeta.
    destruct (unique_ok _ _).
    + eexists. split; [apply Hfind; reflexivity|]. left. reflexivity.
    + eexists. split; [apply Hfind; reflexivity|]. split; reflexivity.
  - eexists. split; [apply Hfind; reflexivity|]. right.
    split; [reflexivity|]. exists html, e. split; assumption.
Qed.

Lemma worker_iteration_outcome_witness :
  constraints_ok queue_db = true
  /\ NoDup (map Link.id (links queue_db))
  /\ let l := queued_link 2 1 (lit "http://b.com/") [] 5 in
     let '(db', _, r) := run_iteration offline_env 9 queue_db [] in
     exists l',
       find (fun x => Link.id x =? Link.id l) (links db') = Some l'
       /\ match r with
          | Ok Processed =>
              Link.status l' = ready
              \/ (Link.status l' = error
                  /\ exists html e,
                       returned (App.fetch_html offline_env (Link.url l)) = Ok html
                       /\ App._extract_text_from_html offline_env html = Raise e)
          | Ok Idle => False
          | Raise e => e = PendingRollbackError /\ Link.status l' = processing
          end.
Proof.
  assert (Hnd : NoDup (map Link.id (links queue_db))).
  { cbn. repeat constructor; cbn; intuition discriminate. }
  split; [reflexivity|]. split; [exact Hnd|].
  exact (worker_iteration_outcome offline_env queue_db 9 []
           (queued_link 2 1 (lit "http://b.com/") [] 5) eq_refl Hnd eq_refl).
Defined.





(** ** The loop drains the queue *)

Lemma queued_count_replace (pre post : list Link.t) (ts ts' : list LinkTag.t)
    (l l' : Link.t) :
  Link.status l = queued ->
  Link.status l' <> queued ->
  queued_count {| links := pre ++ l :: post; link_tags := ts |}
  = S (queued_count {| links := pre ++ l' :: post; link_tags := ts' |}).
Proof.
  intros Hl Hl'. unfold queued_count. cbn [links].
  rewrite !filter_app, !length_app. cbn [filter]. rewrite Hl. cbn [status_eqb].
  replace (status_eqb (Link.status l') queued) with false.
  - cbn [List.length]. lia.
  - symmetry. destruct (Link.status l'); cbn; congruence.
Qed.

Lemma worker_loop_counts (E : Env) (clock : list Z) (db : DB) (wire : list str) :
  constraints_ok db = true ->
  NoDup (map Link.id (links db)) ->
  let '(db', wire', r) := worker_loop E clock db wire in
  match r with
  | Ok _ =>
      queued_count db' = (queued_count db - List.length clock)%nat
      /\ List.length wire'
         = (List.length wire + Nat.min (List.length clock) (queued_count db))%nat
      /\ map Link.id (links db') = map Link.id (links db)
      /\ constraints_ok db' = true
  | Raise e => e = PendingRollbackError
  end.
Proof.
  revert db wire. induction clock as [|now later IH]; intros db wire Hok Hnd.
  - cbn. repeat split; auto; lia.
  - cbn [worker_loop List.length].
    destruct (select_next_queued db) as [l|] eqn:Hsel.
    + destruct (run_iteration_claimed E db now wire l Hok Hnd Hsel)
        as (pre & post & html & Hl & _ & ->).
      destruct (select_next_queued_spec _ _ Hsel) as (_ & _ & _ & Hq & _).
      assert (Hstep : forall l' ts',
                Link.id l' = Link.id l -> Link.status l' <> queued ->
                constraints_ok {| links := pre ++ l' :: post; link_tags := ts' |} = true ->
                let '(db', wire', r) :=
                  worker_loop E later {| links := pre ++ l' :: post; link_tags := ts' |}
                              (Link.url l :: wire) in
                match r with
                | Ok _ =>
                    queued_count db' = (queued_count db - S (List.length later))%nat
                    /\ List.length wire'
                       = (List.length wire
                          + Nat.min (S (List.length later)) (queued_count db))%nat
                    /\ map Link.id (links db') = map Link.id (links db)
                    /\ constraints_ok db' = true
                | Raise e => e = PendingRollbackError
                end).
      { intros l' ts' Hid Hst Hok'.
        assert (Hnd' : NoDup (map Link.id (pre ++ l' :: post))).
        { rewrite Hl in Hnd. rewrite map_app in *. cbn [map] in *. rewrite Hid. exact Hnd. }
        specialize (IH {| links := pre ++ l' :: post; link_tags := ts' |}
                       (Link.url l :: wire) Hok' Hnd').
        destruct (worker_loop E later _ _) as [[db' wire'] [u|e]]; [|exact IH].
        destruct IH as (H1 & H2 & H3 & H4).
        assert (Hc : queued_count db
                     = S (queued_count {| links := pre ++ l' :: post; link_tags := ts' |})).
        { destruct db as [ls ts]. cbn [links] in Hl. subst ls.
          apply queued_count_replace; assumption. }
        rewrite Hc. cbn [List.length] in H2.
        split; [rewrite H1; lia|]. split; [rewrite H2; lia|].
        split; [|exact H4]. rewrite H3. cbn [links]. rewrite Hl, !map_app. cbn [map].
        rewrite Hid. reflexivity. }
      destruct (App._extract_text_from_html E html) as [[t d]|e].
      * destruct (ai_enrich _ _ _ _) as [[s c] tags]. cbv zeta.
        destruct (unique_ok _ _) eqn:Hu; [|reflexivity].
        apply (Hstep (processed_row l t s c now)); [reflexivity | discriminate|].
        rewrite constraints_ok_unique. exact Hu.
      * apply (Hstep (set_status l error now)); [reflexivity | discriminate|].
        rewrite <- Hok. destruct db; reflexivity.
    + rewrite run_iteration_idle by exact Hsel.
      specialize (IH db wire Hok Hnd).
      destruct (worker_loop E later db wire) as [[db' wire'] [u|e]]; [|exact IH].
      destruct IH as (H1 & H2 & H3 & H4).
      assert (Hz : queued_count db = O).
      { unfold queued_count. unfold select_next_queued in Hsel.
        apply oldest_none in Hsel. rewrite Hsel. reflexivity. }
      rewrite Hz in *. repeat split; auto; lia.
Qed.

(** The loop drains the queue one link per iteration: when [n]
    iterations end normally on a consistent table, the number of
    queued links has gone down by [n] (to zero when there were fewer),
    the HTTP client was called once for each link taken and not
    otherwise, and no link was added or removed.  The only exception
    that ends the loop is [PendingRollbackError]. *)
Theorem worker_loop_drains_queue
    (E : Env) (clock : list Z) (db : DB) (wire : list str) :
  constraints_ok db = true ->
  NoDup (map Link.id (links db)) ->
  let '(db', wire', r) := worker_loop E clock db wire in
  match r with
  | Ok _ =>
      queued_count db' = (queued_count db - List.length clock)%nat
      /\ List.length wire'
         = (List.length wire + Nat.min (List.length clock) (queued_count db))%nat
      /\ map Link.id (links db') = map Link.id (links db)
      /\ constraints_ok db' = true
  | Raise e => e = PendingRollbackError
  end.
Proof. exact (worker_loop_counts E clock db wire). Qed.

Lemma worker_loop_drains_queue_witness :
  constraints_ok queue_db = true
  /\ NoDup (map Link.id (links queue_db))
  /\ queued_count queue_db = 2%nat
  /\ let '(db', wire', r) := worker_loop offline_env [10; 11; 12]%Z queue_db [] in
     match r with
     | Ok _ =>
         queued_count db' = (queued_count queue_db - List.length [10; 11; 12]%Z)%nat
         /\ List.length wire'
            = (List.length (@nil str)
               + Nat.min (List.length [10; 11; 12]%Z) (queued_count queue_db))%nat
         /\ map Link.id (links db') = map Link.id (links queue_db)
         /\ constraints_ok db' = true
     | Raise e => e = PendingRollbackError
     end.
Proof.
  assert (Hnd : NoDup (map Link.id (links queue_db))).
  { cbn. repeat constructor; cbn; intuition discriminate. }
  split; [reflexivity|]. split; [exact Hnd|]. split; [reflexivity|].
  exact (worker_loop_drains_queue offline_env [10; 11; 12]%Z queue_db [] eq_refl Hnd).
Defined.

(** ** Request handlers: ownership *)

Lemma owned_link_run (db : DB) (w : list str) (link_id user_id : N) (detail : str) :
  owned_link link_id user_id detail {| session := SessionLocal db; sent := w |}
  = ({| session := SessionLocal db; sent := w |},
     match link_of db link_id user_id with
     | Some l => Ok l
     | None => Raise (HTTPException 404 detail)
     end).
Proof.
  unfold owned_link, link_of, get_link.
  cbv [mbind query on_session raise ret SessionLocal session view store tx sent].
  destruct (find _ _) as [l|]; [|reflexivity].
  destruct (Link.user_id l =? user_id); reflexivity.
Qed.

Lemma get_db_raise {A} (h : M A) (db : DB) (e : exn) :
  h {| session := SessionLocal db; sent := [] |}
  = ({| session := SessionLocal db; sent := [] |}, Raise e) ->
  get_db h db = (db, Raise e).
Proof.
  intros H. unfold get_db, finally. rewrite H.
  cbv [close on_session session view store tx sent SessionLocal]. reflexivity.
Qed.

(** A handler that changes a link or its tags answers 404 and changes
    nothing when the link does not exist or belongs to another user
    ([add_user_tag] answers 400 first when the name is blank). *)
Theorem handlers_refuse_foreign_links
    (E : Env) (D : Dialect) (db : DB) (link_id user_id : N) (name : str)
    (now flushed : Z) :
  link_of db link_id user_id = None ->
  get_db (archive_link link_id user_id now flushed) db
  = (db, Raise (HTTPException 404 (lit "link not found")))
  /\ get_db (unarchive_link link_id user_id flushed) db
     = (db, Raise (HTTPException 404 (lit "link not found")))
  /\ get_db (add_user_tag E link_id user_id (Some name) now) db
     = (db, Raise (match lower E (strip name) with
                   | [] => HTTPException 400 (lit "name required")
                   | _ => HTTPException 404 (lit "link not found")
                   end))
  /\ get_db (remove_user_tag E link_id user_id name) db
     = (db, Raise (HTTPException 404 (lit "link not found")))
  /\ get_db (api_add_tag E D link_id user_id name now) db
     = (db, Raise (HTTPException 404 (lit "Link not found")))
  /\ get_db (api_delete_tag E D link_id user_id name) db
     = (db, Raise (HTTPException 404 (lit "Link not found"))).
Proof.
  intros Hno.
  repeat split; apply get_db_raise.
  - unfold archive_link. unfold mbind at 1. rewrite owned_link_run, Hno. reflexivity.
  - unfold unarchive_link. unfold mbind at 1. rewrite owned_link_run, Hno. reflexivity.
  - unfold add_user_tag. rewrite str_or_nil_r.
    destruct (lower E (strip name)); [reflexivity|].
    unfold mbind at 1. rewrite owned_link_run, Hno. reflexivity.
  - unfold remove_user_tag. unfold mbind at 1. rewrite owned_link_run, Hno. reflexivity.
  - unfold api_add_tag. unfold mbind at 1. rewrite owned_link_run, Hno. reflexivity.
  - unfold api_delete_tag. unfold mbind at 1. rewrite owned_link_run, Hno. reflexivity.
Qed.

Lemma handlers_refuse_foreign_links_witness :
  link_of library_db 3 1 = None
  /\ get_db (archive_link 3 1 10 11) library_db
     = (library_db, Raise (HTTPException 404 (lit "link not found")))
  /\ get_db (api_delete_tag offline_env ascii_dialect 3 1 (lit "rust")) library_db
     = (library_db, Raise (HTTPException 404 (lit "Link not found"))).
Proof.
  pose proof (handlers_refuse_foreign_links offline_env ascii_dialect library_db 3 1
                (lit "rust") 10 11 eq_refl) as (H1 & _ & _ & _ & _ & H6).
  split; [reflexivity|]. split; [exact H1 | exact H6].
Defined.

(** ** Archive and unarchive *)

Lemma find_split {A} (f : A -> bool) (xs : list A) (x : A) :
  find f xs = Some x -> exists pre post, xs = pre ++ x :: post /\ f x = true.
Proof.
  induction xs as [|y xs IH]; cbn; [discriminate|].
  destruct (f y) eqn:Hy.
  - intros [= <-]. exists [], xs. split; [reflexivity | exact Hy].
  - intros H. destruct (IH H) as (pre & post & -> & Hx).
    exists (y :: pre), post. split; [reflexivity | exact Hx].
Qed.

Lemma link_of_split (db : DB) (link_id user_id : N) (l : Link.t) :
  link_of db link_id user_id = Some l ->
  exists pre post,
    links db = pre ++ l :: post /\ Link.id l = link_id /\ Link.user_id l = user_id.
Proof.
  unfold link_of. destruct (find _ _) as [x|] eqn:Hf; [|discriminate].
  destruct (N.eqb_spec (Link.user_id x) user_id) as [Hu|]; [|discriminate].
  intros [= <-]. destruct (find_split _ _ _ Hf) as (pre & post & Hl & Hid).
  apply N.eqb_eq in Hid. exists pre, post. auto.
Qed.

Lemma link_of_row (pre post : list Link.t) (ts : list LinkTag.t) (l : Link.t) :
  NoDup (map Link.id (pre ++ l :: post)) ->
  link_of {| links := pre ++ l :: post; link_tags := ts |} (Link.id l) (Link.user_id l)
  = Some l.
Proof.
  intros Hnd. unfold link_of. cbn [links].
  rewrite (find_row_unique pre post l Hnd), N.eqb_refl. reflexivity.
Qed.

Lemma set_archived_at_content (l : Link.t) (v : option Z) (flushed : Z) :
  same_content (set_archived_at l v flushed) l.
Proof.
  unfold set_archived_at. destruct (option_Z_eqb _ _); repeat split.
Qed.

Lemma option_Z_eqb_eq (a b : option Z) : option_Z_eqb a b = true <-> a = b.
Proof.
  destruct a as [x|], b as [y|]; cbn; try (split; congruence).
  rewrite Z.eqb_eq. split; congruence.
Qed.

Lemma set_archived_at_value (l : Link.t) (v : option Z) (flushed : Z) :
  Link.archived_at (set_archived_at l v flushed) = v.
Proof.
  unfold set_archived_at. destruct (option_Z_eqb _ _) eqn:H; [|reflexivity].
  apply option_Z_eqb_eq. exact H.
Qed.

(** The shared body of [archive_link] and [unarchive_link]. *)
Lemma set_archived_at_run
    (pre post : list Link.t) (ts : list LinkTag.t) (l : Link.t) (v : option Z)
    (flushed : Z) :
  constraints_ok {| links := pre ++ l :: post; link_tags := ts |} = true ->
  NoDup (map Link.id (pre ++ l :: post)) ->
  get_db (x <~ owned_link (Link.id l) (Link.user_id l) (lit "link not found") ;;
          put_link (set_archived_at x v flushed) >> commit)
         {| links := pre ++ l :: post; link_tags := ts |}
  = ({| links := pre ++ set_archived_at l v flushed :: post; link_tags := ts |}, Ok tt).
Proof.
  intros Hok Hnd. unfold get_db, finally. unfold mbind at 1.
  rewrite owned_link_run, link_of_row by exact Hnd.
  unfold mbind, put_link.
  cbv [modify commit close on_session SessionLocal session view store tx sent].
  cbn [links link_tags].
  match goal with
  | |- context [constraints_ok ?d] =>
      replace (constraints_ok d) with true by (rewrite <- Hok; reflexivity)
  end.
  cbn [session store].
  rewrite put_row_unique; [reflexivity | exact Hnd |].
  destruct (set_archived_at_content l v flushed) as (Hid & _). exact Hid.
Qed.

(** Archiving a link the user owns sets [archived_at] and leaves its
    status, title, summary, category, URL and every other row as they
    were; unarchiving afterwards clears [archived_at] again. *)
Theorem archive_link_keeps_content
    (db : DB) (link_id user_id : N) (now flushed flushed2 : Z) (l : Link.t) :
  constraints_ok db = true ->
  NoDup (map Link.id (links db)) ->
  link_of db link_id user_id = Some l ->
  exists pre post l1 l2,
    links db = pre ++ l :: post
    /\ get_db (archive_link link_id user_id now flushed) db
       = ({| links := pre ++ l1 :: post; link_tags := link_tags db |}, Ok tt)
    /\ Link.archived_at l1 = Some now
    /\ same_content l1 l
    /\ get_db (unarchive_link link_id user_id flushed2)
              {| links := pre ++ l1 :: post; link_tags := link_tags db |}
       = ({| links := pre ++ l2 :: post; link_tags := link_tags db |}, Ok tt)
    /\ Link.archived_at l2 = None
    /\ same_content l2 l.
Proof.
  intros Hok Hnd Hl.
  destruct (link_of_split _ _ _ _ Hl) as (pre & post & Hls & <- & <-).
  destruct db as [ls ts]. cbn [links link_tags] in *. subst ls.
  set (l1 := set_archived_at l (Some now) flushed).
  set (l2 := set_archived_at l1 None flushed2).
  pose proof (set_archived_at_content l (Some now) flushed) as Hc1.
  pose proof (set_archived_at_content l1 None flushed2) as Hc2.
  fold l1 in Hc1. fold l2 in Hc2.
  assert (Hid1 : Link.id l1 = Link.id l) by apply Hc1.
  assert (Hu1 : Link.user_id l1 = Link.user_id l) by apply Hc1.
  assert (Hnd1 : NoDup (map Link.id (pre ++ l1 :: post))).
  { rewrite map_app in *. cbn [map] in *. rewrite Hid1. exact Hnd. }
  exists pre, post, l1, l2.
  split; [reflexivity|]. split; [apply set_archived_at_run; assumption|].
  split; [apply set_archived_at_value|]. split; [exact Hc1|]. split.
  { unfold unarchive_link. rewrite <- Hid1, <- Hu1.
    apply set_archived_at_run; [exact Hok | exact Hnd1]. }
  split; [apply set_archived_at_value|].
  unfold same_content in *.
  repeat match goal with H : _ /\ _ |- _ => destruct H end.
  repeat split; congruence.
Qed.

Lemma archive_link_keeps_content_witness :
  constraints_ok library_db = true
  /\ NoDup (map Link.id (links library_db))
  /\ link_of library_db 1 1
     = Some (set_status (queued_link 1 1 (lit "http://a.com/") (lit "A") 3) ready 4)
  /\ exists pre post l1 l2,
       links library_db
       = pre ++ set_status (queued_link 1 1 (lit "http://a.com/") (lit "A") 3) ready 4
             :: post
       /\ get_db (archive_link 1 1 10 11) library_db
          = ({| links := pre ++ l1 :: post; link_tags := link_tags library_db |}, Ok tt)
       /\ Link.archived_at l1 = Some 10%Z
       /\ same_content l1
            (set_status (queued_link 1 1 (lit "http://a.com/") (lit "A") 3) ready 4)
       /\ get_db (unarchive_link 1 1 12)
                 {| links := pre ++ l1 :: post; link_tags := link_tags library_db |}
          = ({| links := pre ++ l2 :: post; link_tags := link_tags library_db |}, Ok tt)
       /\ Link.archived_at l2 = None
       /\ same_content l2
            (set_status (queued_link 1 1 (lit "http://a.com/") (lit "A") 3) ready 4).
Proof.
  assert (Hnd : NoDup (map Link.id (links library_db))).
  { cbn. repeat constructor; cbn; intuition discriminate. }
  split; [reflexivity|]. split; [exact Hnd|]. split; [reflexivity|].
  exact (archive_link_keeps_content library_db 1 1 10 11 12 _ eq_refl Hnd eq_refl).
Defined.

(** ** User tags *)

Lemma is_user_tag_eq (link_id : N) (name : str) (t : LinkTag.t) :
  is_user_tag link_id name t = true <->
  LinkTag.link_id t = link_id /\ LinkTag.name t = name /\ LinkTag.submitted_by t = user.
Proof.
  unfold is_user_tag. rewrite !andb_true_iff, N.eqb_eq, str_eqb_eq, origin_eqb_eq. tauto.
Qed.

Lemma filter_nil_iff {A} (f : A -> bool) (xs : list A) :
  filter f xs = [] <-> forall x, In x xs -> f x = false.
Proof.
  induction xs as [|y xs IH]; cbn; [tauto|].
  destruct (f y) eqn:Hy; split.
  - discriminate.
  - intros H. specialize (H y (or_introl eq_refl)). congruence.
  - intros H x [<-|Hx]; [exact Hy | apply IH; assumption].
  - intros H. apply IH. intros x Hx. apply H. right. exact Hx.
Qed.

Lemma filter_negb_all {A} (f : A -> bool) (xs : list A) :
  filter f xs = [] -> filter (fun x => negb (f x)) xs = xs.
Proof.
  induction xs as [|y xs IH]; cbn; [reflexivity|].
  destruct (f y); [discriminate|]. intros H. cbn. rewrite IH by exact H. reflexivity.
Qed.

(** Under the uniqueness constraint at most one row is the user tag of
    a given link and name. *)
Lemma filter_is_user_tag_unique (ts : list LinkTag.t) (link_id : N) (name : str) :
  unique_ok uq_link_tag_name_role ts = true ->
  filter (is_user_tag link_id name) ts = []
  \/ exists pre t post,
       ts = pre ++ t :: post
       /\ filter (is_user_tag link_id name) ts = [t]
       /\ filter (is_user_tag link_id name) pre = []
       /\ filter (is_user_tag link_id name) post = [].
Proof.
  induction ts as [|x ts IH]; cbn; [left; reflexivity|].
  rewrite andb_true_iff, negb_true_iff. intros [Hx Hts].
  destruct (is_user_tag link_id name x) eqn:Hm.
  - right. exists [], x, ts.
    assert (Hnone : filter (is_user_tag link_id name) ts = []).
    { apply filter_nil_iff. intros y Hy.
      destruct (is_user_tag link_id name y) eqn:Hmy; [|reflexivity].
      exfalso.
      assert (existsb (uq_link_tag_name_role x) ts = true); [|congruence].
      apply existsb_exists. exists y. split; [exact Hy|].
      apply is_user_tag_eq in Hm. apply is_user_tag_eq in Hmy.
      apply uq_link_tag_name_role_eq. intuition congruence. }
    rewrite Hnone. repeat split; reflexivity.
  - destruct (IH Hts) as [Hnone | (pre & t & post & -> & Hf & Hpre & Hpost)];
      [left; exact Hnone|].
    right. exists (x :: pre), t, post. cbn. rewrite Hm.
    repeat split; assumption.
Qed.

Lemma unique_ok_filter {A} (same : A -> A -> bool) (f : A -> bool) (xs : list A) :
  unique_ok same xs = true -> unique_ok same (filter f xs) = true.
Proof.
  induction xs as [|x xs IH]; cbn; [reflexivity|].
  rewrite andb_true_iff, negb_true_iff. intros [Hx Hxs].
  destruct (f x); [|apply IH; exact Hxs].
  cbn. rewrite IH by exact Hxs. rewrite andb_true_r. apply negb_true_iff.
  destruct (existsb (same x) (filter f xs)) eqn:He; [|reflexivity].
  apply existsb_exists in He. destruct He as (y & Hy & Hs).
  apply filter_In in Hy. destruct Hy as [Hy _].
  assert (existsb (same x) xs = true); [|congruence].
  apply existsb_exists. exists y. auto.
Qed.

(** The row [add_user_tag] inserts. *)
Lemma unique_ok_snoc_user_tag (ts : list LinkTag.t) (link_id : N) (name : str) (now : Z) :
  unique_ok uq_link_tag_name_role ts = true ->
  filter (is_user_tag link_id name) ts = [] ->
  unique_ok uq_link_tag_name_role
    (ts ++ [ {| LinkTag.id := next_id (map LinkTag.id ts);
                LinkTag.link_id := link_id; LinkTag.name := name;
                LinkTag.submitted_by := user; LinkTag.created_at := now |} ]) = true.
Proof.
  intros Hu Hnone. rewrite unique_ok_app, Hu. cbn [unique_ok existsb negb andb].
  apply forallb_forall. intros x Hx. cbn [existsb]. rewrite orb_false_r.
  apply negb_true_iff.
  destruct (uq_link_tag_name_role x _) eqn:Hs; [|reflexivity].
  apply uq_link_tag_name_role_eq in Hs. cbn in Hs.
  assert (is_user_tag link_id name x = true) by (apply is_user_tag_eq; tauto).
  rewrite (proj1 (filter_nil_iff _ _) Hnone x Hx) in H. discriminate.
Qed.

Lemma existsb_false_filter {A} (f : A -> bool) (xs : list A) :
  existsb f xs = false <-> filter f xs = [].
Proof.
  rewrite filter_nil_iff. split.
  - intros H x Hx. destruct (f x) eqn:Hf; [|reflexivity].
    assert (existsb f xs = true) by (apply existsb_exists; exists x; auto). congruence.
  - intros H. destruct (existsb f xs) eqn:He; [|reflexivity].
    apply existsb_exists in He. destruct He as (x & Hx & Hf).
    rewrite (H x Hx) in Hf. discriminate.
Qed.

Lemma add_user_tag_run_new
    (E : Env) (db : DB) (link_id user_id : N) (raw : str) (now : Z) (l : Link.t) :
  constraints_ok db = true ->
  link_of db link_id user_id = Some l ->
  lower E (strip raw) <> [] ->
  existsb (is_user_tag link_id (lower E (strip raw))) (link_tags db) = false ->
  get_db (add_user_tag E link_id user_id (Some raw) now) db
  = ({| links := links db;
        link_tags := link_tags db ++
          [ {| LinkTag.id := next_id (map LinkTag.id (link_tags db));
               LinkTag.link_id := link_id;
               LinkTag.name := lower E (strip raw);
               LinkTag.submitted_by := user;
               LinkTag.created_at := now |} ] |},
     Ok tt).
Proof.
  intros Hok Hl Hne Hnone. apply existsb_false_filter in Hnone.
  destruct db as [ls ts]. rewrite constraints_ok_unique in Hok. cbn [links link_tags] in *.
  unfold get_db, finally, add_user_tag. rewrite str_or_nil_r.
  set (name := lower E (strip raw)) in *.
  destruct name as [|c name'] eqn:Hname; [congruence|]. rewrite <- Hname in *.
  unfold mbind at 1. rewrite owned_link_run, Hl.
  unfold mbind at 1.
  cbv [query on_session SessionLocal session view store tx sent]. cbn [links link_tags].
  rewrite Hnone. cbn [map scalar_one_or_none].
  unfold mbind at 1. cbv [ret]. unfold mbind, add_link_tag.
  cbv [modify commit close on_session session view store tx sent].
  cbn [links link_tags]. rewrite constraints_ok_unique.
  rewrite unique_ok_snoc_user_tag by assumption. reflexivity.
Qed.

Lemma add_user_tag_run
    (E : Env) (db : DB) (link_id user_id : N) (raw : str) (now : Z) (l : Link.t) :
  constraints_ok db = true ->
  Forall (fun t => LinkTag.id t <> 0) (link_tags db) ->
  link_of db link_id user_id = Some l ->
  lower E (strip raw) <> [] ->
  get_db (add_user_tag E link_id user_id (Some raw) now) db
  = (if existsb (is_user_tag link_id (lower E (strip raw))) (link_tags db) then db
     else {| links := links db;
             link_tags := link_tags db ++
               [ {| LinkTag.id := next_id (map LinkTag.id (link_tags db));
                    LinkTag.link_id := link_id;
                    LinkTag.name := lower E (strip raw);
                    LinkTag.submitted_by := user;
                    LinkTag.created_at := now |} ] |},
     Ok tt).
Proof.
  intros Hok Hids Hl Hne.
  destruct (existsb _ (link_tags db)) eqn:Hex;
    [|apply (add_user_tag_run_new E db link_id user_id raw now l); assumption].
  destruct db as [ls ts]. rewrite constraints_ok_unique in Hok. cbn [links link_tags] in *.
  unfold get_db, finally, add_user_tag. rewrite str_or_nil_r.
  set (name := lower E (strip raw)) in *.
  destruct name as [|c name'] eqn:Hname; [congruence|]. rewrite <- Hname in *.
  unfold mbind at 1. rewrite owned_link_run, Hl.
  unfold mbind at 1.
  cbv [query on_session SessionLocal session view store tx sent]. cbn [links link_tags].
  destruct (filter_is_user_tag_unique ts link_id name Hok)
    as [Hnone | (pre & t & post & Hts & Hone & _ & _)].
  - apply existsb_false_filter in Hnone. congruence.
  - rewrite Hone. cbn [map scalar_one_or_none].
    unfold mbind at 1. cbv [ret].
    assert (Hin : In t ts) by (rewrite Hts; apply in_or_app; right; left; reflexivity).
    assert (Hid : (LinkTag.id t =? 0) = false).
    { apply N.eqb_neq. exact (proj1 (Forall_forall _ _) Hids t Hin). }
    rewrite Hid.
    cbv [close on_session session view store tx sent]. reflexivity.
Qed.

(** [add_user_tag] on a link the user owns stores the name stripped
    and in lower case: afterwards the link has exactly one user tag of
    that name, rows are only ever appended, the uniqueness constraint
    holds, and a second call with the same name changes nothing. *)
Theorem add_user_tag_idempotent
    (E : Env) (db : DB) (link_id user_id : N) (raw : str) (now now2 : Z) (l : Link.t) :
  constraints_ok db = true ->
  Forall (fun t => LinkTag.id t <> 0) (link_tags db) ->
  link_of db link_id user_id = Some l ->
  lower E (strip raw) <> [] ->
  exists db',
    get_db (add_user_tag E link_id user_id (Some raw) now) db = (db', Ok tt)
    /\ links db' = links db
    /\ (link_tags db' = link_tags db
        \/ exists t, link_tags db' = link_tags db ++ [t])
    /\ (exists t, filter (is_user_tag link_id (lower E (strip raw))) (link_tags db') = [t])
    /\ constraints_ok db' = true
    /\ get_db (add_user_tag E link_id user_id (Some raw) now2) db' = (db', Ok tt).
Proof.
  intros Hok Hids Hl Hne.
  rewrite (add_user_tag_run E db link_id user_id raw now l Hok Hids Hl Hne).
  set (name := lower E (strip raw)) in *.
  assert (Huq : unique_ok uq_link_tag_name_role (link_tags db) = true).
  { destruct db. rewrite constraints_ok_unique in Hok. exact Hok. }
  destruct (existsb (is_user_tag link_id name) (link_tags db)) eqn:Hex.
  - exists db. split; [reflexivity|]. split; [reflexivity|].
    split; [left; reflexivity|]. split.
    { destruct (filter_is_user_tag_unique (link_tags db) link_id name Huq)
        as [Hnone | (pre & t & post & _ & Hone & _)]; [|exists t; exact Hone].
      apply existsb_exists in Hex. destruct Hex as (y & Hy & Hm).
      rewrite (proj1 (filter_nil_iff _ _) Hnone y Hy) in Hm. discriminate. }
    split; [exact Hok|].
    rewrite (add_user_tag_run E db link_id user_id raw now2 l Hok Hids Hl Hne).
    fold name. rewrite Hex. reflexivity.
  - assert (Hnone : filter (is_user_tag link_id name) (link_tags db) = []).
    { apply filter_nil_iff. intros y Hy.
      destruct (is_user_tag link_id name y) eqn:Hm; [|reflexivity].
      assert (existsb (is_user_tag link_id name) (link_tags db) = true); [|congruence].
      apply existsb_exists. exists y. auto. }
    eexists. split; [reflexivity|]. cbn [links link_tags].
    split; [reflexivity|]. split; [right; eexists; reflexivity|].
    assert (Hnew : is_user_tag link_id name
              {| LinkTag.id := next_id (map LinkTag.id (link_tags db));
                 LinkTag.link_id := link_id; LinkTag.name := name;
                 LinkTag.submitted_by := user; LinkTag.created_at := now |} = true).
    { apply is_user_tag_eq. repeat split. }
    split.
    { eexists. rewrite filter_app, Hnone. cbn [filter app]. rewrite Hnew. reflexivity. }
    assert (Hok' : constraints_ok
              {| links := links db;
                 link_tags := link_tags db ++
                   [ {| LinkTag.id := next_id (map LinkTag.id (link_tags db));
                        LinkTag.link_id := link_id; LinkTag.name := name;
                        LinkTag.submitted_by := user; LinkTag.created_at := now |} ] |}
              = true).
    { rewrite constraints_ok_unique. apply unique_ok_snoc_user_tag; assumption. }
    split; [exact Hok'|].
    rewrite (add_user_tag_run E _ link_id user_id raw now2 l Hok').
    + fold name. cbn [link_tags]. rewrite existsb_app. cbn [existsb].
      rewrite Hnew, orb_true_r. reflexivity.
    + cbn [link_tags]. apply Forall_app. split; [exact Hids|].
      constructor; [|constructor]. cbn [LinkTag.id]. unfold next_id. lia.
    + exact Hl.
    + exact Hne.
Qed.

Lemma add_user_tag_idempotent_witness :
  constraints_ok library_db = true
  /\ Forall (fun t => LinkTag.id t <> 0) (link_tags library_db)
  /\ lower offline_env (strip (lit " Python ")) = lit "python"
  /\ exists db',
       get_db (add_user_tag offline_env 1 1 (Some (lit " Python ")) 20) library_db
       = (db', Ok tt)
       /\ links db' = links library_db
       /\ (link_tags db' = link_tags library_db
           \/ exists t, link_tags db' = link_tags library_db ++ [t])
       /\ (exists t,
             filter (is_user_tag 1 (lower offline_env (strip (lit " Python "))))
                    (link_tags db') = [t])
       /\ constraints_ok db' = true
       /\ get_db (add_user_tag offline_env 1 1 (Some (lit " Python ")) 21) db'
          = (db', Ok tt).
Proof.
  assert (Hids : Forall (fun t => LinkTag.id t <> 0) (link_tags library_db)).
  { repeat constructor; discriminate. }
  split; [reflexivity|]. split; [exact Hids|]. split; [reflexivity|].
  exact (add_user_tag_idempotent offline_env library_db 1 1 (lit " Python ") 20 21 _
           eq_refl Hids eq_refl ltac:(discriminate)).
Defined.

Lemma filter_other_ids (pre post : list LinkTag.t) (t : LinkTag.t) :
  NoDup (map LinkTag.id (pre ++ t :: post)) ->
  filter (fun r => negb (LinkTag.id r =? LinkTag.id t)) (pre ++ t :: post) = pre ++ post.
Proof.
  intros Hnd. rewrite map_app in Hnd. cbn [map] in Hnd. apply NoDup_remove_2 in Hnd.
  assert (Hkeep : forall xs, (forall x, In x xs -> LinkTag.id x <> LinkTag.id t) ->
            filter (fun r => negb (LinkTag.id r =? LinkTag.id t)) xs = xs).
  { induction xs as [|x xs IH]; cbn; intros Hx; [reflexivity|].
    destruct (N.eqb_spec (LinkTag.id x) (LinkTag.id t)) as [e|_].
    - destruct (Hx x (or_introl eq_refl) e).
    - cbn. rewrite IH; auto. }
  rewrite filter_app. cbn [filter]. rewrite N.eqb_refl. cbn [negb].
  rewrite !Hkeep; [reflexivity| |].
  - intros x Hx e. apply Hnd. apply in_or_app. right. rewrite <- e. apply in_map. exact Hx.
  - intros x Hx e. apply Hnd. apply in_or_app. left. rewrite <- e. apply in_map. exact Hx.
Qed.

Lemma remove_user_tag_run
    (E : Env) (db : DB) (link_id user_id : N) (raw : str) (l : Link.t) :
  constraints_ok db = true ->
  NoDup (map LinkTag.id (link_tags db)) ->
  link_of db link_id user_id = Some l ->
  get_db (remove_user_tag E link_id user_id raw) db
  = ({| links := links db;
        link_tags :=
          filter (fun t => negb (is_user_tag link_id (lower E (strip raw)) t))
                 (link_tags db) |},
     Ok tt).
Proof.
  intros Hok Hnd Hl.
  destruct db as [ls ts]. rewrite constraints_ok_unique in Hok. cbn [links link_tags] in *.
  unfold get_db, finally, remove_user_tag. rewrite str_or_nil_r.
  set (name := lower E (strip raw)) in *.
  unfold mbind at 1. rewrite owned_link_run, Hl.
  unfold mbind at 1.
  cbv [query on_session SessionLocal session view store tx sent]. cbn [links link_tags].
  destruct (filter_is_user_tag_unique ts link_id name Hok)
    as [Hnone | (pre & t & post & Hts & Hone & Hpre & Hpost)].
  - rewrite Hnone. cbn [scalar_one_or_none]. unfold mbind at 1.
    cbv [ret close on_session session view store tx sent].
    rewrite filter_negb_all by exact Hnone. reflexivity.
  - rewrite Hone. cbn [scalar_one_or_none]. unfold mbind at 1. cbv [ret].
    assert (Hm : is_user_tag link_id name t = true).
    { assert (In t (filter (is_user_tag link_id name) ts)) by (rewrite Hone; left; reflexivity).
      apply filter_In in H. tauto. }
    assert (Hrest : filter (fun x => negb (is_user_tag link_id name x)) ts = pre ++ post).
    { rewrite Hts, filter_app. cbn [filter]. rewrite Hm. cbn [negb].
      rewrite !filter_negb_all by assumption. reflexivity. }
    assert (Hdel : filter (fun r => negb (LinkTag.id r =? LinkTag.id t)) ts
                   = filter (fun x => negb (is_user_tag link_id name x)) ts).
    { rewrite Hrest. rewrite Hts. apply filter_other_ids. rewrite <- Hts. exact Hnd. }
    unfold mbind, delete_link_tag.
    cbv [modify commit close on_session session view store tx sent].
    cbn [links link_tags]. rewrite constraints_ok_unique.
    rewrite Hdel. rewrite unique_ok_filter by exact Hok. reflexivity.
Qed.

(** [remove_user_tag] on a link the user owns deletes the user tag of
    the stripped, lower-cased name from that link and nothing else:
    system tags, other names and other links keep their rows, in order.
    Removing a tag that [add_user_tag] has just added gives back the
    table as it was. *)
Theorem remove_user_tag_removes_only_user_tag
    (E : Env) (db : DB) (link_id user_id : N) (raw : str) (now : Z) (l : Link.t) :
  constraints_ok db = true ->
  NoDup (map LinkTag.id (link_tags db)) ->
  link_of db link_id user_id = Some l ->
  get_db (remove_user_tag E link_id user_id raw) db
  = ({| links := links db;
        link_tags :=
          filter (fun t => negb ((LinkTag.link_id t =? link_id)
                                 && str_eqb (LinkTag.name t) (lower E (strip raw))
                                 && origin_eqb (LinkTag.submitted_by t) user))
                 (link_tags db) |},
     Ok tt)
  /\ (lower E (strip raw) <> [] ->
      existsb (is_user_tag link_id (lower E (strip raw))) (link_tags db) = false ->
      get_db (remove_user_tag E link_id user_id raw)
             (fst (get_db (add_user_tag E link_id user_id (Some raw) now) db))
      = (db, Ok tt)).
Proof.
  intros Hok Hnd Hl. split.
  - exact (remove_user_tag_run E db link_id user_id raw l Hok Hnd Hl).
  - intros Hne Hnone.
    rewrite (add_user_tag_run_new E db link_id user_id raw now l Hok Hl Hne Hnone).
    cbn [fst].
    set (name := lower E (strip raw)) in *.
    set (t := {| LinkTag.id := next_id (map LinkTag.id (link_tags db));
                 LinkTag.link_id := link_id; LinkTag.name := name;
                 LinkTag.submitted_by := user; LinkTag.created_at := now |}).
    assert (Huq : unique_ok uq_link_tag_name_role (link_tags db) = true).
    { destruct db. rewrite constraints_ok_unique in Hok. exact Hok. }
    apply existsb_false_filter in Hnone.
    rewrite (remove_user_tag_run E _ link_id user_id raw l).
    + fold name. cbn [links link_tags]. rewrite filter_app.
      rewrite filter_negb_all by exact Hnone.
      cbn [filter]. replace (is_user_tag link_id name t) with true.
      * cbn [negb]. rewrite app_nil_r. destruct db; reflexivity.
      * symmetry. apply is_user_tag_eq. repeat split.
    + rewrite constraints_ok_unique. apply unique_ok_snoc_user_tag; assumption.
    + cbn [link_tags]. rewrite map_app. cbn [map].
      apply NoDup_app; [exact Hnd | repeat constructor; intros [] |].
      intros x Hx [<-|[]]. apply next_id_fresh in Hx. exact Hx.
    + exact Hl.
Qed.

Lemma remove_user_tag_removes_only_user_tag_witness :
  constraints_ok library_db = true
  /\ NoDup (map LinkTag.id (link_tags library_db))
  /\ map LinkTag.name
       (link_tags (fst (get_db (remove_user_tag offline_env 1 1 (lit " AI ")) library_db)))
     = [lit "ai"; lit "python"; lit "rust"]
  /\ get_db (remove_user_tag offline_env 1 1 (lit "Go"))
            (fst (get_db (add_user_tag offline_env 1 1 (Some (lit "Go")) 20) library_db))
     = (library_db, Ok tt).
Proof.
  assert (Hnd : NoDup (map LinkTag.id (link_tags library_db))).
  { cbn. repeat constructor; cbn; intuition discriminate. }
  pose proof (remove_user_tag_removes_only_user_tag offline_env library_db 1 1
                (lit "Go") 20 _ eq_refl Hnd eq_refl) as [_ H].
  split; [reflexivity|]. split; [exact Hnd|]. split; [reflexivity|].
  apply H; [discriminate | reflexivity].
Defined.

(** ** The tag API with case-insensitive names *)

Lemma firstn_cap (n : nat) (s : str) :
  (if (n <? List.length s)%nat then firstn n s else s) = firstn n s.
Proof.
  destruct (Nat.ltb_spec n (List.length s)); [reflexivity|].
  symmetry. apply firstn_all2. exact H.
Qed.

Lemma split_tags_run (db : DB) (st : DB) (w : list str) (link_id : N) :
  split_tags link_id {| session := {| store := st; view := db; tx := Active |}; sent := w |}
  = ({| session := {| store := st; view := db; tx := Active |}; sent := w |},
     Ok (existing_user db link_id, existing_sys db link_id)).
Proof. reflexivity. Qed.

Lemma unique_ok_snoc_false (ts : list LinkTag.t) (t : LinkTag.t) :
  unique_ok uq_link_tag_name_role ts = true ->
  unique_ok uq_link_tag_name_role (ts ++ [t]) = false ->
  exists x, In x ts /\ uq_link_tag_name_role x t = true.
Proof.
  intros Hu H. rewrite unique_ok_app, Hu in H.
  change (unique_ok uq_link_tag_name_role [t]) with true in H. cbn [andb] in H.
  destruct (existsb (fun x => uq_link_tag_name_role x t) ts) eqn:He.
  - apply existsb_exists in He. exact He.
  - exfalso. assert (Hall : forallb (fun x => negb (existsb (uq_link_tag_name_role x) [t])) ts
                            = true); [|rewrite Hall in H; discriminate].
    apply forallb_forall. intros x Hx. cbn [existsb]. rewrite orb_false_r.
    apply negb_true_iff.
    destruct (uq_link_tag_name_role x t) eqn:Hs; [|reflexivity].
    assert (existsb (fun x => uq_link_tag_name_role x t) ts = true); [|congruence].
    apply existsb_exists. exists x. auto.
Qed.

Lemma is_user_tag_nocase_eq (E : Env) (D : Dialect) (link_id : N) (name : str)
    (t : LinkTag.t) :
  is_user_tag_nocase E D link_id name t = true <->
  LinkTag.link_id t = link_id
  /\ func_lower D (LinkTag.name t) = lower E name
  /\ LinkTag.submitted_by t = user.
Proof.
  unfold is_user_tag_nocase.
  rewrite !andb_true_iff, N.eqb_eq, str_eqb_eq, origin_eqb_eq. tauto.
Qed.

Lemma existing_sys_app_user (ls ls' : list Link.t) (ts : list LinkTag.t) (t : LinkTag.t)
    (link_id : N) :
  LinkTag.submitted_by t = user ->
  existing_sys {| links := ls; link_tags := ts ++ [t] |} link_id
  = existing_sys {| links := ls'; link_tags := ts |} link_id.
Proof.
  intros Hu. unfold existing_sys. cbn [link_tags]. rewrite !filter_app, map_app.
  cbn [filter]. destruct (LinkTag.link_id t =? link_id); cbn [filter];
    [rewrite Hu|]; cbn; apply app_nil_r.
Qed.

(** What [api_add_tag] does on a link the user owns, by the row it
    finds and the outcome of the commit. *)
Lemma api_add_tag_run
    (E : Env) (D : Dialect) (db : DB) (link_id user_id : N) (raw : str) (now : Z)
    (l : Link.t) :
  link_of db link_id user_id = Some l ->
  strip raw <> [] ->
  let name := firstn 64 (strip raw) in
  let t := {| LinkTag.id := next_id (map LinkTag.id (link_tags db));
              LinkTag.link_id := link_id; LinkTag.name := name;
              LinkTag.submitted_by := user; LinkTag.created_at := now |} in
  let db' :=
    match filter (is_user_tag_nocase E D link_id name) (link_tags db) with
    | _ :: _ => db
    | [] =>
        if unique_ok uq_link_tag_name_role (link_tags db ++ [t])
        then {| links := links db; link_tags := link_tags db ++ [t] |}
        else db
    end in
  get_db (api_add_tag E D link_id user_id raw now) db
  = (db', Ok (existing_user db' link_id, existing_sys db' link_id)).
Proof.
  intros Hl Hne. cbv zeta.
  destruct (link_of_split _ _ _ _ Hl) as (_ & _ & _ & Hid & _).
  destruct db as [ls ts]. cbn [links link_tags] in *.
  unfold get_db, finally, api_add_tag. rewrite str_or_nil_r.
  unfold mbind at 1. rewrite owned_link_run, Hl.
  destruct (strip raw) as [|c rest] eqn:Hs; [congruence|]. rewrite <- Hs.
  rewrite firstn_cap. rewrite Hid.
  unfold mbind at 1. unfold mbind at 1.
  cbv [query on_session SessionLocal session view store tx sent]. cbn [links link_tags].
  destruct (filter _ ts) as [|x xs]; cbn [hd_error].
  - unfold try_, mbind at 1. unfold add_link_tag.
    cbv [modify commit on_session session view store tx sent]. cbn [links link_tags].
    rewrite constraints_ok_unique.
    destruct (unique_ok _ _).
    + cbv [mbind ret]. rewrite split_tags_run.
      cbv [close on_session session view store tx sent]. reflexivity.
    + cbv [rollback on_session session view store tx sent]. rewrite split_tags_run.
      cbv [close on_session session view store tx sent]. reflexivity.
  - cbv [ret]. rewrite split_tags_run.
    cbv [close on_session session view store tx sent]. reflexivity.
Qed.

(** [api_add_tag] on a link the user owns never fails on a consistent
    table and never stores a tag twice: it appends at most one row, the
    user tag with the stripped name cut to 64 characters, keeps the
    uniqueness constraint, leaves the system tags alone, returns the
    link's tags as they then are, and afterwards the link has a user
    tag of that name, exactly or up to case. *)
Theorem api_add_tag_never_duplicates
    (E : Env) (D : Dialect) (db : DB) (link_id user_id : N) (raw : str) (now : Z)
    (l : Link.t) :
  constraints_ok db = true ->
  link_of db link_id user_id = Some l ->
  strip raw <> [] ->
  exists db',
    get_db (api_add_tag E D link_id user_id raw now) db
    = (db', Ok (existing_user db' link_id, existing_sys db link_id))
    /\ links db' = links db
    /\ (link_tags db' = link_tags db
        \/ exists t, link_tags db' = link_tags db ++ [t]
                     /\ LinkTag.link_id t = link_id
                     /\ LinkTag.submitted_by t = user
                     /\ LinkTag.name t = firstn 64 (strip raw))
    /\ constraints_ok db' = true
    /\ exists t, In t (link_tags db')
                 /\ LinkTag.link_id t = link_id
                 /\ LinkTag.submitted_by t = user
                 /\ (LinkTag.name t = firstn 64 (strip raw)
                     \/ func_lower D (LinkTag.name t)
                        = lower E (firstn 64 (strip raw))).
Proof.
  intros Hok Hl Hne.
  rewrite (api_add_tag_run E D db link_id user_id raw now l Hl Hne). cbv zeta.
  assert (Huq : unique_ok uq_link_tag_name_role (link_tags db) = true).
  { destruct db. rewrite constraints_ok_unique in Hok. exact Hok. }
  set (name := firstn 64 (strip raw)).
  set (t := {| LinkTag.id := next_id (map LinkTag.id (link_tags db));
               LinkTag.link_id := link_id; LinkTag.name := name;
               LinkTag.submitted_by := user; LinkTag.created_at := now |}).
  destruct (filter (is_user_tag_nocase E D link_id name) (link_tags db)) as [|x xs] eqn:Hf.
  - destruct (unique_ok uq_link_tag_name_role (link_tags db ++ [t])) eqn:Hu.
    + eexists. split.
      { f_equal. f_equal. f_equal. destruct db as [ls ts].
        apply (existing_sys_app_user ls ls ts t link_id). reflexivity. }
      cbn [links link_tags]. split; [reflexivity|]. split.
      { right. exists t. repeat split. }
      split; [rewrite constraints_ok_unique; exact Hu|].
      exists t. split; [apply in_or_app; right; left; reflexivity|].
      repeat split. left. reflexivity.
    + exists db. split; [reflexivity|]. split; [reflexivity|].
      split; [left; reflexivity|]. split; [exact Hok|].
      destruct (unique_ok_snoc_false _ _ Huq Hu) as (x & Hx & Hs).
      apply uq_link_tag_name_role_eq in Hs. cbn in Hs. destruct Hs as (H1 & H2 & H3).
      exists x. repeat split; auto.
  - exists db. split; [reflexivity|]. split; [reflexivity|].
    split; [left; reflexivity|]. split; [exact Hok|].
    assert (Hx : In x (filter (is_user_tag_nocase E D link_id name) (link_tags db)))
      by (rewrite Hf; left; reflexivity).
    apply filter_In in Hx. destruct Hx as [Hx Hm].
    apply is_user_tag_nocase_eq in Hm. destruct Hm as (H1 & H2 & H3).
    exists x. repeat split; auto.
Qed.

Lemma api_add_tag_never_duplicates_witness :
  constraints_ok library_db = true
  /\ get_db (api_add_tag offline_env ascii_dialect 1 1 (lit " AI ") 20) library_db
     = (library_db, Ok ([lit "ai"], [lit "ai"; lit "python"]))
  /\ exists db',
       get_db (api_add_tag offline_env ascii_dialect 1 1 (lit " Go ") 20) library_db
       = (db', Ok (existing_user db' 1, existing_sys library_db 1))
       /\ links db' = links library_db
       /\ (link_tags db' = link_tags library_db
           \/ exists t, link_tags db' = link_tags library_db ++ [t]
                        /\ LinkTag.link_id t = 1
                        /\ LinkTag.submitted_by t = user
                        /\ LinkTag.name t = firstn 64 (strip (lit " Go ")))
       /\ constraints_ok db' = true
       /\ exists t, In t (link_tags db')
                    /\ LinkTag.link_id t = 1
                    /\ LinkTag.submitted_by t = user
                    /\ (LinkTag.name t = firstn 64 (strip (lit " Go "))
                        \/ func_lower ascii_dialect (LinkTag.name t)
                           = lower offline_env (firstn 64 (strip (lit " Go ")))).
Proof.
  split; [reflexivity|]. split; [reflexivity|].
  exact (api_add_tag_never_duplicates offline_env ascii_dialect library_db 1 1
           (lit " Go ") 20 _ eq_refl eq_refl ltac:(discriminate)).
Defined.

Lemma delete_count {A} (f : A -> bool) (xs : list A) :
  List.length (filter f xs) = O -> filter (fun x => negb (f x)) xs = xs.
Proof.
  intros H. apply filter_negb_all. destruct (filter f xs); [reflexivity | discriminate].
Qed.

Lemma existing_sys_filter_user (ls ls' : list Link.t) (ts : list LinkTag.t)
    (f : LinkTag.t -> bool) (link_id : N) :
  (forall t, f t = true -> LinkTag.submitted_by t = user) ->
  existing_sys {| links := ls; link_tags := filter (fun t => negb (f t)) ts |} link_id
  = existing_sys {| links := ls'; link_tags := ts |} link_id.
Proof.
  intros Hf. unfold existing_sys. cbn [link_tags]. f_equal.
  induction ts as [|x ts IH]; [reflexivity|]. cbn [filter].
  destruct (f x) eqn:Hx; cbn [negb].
  - rewrite IH. destruct (LinkTag.link_id x =? link_id); [|reflexivity].
    cbn [filter]. rewrite (Hf x Hx). reflexivity.
  - cbn [filter]. destruct (LinkTag.link_id x =? link_id); [|exact IH].
    cbn [filter]. destruct (origin_eqb _ _); [f_equal|]; exact IH.
Qed.

Lemma api_delete_tag_run
    (E : Env) (D : Dialect) (db : DB) (link_id user_id : N) (raw : str) (l : Link.t) :
  constraints_ok db = true ->
  link_of db link_id user_id = Some l ->
  strip raw <> [] ->
  let db' :=
    {| links := links db;
       link_tags :=
         filter (fun t => negb (is_user_tag_nocase E D link_id (strip raw) t))
                (link_tags db) |} in
  get_db (api_delete_tag E D link_id user_id raw) db
  = (db', Ok (existing_user db' link_id, existing_sys db' link_id)).
Proof.
  intros Hok Hl Hne. cbv zeta.
  destruct (link_of_split _ _ _ _ Hl) as (_ & _ & _ & Hid & _).
  destruct db as [ls ts]. rewrite constraints_ok_unique in Hok. cbn [links link_tags] in *.
  unfold get_db, finally, api_delete_tag. rewrite str_or_nil_r.
  unfold mbind at 1. rewrite owned_link_run, Hl.
  destruct (strip raw) as [|c rest] eqn:Hs; [congruence|]. rewrite <- Hs. rewrite Hid.
  unfold mbind at 1. unfold mbind at 1.
  cbv [delete_where on_session SessionLocal session view store tx sent].
  cbn [links link_tags].
  destruct (List.length (filter (is_user_tag_nocase E D link_id (strip raw)) ts)) eqn:Hn.
  - cbv [ret]. rewrite split_tags_run.
    cbv [close on_session session view store tx sent].
    rewrite (delete_count _ _ Hn). reflexivity.
  - cbv [commit on_session session view store tx sent]. rewrite constraints_ok_unique.
    rewrite unique_ok_filter by exact Hok.
    rewrite split_tags_run.
    cbv [close on_session session view store tx sent]. reflexivity.
Qed.

(** [api_delete_tag] on a link the user owns removes the user tags of
    that link whose name, lower-cased by the database ([func.lower]),
    equals the stripped name lower-cased by Python ([str.lower]), and
    nothing else: system tags and the tags of other links stay, in
    order, and the lists returned are the link's tags afterwards.  For
    a name of at most 64 characters that matched no user tag of the
    link before, the tag [api_add_tag] has just added is removed again
    by the same name, which gives back the table as it was, when the
    database and Python lower-case that name alike (as they do an
    ASCII name); when they do not (SQLite folds ASCII letters only,
    Python folds every cased letter) the tag just added stays. *)
Theorem api_delete_tag_removes_matching_user_tags
    (E : Env) (D : Dialect) (db : DB) (link_id user_id : N) (raw : str) (now : Z)
    (l : Link.t) :
  constraints_ok db = true ->
  link_of db link_id user_id = Some l ->
  strip raw <> [] ->
  (let db' :=
     {| links := links db;
        link_tags :=
          filter (fun t => negb ((LinkTag.link_id t =? link_id)
                                 && str_eqb (func_lower D (LinkTag.name t))
                                            (lower E (strip raw))
                                 && origin_eqb (LinkTag.submitted_by t) user))
                 (link_tags db) |} in
   get_db (api_delete_tag E D link_id user_id raw) db
   = (db', Ok (existing_user db' link_id, existing_sys db link_id)))
  /\ ((List.length (strip raw) <= 64)%nat ->
      func_lower D (strip raw) = lower E (strip raw) ->
      existsb (is_user_tag_nocase E D link_id (strip raw)) (link_tags db) = false ->
      fst (get_db (api_delete_tag E D link_id user_id raw)
                  (fst (get_db (api_add_tag E D link_id user_id raw now) db)))
      = db)
  /\ ((List.length (strip raw) <= 64)%nat ->
      func_lower D (strip raw) <> lower E (strip raw) ->
      existsb (is_user_tag_nocase E D link_id (strip raw)) (link_tags db) = false ->
      existsb (is_user_tag link_id (strip raw)) (link_tags db) = false ->
      let added :=
        {| links := links db;
           link_tags := link_tags db ++
             [ {| LinkTag.id := next_id (map LinkTag.id (link_tags db));
                  LinkTag.link_id := link_id; LinkTag.name := strip raw;
                  LinkTag.submitted_by := user; LinkTag.created_at := now |} ] |} in
      fst (get_db (api_add_tag E D link_id user_id raw now) db) = added
      /\ fst (get_db (api_delete_tag E D link_id user_id raw) added) = added).
Proof.
  intros Hok Hl Hne.
  assert (Huq : unique_ok uq_link_tag_name_role (link_tags db) = true).
  { destruct db. rewrite constraints_ok_unique in Hok. exact Hok. }
  split; [|split].
  - cbv zeta.
    rewrite (api_delete_tag_run E D db link_id user_id raw l Hok Hl Hne). cbv zeta.
    f_equal. f_equal. f_equal. destruct db as [ls ts].
    apply (existing_sys_filter_user ls ls ts). intros t Ht.
    apply is_user_tag_nocase_eq in Ht. tauto.
  - intros Hlen Hlow Hnone.
    rewrite (api_add_tag_run E D db link_id user_id raw now l Hl Hne). cbv zeta.
    rewrite (firstn_all2 (n := 64) (strip raw)) by exact Hlen.
    apply existsb_false_filter in Hnone. rewrite Hnone.
    set (t := {| LinkTag.id := next_id (map LinkTag.id (link_tags db));
                 LinkTag.link_id := link_id; LinkTag.name := strip raw;
                 LinkTag.submitted_by := user; LinkTag.created_at := now |}).
    assert (Hm : is_user_tag_nocase E D link_id (strip raw) t = true).
    { apply is_user_tag_nocase_eq. repeat split. exact Hlow. }
    assert (Hu : unique_ok uq_link_tag_name_role (link_tags db ++ [t]) = true).
    { destruct (unique_ok _ (link_tags db ++ [t])) eqn:Hu; [reflexivity|].
      destruct (unique_ok_snoc_false _ _ Huq Hu) as (x & Hx & Hs).
      apply uq_link_tag_name_role_eq in Hs. cbn in Hs. destruct Hs as (H1 & H2 & H3).
      assert (Hmx : is_user_tag_nocase E D link_id (strip raw) x = true).
      { apply is_user_tag_nocase_eq. repeat split; auto. rewrite H2. exact Hlow. }
      rewrite (proj1 (filter_nil_iff _ _) Hnone x Hx) in Hmx. discriminate. }
    rewrite Hu. cbn [fst].
    rewrite (api_delete_tag_run E D _ link_id user_id raw l);
      [|rewrite constraints_ok_unique; exact Hu | exact Hl | exact Hne].
    cbv zeta. cbn [fst links link_tags].
    rewrite filter_app, filter_negb_all by exact Hnone.
    cbn [filter]. rewrite Hm. cbn [negb]. rewrite app_nil_r. destruct db; reflexivity.
  - intros Hlen Hdiff Hnone Hexact. cbv zeta.
    rewrite (api_add_tag_run E D db link_id user_id raw now l Hl Hne). cbv zeta.
    rewrite (firstn_all2 (n := 64) (strip raw)) by exact Hlen.
    apply existsb_false_filter in Hnone. rewrite Hnone.
    set (t := {| LinkTag.id := next_id (map LinkTag.id (link_tags db));
                 LinkTag.link_id := link_id; LinkTag.name := strip raw;
                 LinkTag.submitted_by := user; LinkTag.created_at := now |}).
    assert (Hu : unique_ok uq_link_tag_name_role (link_tags db ++ [t]) = true).
    { destruct (unique_ok _ (link_tags db ++ [t])) eqn:Hu; [reflexivity|].
      destruct (unique_ok_snoc_false _ _ Huq Hu) as (x & Hx & Hs).
      apply uq_link_tag_name_role_eq in Hs. cbn in Hs. destruct Hs as (H1 & H2 & H3).
      assert (Hmx : is_user_tag link_id (strip raw) x = true).
      { unfold is_user_tag. rewrite H1, H2, H3, N.eqb_refl, str_eqb_refl. reflexivity. }
      apply existsb_false_filter in Hexact.
      rewrite (proj1 (filter_nil_iff _ _) Hexact x Hx) in Hmx. discriminate. }
    rewrite Hu. cbn [fst]. split; [reflexivity|].
    rewrite (api_delete_tag_run E D _ link_id user_id raw l);
      [|rewrite constraints_ok_unique; exact Hu | exact Hl | exact Hne].
    cbv zeta. cbn [fst links link_tags].
    rewrite filter_app, filter_negb_all by exact Hnone.
    cbn [filter].
    assert (Hm : is_user_tag_nocase E D link_id (strip raw) t = false).
    { destruct (is_user_tag_nocase E D link_id (strip raw) t) eqn:Hm; [|reflexivity].
      apply is_user_tag_nocase_eq in Hm. destruct Hm as (_ & Hm & _).
      cbn in Hm. contradiction. }
    rewrite Hm. reflexivity.
Qed.

Lemma api_delete_tag_removes_matching_user_tags_witness :
  constraints_ok library_db = true
  /\ get_db (api_delete_tag offline_env ascii_dialect 1 1 (lit " AI ")) library_db
     = ({| links := links library_db;
           link_tags := [ system_tag 2 1 (lit "ai"); system_tag 3 1 (lit "python");
                          system_tag 4 3 (lit "rust") ] |},
        Ok ([], [lit "ai"; lit "python"]))
  /\ fst (get_db (api_delete_tag offline_env ascii_dialect 1 1 (lit "Go"))
                 (fst (get_db (api_add_tag offline_env ascii_dialect 1 1 (lit "Go") 20)
                              library_db)))
     = library_db
  /\ lower latin1_env (201 :: lit "cole") = 233 :: lit "cole"
  /\ func_lower ascii_dialect (201 :: lit "cole") = 201 :: lit "cole"
  /\ fst (get_db (api_delete_tag latin1_env ascii_dialect 1 1 (201 :: lit "cole"))
                 (fst (get_db (api_add_tag latin1_env ascii_dialect 1 1
                                 (201 :: lit "cole") 20)
                              library_db)))
     = {| links := links library_db;
          link_tags := link_tags library_db ++
            [ {| LinkTag.id := 5; LinkTag.link_id := 1;
                 LinkTag.name := 201 :: lit "cole";
                 LinkTag.submitted_by := user; LinkTag.created_at := 20 |} ] |}.
Proof.
  pose proof (api_delete_tag_removes_matching_user_tags offline_env ascii_dialect
                library_db 1 1 (lit "Go") 20 _ eq_refl eq_refl ltac:(discriminate))
    as (_ & H & _).
  split; [reflexivity|]. split; [reflexivity|].
  split; [apply H; [cbn; lia | reflexivity | reflexivity]|].
  split; [reflexivity|]. split; [reflexivity|]. reflexivity.
Defined.

(** ** Tag suggestions *)








(** ** Search *)






Lemma in_firstn {A} (n : nat) (l : list A) (x : A) : In x (firstn n l) -> In x l.
Proof.
  revert n. induction l as [|y l IH]; intros [|n]; cbn; try tauto.
  intros [->|H]; [left; reflexivity | right; apply (IH n); exact H].
Qed.



(** ** The private networks of utils.py *)

Lemma testbit_above (n i : N) : n < 2 ^ i -> N.testbit n i = false.
Proof.
  intros H. destruct (N.eq_dec n 0) as [->|Hn]; [apply N.bits_0|].
  apply N.bits_above_log2. apply N.log2_lt_pow2; lia.
Qed.

(** Masking with a netmask keeps the bits from position [k] up. *)
Lemma land_netmask (n p k : N) :
  n < 2 ^ (p + k) ->
  N.land n (N.shiftl (N.ones p) k) = (n / 2 ^ k) * 2 ^ k.
Proof.
  intros Hn. rewrite <- N.shiftr_div_pow2, <- N.shiftl_mul_pow2.
  apply N.bits_inj. intros i. rewrite N.land_spec.
  destruct (N.ltb_spec i k) as [Hik|Hik].
  - rewrite !N.shiftl_spec_low by exact Hik. apply andb_false_r.
  - rewrite !N.shiftl_spec_high' by exact Hik.
    rewrite N.shiftr_spec'. replace (i - k + k) with i by lia.
    destruct (N.ltb_spec (i - k) p) as [Hp|Hp].
    + rewrite N.ones_spec_low by exact Hp. apply andb_true_r.
    + rewrite N.ones_spec_high by exact Hp. rewrite andb_false_r.
      symmetry. apply testbit_above.
      apply N.lt_le_trans with (1 := Hn). apply N.pow_le_mono_r; lia.
Qed.

Lemma ip_in_v4 (n base p : N) :
  n < 2 ^ 32 -> p <= 32 ->
  Utils.ip_in (IPv4 n)
    {| Utils.net_v6 := false; Utils.network_address := base; Utils.prefixlen := p |}
  = ((n / 2 ^ (32 - p)) * 2 ^ (32 - p) =? base).
Proof.
  intros Hn Hp. unfold Utils.ip_in, Utils.netmask. cbn [Utils.net_v6 Utils.prefixlen
    Utils.network_address].
  rewrite land_netmask; [reflexivity|].
  replace (p + (32 - p)) with 32 by lia. exact Hn.
Qed.

Lemma ip_in_v6 (n base p : N) :
  n < 2 ^ 128 -> p <= 128 ->
  Utils.ip_in (IPv6 n)
    {| Utils.net_v6 := true; Utils.network_address := base; Utils.prefixlen := p |}
  = ((n / 2 ^ (128 - p)) * 2 ^ (128 - p) =? base).
Proof.
  intros Hn Hp. unfold Utils.ip_in, Utils.netmask. cbn [Utils.net_v6 Utils.prefixlen
    Utils.network_address].
  rewrite land_netmask; [reflexivity|].
  replace (p + (128 - p)) with 128 by lia. exact Hn.
Qed.

Lemma div_ipv4_24 (a b c d : N) :
  b < 256 -> c < 256 -> d < 256 -> Utils.ipv4 a b c d / 2 ^ 24 = a.
Proof.
  intros. unfold Utils.ipv4. symmetry.
  apply (N.div_unique _ _ _ (b * 65536 + c * 256 + d)); [|change (2 ^ 24) with 16777216]; lia.
Qed.

Lemma div_ipv4_16 (a b c d : N) :
  c < 256 -> d < 256 -> Utils.ipv4 a b c d / 2 ^ 16 = a * 256 + b.
Proof.
  intros. unfold Utils.ipv4. symmetry.
  apply (N.div_unique _ _ _ (c * 256 + d)); [|change (2 ^ 16) with 65536]; lia.
Qed.

Lemma div_ipv4_20 (a b c d : N) :
  b < 256 -> c < 256 -> d < 256 -> Utils.ipv4 a b c d / 2 ^ 20 = a * 16 + b / 16.
Proof.
  intros. unfold Utils.ipv4. symmetry.
  pose proof (N.div_mod b 16 ltac:(discriminate)) as Hdm.
  pose proof (N.mod_lt b 16 ltac:(discriminate)) as Hml.
  apply (N.div_unique _ _ _ ((b mod 16) * 65536 + c * 256 + d));
    [|change (2 ^ 20) with 1048576];
    generalize dependent (b mod 16); generalize dependent (b / 16); intros; lia.
Qed.

Lemma eqb_scaled (x y k : N) : k <> 0 -> (x * k =? y * k) = (x =? y).
Proof.
  intros Hk. destruct (N.eqb_spec x y) as [->|Hne]; [apply N.eqb_refl|].
  apply N.eqb_neq. intros H. apply N.mul_cancel_r in H; auto.
Qed.

Lemma eqb_pair_16 (a b a' b' : N) :
  b < 16 -> b' < 16 -> (a * 16 + b =? a' * 16 + b') = (a =? a') && (b =? b').
Proof.
  intros Hb Hb'.
  destruct (N.eqb_spec a a'), (N.eqb_spec b b'), (N.eqb_spec (a * 16 + b) (a' * 16 + b'));
    cbn; try reflexivity; exfalso; lia.
Qed.

Lemma eqb_pair_256 (a b a' b' : N) :
  b < 256 -> b' < 256 -> (a * 256 + b =? a' * 256 + b') = (a =? a') && (b =? b').
Proof.
  intros Hb Hb'.
  destruct (N.eqb_spec a a'), (N.eqb_spec b b'), (N.eqb_spec (a * 256 + b) (a' * 256 + b'));
    cbn; try reflexivity; exfalso; lia.
Qed.

Lemma second_octet_16_31 (b : N) : (b / 16 =? 1) = (16 <=? b) && (b <=? 31).
Proof.
  pose proof (N.div_mod b 16 ltac:(discriminate)) as Hdm.
  pose proof (N.mod_lt b 16 ltac:(discriminate)) as Hml.
  generalize dependent (b mod 16). generalize dependent (b / 16). intros q r Hdm Hml.
  destruct (N.eqb_spec q 1), (N.leb_spec 16 b), (N.leb_spec b 31);
    cbn; try reflexivity; exfalso; lia.
Qed.

(** Which IPv4 addresses [PRIVATE_NETS] holds: 10/8, 172.16/12,
    192.168/16, 127/8 and 169.254/16, by their first two octets. *)
Theorem private_nets_ipv4 (a b c d : N) :
  a < 256 -> b < 256 -> c < 256 -> d < 256 ->
  existsb (Utils.ip_in (IPv4 (Utils.ipv4 a b c d))) Utils.PRIVATE_NETS
  = (a =? 10)
    || ((a =? 172) && ((16 <=? b) && (b <=? 31)))
    || ((a =? 192) && (b =? 168))
    || (a =? 127)
    || ((a =? 169) && (b =? 254)).
Proof.
  intros Ha Hb Hc Hd.
  assert (Hn : Utils.ipv4 a b c d < 2 ^ 32).
  { unfold Utils.ipv4. change (2 ^ 32) with 4294967296. lia. }
  assert (Hb16 : b / 16 < 16).
  { pose proof (N.div_mod b 16 ltac:(discriminate)) as Hdm.
    pose proof (N.mod_lt b 16 ltac:(discriminate)) as Hml.
    generalize dependent (b mod 16). generalize dependent (b / 16). intros; lia. }
  unfold Utils.PRIVATE_NETS. cbn [existsb].
  rewrite !ip_in_v4 by (exact Hn || lia).
  change (32 - 8) with 24. change (32 - 12) with 20. change (32 - 16) with 16.
  rewrite div_ipv4_24, div_ipv4_20, div_ipv4_16 by assumption.
  change (Utils.ip_in (IPv4 (Utils.ipv4 a b c d))
            {| Utils.net_v6 := true; Utils.network_address := 1; Utils.prefixlen := 128 |})
    with false.
  change (Utils.ip_in (IPv4 (Utils.ipv4 a b c d))
            {| Utils.net_v6 := true; Utils.network_address := N.shiftl 0xfc00 112;
               Utils.prefixlen := 7 |})
    with false.
  change (Utils.ip_in (IPv4 (Utils.ipv4 a b c d))
            {| Utils.net_v6 := true; Utils.network_address := N.shiftl 0xfe80 112;
               Utils.prefixlen := 10 |})
    with false.
  rewrite !orb_false_r.
  change (Utils.ipv4 10 0 0 0) with (10 * 2 ^ 24).
  change (Utils.ipv4 127 0 0 0) with (127 * 2 ^ 24).
  change (Utils.ipv4 172 16 0 0) with ((172 * 16 + 1) * 2 ^ 20).
  change (Utils.ipv4 192 168 0 0) with ((192 * 256 + 168) * 2 ^ 16).
  change (Utils.ipv4 169 254 0 0) with ((169 * 256 + 254) * 2 ^ 16).
  rewrite !eqb_scaled by discriminate.
  rewrite eqb_pair_16 by (exact Hb16 || lia).
  rewrite !eqb_pair_256 by (exact Hb || lia).
  rewrite second_octet_16_31.
  rewrite !orb_assoc. reflexivity.
Qed.

Lemma private_nets_ipv4_witness :
  existsb (Utils.ip_in (IPv4 (Utils.ipv4 172 31 255 255))) Utils.PRIVATE_NETS = true
  /\ existsb (Utils.ip_in (IPv4 (Utils.ipv4 172 32 0 0))) Utils.PRIVATE_NETS = false
  /\ existsb (Utils.ip_in (IPv4 (Utils.ipv4 0 0 0 0))) Utils.PRIVATE_NETS = false.
Proof.
  rewrite !private_nets_ipv4 by (vm_compute; reflexivity).
  repeat split.
Defined.

(** An IPv4-mapped IPv6 address lies in none of [PRIVATE_NETS]. *)
Lemma ipv4_mapped_not_private (v4 : N) :
  v4 < 2 ^ 32 ->
  existsb (Utils.ip_in (ipv4_mapped v4)) Utils.PRIVATE_NETS = false.
Proof.
  intros Hv. unfold ipv4_mapped.
  set (n := 0xffff * 4294967296 + v4).
  assert (Hlo : 0xffff * 4294967296 <= n) by (unfold n; lia).
  assert (Hhi : n < 2 ^ 48).
  { unfold n. change (2 ^ 48) with 281474976710656.
    change (2 ^ 32) with 4294967296 in Hv. lia. }
  assert (H128 : n < 2 ^ 128).
  { apply N.lt_le_trans with (1 := Hhi). apply N.pow_le_mono_r; lia. }
  unfold Utils.PRIVATE_NETS. cbn [existsb].
  change (Utils.ip_in (IPv6 n)
            {| Utils.net_v6 := false; Utils.network_address := Utils.ipv4 10 0 0 0;
               Utils.prefixlen := 8 |}) with false.
  change (Utils.ip_in (IPv6 n)
            {| Utils.net_v6 := false; Utils.network_address := Utils.ipv4 172 16 0 0;
               Utils.prefixlen := 12 |}) with false.
  change (Utils.ip_in (IPv6 n)
            {| Utils.net_v6 := false; Utils.network_address := Utils.ipv4 192 168 0 0;
               Utils.prefixlen := 16 |}) with false.
  change (Utils.ip_in (IPv6 n)
            {| Utils.net_v6 := false; Utils.network_address := Utils.ipv4 127 0 0 0;
               Utils.prefixlen := 8 |}) with false.
  change (Utils.ip_in (IPv6 n)
            {| Utils.net_v6 := false; Utils.network_address := Utils.ipv4 169 254 0 0;
               Utils.prefixlen := 16 |}) with false.
  rewrite !ip_in_v6 by (exact H128 || lia).
  cbn [orb].
  change (128 - 128) with 0. change (128 - 7) with 121. change (128 - 10) with 118.
  assert (H121 : n / 2 ^ 121 = 0).
  { apply N.div_small. apply N.lt_le_trans with (1 := Hhi). apply N.pow_le_mono_r; lia. }
  assert (H118 : n / 2 ^ 118 = 0).
  { apply N.div_small. apply N.lt_le_trans with (1 := Hhi). apply N.pow_le_mono_r; lia. }
  rewrite H121, H118. change (2 ^ 0) with 1. rewrite N.div_1_r, N.mul_1_r.
  replace (n =? 1) with false by (symmetry; apply N.eqb_neq; lia).
  reflexivity.
Qed.

(** The guard of utils.py does not recognise IPv4-mapped IPv6
    addresses: a host whose addresses are all of the form
    [::ffff:a.b.c.d] is not private for [is_private_host], whatever
    [a.b.c.d] is, and [fetch_html] calls the client with the URL. *)
Theorem utils_guard_passes_ipv4_mapped
    (E : Env) (url : str) (max_bytes : nat) (v4s : list N) :
  startswith url (lit "http://") || startswith url (lit "https://") = true ->
  getaddrinfo E (Utils.host_of url) = Some (map ipv4_mapped v4s) ->
  Forall (fun v => v < 2 ^ 32) v4s ->
  Utils.is_private_host E (Utils.host_of url) = false
  /\ requests (Utils.fetch_html E url max_bytes) = [url].
Proof.
  intros Hs Hdns Hv.
  assert (Hp : Utils.is_private_host E (Utils.host_of url) = false).
  { unfold Utils.is_private_host. rewrite Hdns. clear Hdns.
    induction Hv as [|v vs Hv0 Hvs IH]; [reflexivity|].
    cbn [map existsb]. rewrite ipv4_mapped_not_private by exact Hv0. exact IH. }
  split; [exact Hp|].
  unfold Utils.fetch_html. rewrite Hs, Hp. reflexivity.
Qed.

Lemma utils_guard_passes_ipv4_mapped_witness :
  let E := env_with html_everywhere
                    (fun host =>
                       if str_eqb host (lit "mapped.example")
                       then Some [ipv4_mapped (Utils.ipv4 127 0 0 1)]
                       else None)
                    (BeautifulSoup offline_env) None (fun _ => None) in
  existsb (Utils.ip_in (IPv4 (Utils.ipv4 127 0 0 1))) Utils.PRIVATE_NETS = true
  /\ Utils.host_of (lit "http://mapped.example/") = lit "mapped.example"
  /\ Utils.is_private_host E (Utils.host_of (lit "http://mapped.example/")) = false
  /\ requests (Utils.fetch_html E (lit "http://mapped.example/") 1000)
     = [lit "http://mapped.example/"].
Proof.
  cbv zeta. split; [reflexivity|]. split; [reflexivity|].
  apply (utils_guard_passes_ipv4_mapped _ _ 1000 [Utils.ipv4 127 0 0 1]).
  - reflexivity.
  - reflexivity.
  - repeat constructor.
Defined.

(** ** The guarded fetch and the extraction of utils.py *)


Lemma forallb_rev_eq {A} (p : A -> bool) (l : list A) : forallb p (rev l) = forallb p l.
Proof.
  induction l as [|x l IH]; [reflexivity|].
  cbn [rev forallb]. rewrite forallb_app, IH. cbn. rewrite andb_true_r. apply andb_comm.
Qed.

Lemma split_ws_aux_no_space (s cur : str) :
  forallb (fun c => negb (isspace c)) cur = true ->
  Forall (fun w => forallb (fun c => negb (isspace c)) w = true /\ w <> [])
         (split_ws_aux s cur).
Proof.
  revert cur. induction s as [|x s IH]; intros cur Hcur; cbn [split_ws_aux].
  - destruct cur as [|c cur']; constructor; [|constructor].
    split.
    + rewrite forallb_rev_eq. exact Hcur.
    + intros H. apply (f_equal (@List.length char)) in H.
      rewrite length_rev in H. discriminate.
  - destruct (isspace x) eqn:Hx.
    + destruct cur as [|c cur']; [apply IH; reflexivity|].
      constructor; [|apply IH; reflexivity].
      split.
      * rewrite forallb_rev_eq. exact Hcur.
      * intros H. apply (f_equal (@List.length char)) in H.
        rewrite length_rev in H. discriminate.
    + apply IH. cbn [forallb]. rewrite Hx. exact Hcur.
Qed.

Lemma join_space_chars (ws : list str) (c : char) :
  Forall (fun w => forallb (fun c => negb (isspace c)) w = true) ws ->
  In c (join (lit " ") ws) -> isspace c = true -> c = 32.
Proof.
  intros Hws. induction Hws as [|w ws Hw _ IH]; [intros []|].
  assert (Hinw : In c w -> isspace c = true -> c = 32).
  { intros Hin Hsp. pose proof (proj1 (forallb_forall _ _) Hw c Hin) as H.
    cbv beta in H. rewrite Hsp in H. discriminate. }
  destruct ws as [|w2 ws]; [exact Hinw|].
  change (join (lit " ") (w :: w2 :: ws)) with (w ++ lit " " ++ join (lit " ") (w2 :: ws)).
  intros Hin Hsp. apply in_app_or in Hin. destruct Hin as [Hin|Hin]; [auto|].
  apply in_app_or in Hin. destruct Hin as [[<-|[]]|Hin]; [reflexivity|auto].
Qed.

(** [extract_content] caps the title at 300 and the description at 500
    characters, and the body it returns is the words of the page text
    joined by single spaces: it holds no whitespace but the space, and
    neither starts nor ends with one. *)
Theorem extract_content_bounds (E : Env) (html title_hint : str) (soup : Soup) :
  BeautifulSoup E html = Ok soup ->
  exists title desc,
    Utils.extract_content E html title_hint
    = Ok (title, desc,
          join (lit " ") (split_ws (soup_get_text (decompose_scripts E soup))))
    /\ (List.length title <= 300)%nat
    /\ (List.length desc <= 500)%nat
    /\ (forall c,
          In c (join (lit " ") (split_ws (soup_get_text (decompose_scripts E soup)))) ->
          isspace c = true -> c = 32)
    /\ strip (join (lit " ") (split_ws (soup_get_text (decompose_scripts E soup))))
       = join (lit " ") (split_ws (soup_get_text (decompose_scripts E soup))).
Proof.
  intros Hparse. unfold Utils.extract_content. rewrite Hparse. cbn [bind].
  set (text := soup_get_text (decompose_scripts E soup)).
  pose proof (split_ws_aux_no_space text [] eq_refl) as Hws. fold (split_ws text) in Hws.
  assert (Hmap : map strip (split_ws text) = split_ws text).
  { induction Hws as [|w ws [Hw _] _ IH]; [reflexivity|].
    cbn [map]. rewrite IH. f_equal. apply strip_by_all_false. exact Hw. }
  rewrite Hmap.
  assert (Hws' : Forall (fun w => forallb (fun c => negb (isspace c)) w = true)
                   (split_ws text)).
  { apply Forall_forall. intros w Hw.
    exact (proj1 (proj1 (Forall_forall _ _) Hws w Hw)). }
  eexists _, _. split; [reflexivity|].
  split; [apply firstn_le_length|]. split; [apply firstn_le_length|].
  split; [intros c; apply join_space_chars; exact Hws'|].
  (* the first and the last character belong to a word *)
  unfold strip, strip_by, lstrip_by, rstrip_by.
  assert (Hhd : forall ws,
            Forall (fun w => forallb (fun c => negb (isspace c)) w = true /\ w <> []) ws ->
            dropWhile isspace (join (lit " ") ws) = join (lit " ") ws).
  { intros ws H. destruct H as [|w ws [Hw Hne] _]; [reflexivity|].
    destruct w as [|c w]; [congruence|].
    cbn [forallb] in Hw. apply andb_true_iff in Hw. destruct Hw as [Hc _].
    apply negb_true_iff in Hc.
    destruct ws; cbn [join app dropWhile]; rewrite Hc; reflexivity. }
  assert (Hlast : forall ws,
            Forall (fun w => forallb (fun c => negb (isspace c)) w = true /\ w <> []) ws ->
            ws <> [] ->
            exists a c, join (lit " ") ws = a ++ [c] /\ isspace c = false).
  { intros ws H. induction H as [|w ws [Hw Hne] Hrest IH]; [congruence|]. intros _.
    destruct ws as [|w2 ws].
    - destruct (exists_last Hne) as (a & c & ->). exists a, c. split; [reflexivity|].
      rewrite forallb_app in Hw. apply andb_true_iff in Hw. destruct Hw as [_ Hc].
      cbn in Hc. rewrite andb_true_r in Hc. apply negb_true_iff. exact Hc.
    - destruct (IH ltac:(discriminate)) as (a & c & Ha & Hc).
      exists (w ++ lit " " ++ a), c. split; [|exact Hc].
      change (join (lit " ") (w :: w2 :: ws))
        with (w ++ lit " " ++ join (lit " ") (w2 :: ws)).
      rewrite Ha. rewrite <- !app_assoc. reflexivity. }
  rewrite (Hhd _ Hws).
  destruct (split_ws text) as [|w0 ws0] eqn:Hsplit; [reflexivity|].
  destruct (Hlast _ Hws ltac:(discriminate)) as (a & c & -> & Hc).
  rewrite rev_app_distr. cbn [rev app dropWhile]. rewrite Hc.
  cbn [rev]. rewrite rev_involutive. reflexivity.
Qed.

Lemma extract_content_bounds_witness :
  let E := env_with (http_get offline_env) (getaddrinfo offline_env)
                    (fun _ => Ok soup_both_titles) None (fun _ => None) in
  BeautifulSoup E (lit "<html>...</html>") = Ok soup_both_titles
  /\ Utils.extract_content E (lit "<html>...</html>") (lit "hint")
     = Ok (lit "OG title", [], lit "Doc title First paragraph.")
  /\ exists title desc,
       Utils.extract_content E (lit "<html>...</html>") (lit "hint")
       = Ok (title, desc,
             join (lit " ")
                  (split_ws (soup_get_text (decompose_scripts E soup_both_titles))))
       /\ (List.length title <= 300)%nat
       /\ (List.length desc <= 500)%nat
       /\ (forall c,
             In c (join (lit " ")
                     (split_ws (soup_get_text (decompose_scripts E soup_both_titles)))) ->
             isspace c = true -> c = 32)
       /\ strip (join (lit " ")
                   (split_ws (soup_get_text (decompose_scripts E soup_both_titles))))
          = join (lit " ")
                 (split_ws (soup_get_text (decompose_scripts E soup_both_titles))).
Proof.
  cbv zeta. split; [reflexivity|]. split; [reflexivity|].
  exact (extract_content_bounds
           (env_with (http_get offline_env) (getaddrinfo offline_env)
                     (fun _ => Ok soup_both_titles) None (fun _ => None))
           (lit "<html>...</html>") (lit "hint") soup_both_titles eq_refl).
Defined.

(** ** The two save endpoints *)

Lemma dropWhile_suffix (p : char -> bool) (l : str) :
  exists w, l = w ++ dropWhile p l.
Proof.
  induction l as [|x l (w & IH)]; [exists []; reflexivity|].
  cbn. destruct (p x); [exists (x :: w); cbn; f_equal; exact IH | exists []; reflexivity].
Qed.

Lemma dropWhile_head (p : char -> bool) (l : str) :
  match dropWhile p l with [] => True | x :: _ => p x = false end.
Proof.
  induction l as [|x l IH]; [exact I|]. cbn. destruct (p x) eqn:Hx; [exact IH | exact Hx].
Qed.

Lemma dropWhile_fixed (p : char -> bool) (l : str) :
  match l with [] => True | x :: _ => p x = false end -> dropWhile p l = l.
Proof. destruct l as [|x l]; [reflexivity|]. cbn. intros ->. reflexivity. Qed.

(** Stripping is idempotent. *)
Lemma strip_by_idem (p : char -> bool) (s : str) :
  strip_by p (strip_by p s) = strip_by p s.
Proof.
  unfold strip_by, lstrip_by, rstrip_by.
  set (t := dropWhile p s). set (u := dropWhile p (rev t)).
  assert (Hu : dropWhile p u = u) by (apply dropWhile_fixed, dropWhile_head).
  assert (Hru : dropWhile p (rev u) = rev u).
  { apply dropWhile_fixed.
    destruct (dropWhile_suffix p (rev t)) as (w & Hw). fold u in Hw.
    apply (f_equal (@rev char)) in Hw. rewrite rev_involutive, rev_app_distr in Hw.
    pose proof (dropWhile_head p s) as Ht. fold t in Ht.
    destruct (rev u) as [|x r]; [exact I|]. rewrite Hw in Ht. exact Ht. }
  rewrite Hru, rev_involutive, Hu. reflexivity.
Qed.

Lemma run_enqueue_strip (E : Env) (user_id : N) (url title : str) (now : Z) (db : DB) :
  get_db (enqueue_link E user_id (strip url) title now) db
  = run_enqueue E user_id url title now db.
Proof.
  unfold get_db, run_enqueue, enqueue_link. cbv zeta.
  rewrite (strip_by_idem isspace url : strip (strip url) = strip url). reflexivity.
Qed.

(** [bookmarklet_capture] answers a blank URL with a 400 page, without
    raising and without saving; otherwise it saves what [enqueue_link]
    saves for the stripped URL and the stripped title. *)
Theorem bookmarklet_capture_saves_stripped
    (E : Env) (db : DB) (user_id : N) (u t : str) (now : Z) :
  get_db (bookmarklet_capture E user_id u t now) db
  = match strip u with
    | [] => (db, Ok (400%Z, None))
    | _ =>
        match run_enqueue E user_id u (strip t) now db with
        | (db', Ok link_id) => (db', Ok (200%Z, Some link_id))
        | (db', Raise e) => (db', Raise e)
        end
    end.
Proof.
  rewrite <- run_enqueue_strip.
  unfold get_db, finally, bookmarklet_capture. rewrite !str_or_nil_r.
  destruct (strip u) as [|c rest] eqn:Hs.
  - cbv [ret close on_session SessionLocal session view store tx sent].
    destruct db; reflexivity.
  - unfold mbind.
    destruct (enqueue_link E user_id (c :: rest) (strip t) now _) as [p [i|e]];
      cbv [ret close on_session session view store tx sent]; reflexivity.
Qed.






(** ** Normalisation of arbitrary ASCII text *)

Lemma ascii_no_hash_spec (s : str) :
  ascii_no_hash s <-> forall c, In c s -> isascii c = true /\ c <> 35.
Proof.
  unfold ascii_no_hash. rewrite forallb_forall. split; intros H c Hc; specialize (H c Hc).
  - apply andb_true_iff in H. destruct H as [H1 H2].
    apply negb_true_iff, N.eqb_neq in H2. auto.
  - destruct H as [H1 H2]. rewrite H1. apply N.eqb_neq in H2. rewrite H2. reflexivity.
Qed.

Lemma ascii_no_hash_app (a b : str) : ascii_no_hash (a ++ b) <-> ascii_no_hash a /\ ascii_no_hash b.
Proof. unfold ascii_no_hash. rewrite forallb_app, andb_true_iff. tauto. Qed.

Lemma ascii_no_hash_no_hash (s : str) : ascii_no_hash s -> has 35 s = false.
Proof.
  intros H. apply (has_false_of_forallb _ 35 s H). reflexivity.
Qed.

Lemma ascii_no_hash_lower (E : Env) (s : str) : ascii_no_hash s -> ascii_no_hash (lower E s).
Proof.
  intros H. assert (Ha : forallb isascii s = true).
  { apply forallb_forall. intros c Hc. apply (proj1 (ascii_no_hash_spec s) H c Hc). }
  rewrite (lower_ascii E s Ha). apply ascii_no_hash_spec. intros c Hc.
  apply in_map_iff in Hc. destruct Hc as (x & <- & Hx).
  destruct (proj1 (ascii_no_hash_spec s) H x Hx) as [H1 H2].
  unfold lower_char, isupper_ascii, isascii in *.
  destruct (N.leb_spec 65 x), (N.leb_spec x 90); cbn [andb]; split; try assumption;
    try (apply N.ltb_lt; lia); lia.
Qed.

Lemma in_dropWhile (p : char -> bool) (s : str) (c : char) :
  In c (dropWhile p s) -> In c s.
Proof.
  destruct (dropWhile_suffix p s) as (w & Hw). intros H. rewrite Hw.
  apply in_or_app. right. exact H.
Qed.

Lemma in_skipn_of {A} (n : nat) (l : list A) (x : A) : In x (skipn n l) -> In x l.
Proof.
  intros H. rewrite <- (firstn_skipn n l). apply in_or_app. right. exact H.
Qed.

Lemma in_remove_char (b : char) (s : str) (c : char) : In c (remove_char b s) -> In c s.
Proof. unfold remove_char. intros H. apply filter_In in H. tauto. Qed.

Lemma split_first_spec (c : char) (s a b : str) :
  split_first c s = Some (a, b) -> s = a ++ c :: b /\ has c a = false.
Proof.
  revert a. induction s as [|x s IH]; intros a; cbn; [discriminate|].
  destruct (N.eqb_spec x c) as [->|Hne].
  - intros [= <- <-]. split; reflexivity.
  - destruct (split_first c s) as [[a' b']|]; [|discriminate].
    intros [= <- <-]. destruct (IH a' eq_refl) as (-> & Ha). split; [reflexivity|].
    unfold has in *. cbn. rewrite Ha.
    replace (c =? x) with false; [reflexivity|].
    symmetry. apply N.eqb_neq. congruence.
Qed.

Lemma split_first_none (c : char) (s : str) : split_first c s = None -> has c s = false.
Proof.
  induction s as [|x s IH]; cbn; [reflexivity|].
  destruct (N.eqb_spec x c) as [->|Hne]; [discriminate|].
  destruct (split_first c s) as [[a b]|]; [discriminate|]. intros _.
  unfold has in *. cbn. rewrite IH by reflexivity.
  replace (c =? x) with false; [reflexivity|].
  symmetry. apply N.eqb_neq. congruence.
Qed.

Lemma rsplit_last_spec (c : char) (s a b : str) :
  rsplit_last c s = Some (a, b) -> s = a ++ c :: b.
Proof.
  unfold rsplit_last. destruct (split_first c (rev s)) as [[x y]|] eqn:H; [|discriminate].
  intros [= <- <-]. apply split_first_spec in H. destruct H as [H _].
  apply (f_equal (@rev char)) in H. rewrite rev_involutive in H. rewrite H.
  rewrite rev_app_distr. cbn [rev]. rewrite <- app_assoc. reflexivity.
Qed.

Lemma has_true_in (c : char) (s : str) : has c s = true <-> In c s.
Proof.
  unfold has. rewrite existsb_exists. split.
  - intros (x & Hx & He). apply N.eqb_eq in He. subst. exact Hx.
  - intros H. exists c. split; [exact H | apply N.eqb_refl].
Qed.

Lemma has_false_not_in (c : char) (s : str) : has c s = false <-> ~ In c s.
Proof.
  rewrite <- has_true_in. destruct (has c s); split; congruence.
Qed.

Lemma find_char_firstn (c : char) (s : str) (i n : nat) :
  find_char c s = Some i -> (n <= i)%nat -> ~ In c (firstn n s).
Proof.
  revert i n. induction s as [|x s IH]; intros i n; cbn [find_char]; [discriminate|].
  destruct (N.eqb_spec x c) as [->|Hne].
  - intros [= <-] Hn. replace n with O by lia. intros [].
  - destruct (find_char c s) as [j|]; [|discriminate]. cbn [option_map].
    intros [= <-] Hn. destruct n as [|n]; [intros []|].
    cbn [firstn]. intros [H|H]; [congruence|].
    apply (IH j n eq_refl ltac:(lia) H).
Qed.

Lemma find_char_none_not_in (c : char) (s : str) : find_char c s = None -> ~ In c s.
Proof.
  induction s as [|x s IH]; cbn [find_char]; [intros _ []|].
  destruct (N.eqb_spec x c) as [->|Hne]; [discriminate|].
  destruct (find_char c s); [discriminate|]. intros _ [H|H]; [congruence|].
  apply IH; [reflexivity | exact H].
Qed.

(** The netloc [_splitnetloc] cuts out holds no [#] and the rest is a
    suffix of the text. *)
Lemma _splitnetloc_no_hash (url : str) :
  let '(netloc, rest) := UrlParse._splitnetloc url 2 in
  ~ In 35 netloc
  /\ (forall c, In c netloc -> In c url)
  /\ (forall c, In c rest -> In c url).
Proof.
  unfold UrlParse._splitnetloc.
  change (lit "/?#") with [47; 63; 35]. cbn [fold_left].
  set (d1 := match find_from 47 url 2 with
             | Some w => Nat.min (List.length url) w
             | None => List.length url
             end).
  set (d2 := match find_from 63 url 2 with
             | Some w => Nat.min d1 w
             | None => d1
             end).
  set (delim := match find_from 35 url 2 with
                | Some w => Nat.min d2 w
                | None => d2
                end).
  split; [|split].
  - unfold slice. unfold find_from in delim.
    destruct (find_char 35 (skipn 2 url)) as [i|] eqn:Hf; cbn [option_map] in delim.
    + apply (find_char_firstn _ _ _ _ Hf). unfold delim. lia.
    + intros H. apply in_firstn in H. exact (find_char_none_not_in _ _ Hf H).
  - intros c H. unfold slice in H. apply in_firstn in H. apply in_skipn_of in H. exact H.
  - intros c H. apply in_skipn_of in H. exact H.
Qed.

Lemma scheme_chars_ascii_no_hash (s : str) :
  forallb (fun c => has c UrlParse.scheme_chars) s = true -> ascii_no_hash s.
Proof.
  unfold ascii_no_hash. apply forallb_impl. intros c Hc. revert c Hc.
  apply (scheme_char_check (fun c => isascii c && negb (c =? 35))).
  vm_compute. reflexivity.
Qed.

Lemma ascii_no_hash_of_sub (s t : str) :
  (forall c, In c s -> In c t) -> forallb isascii t = true -> ~ In 35 s -> ascii_no_hash s.
Proof.
  intros Hsub Ht Hno. apply ascii_no_hash_spec. intros c Hc. split.
  - exact (proj1 (forallb_forall _ _) Ht c (Hsub c Hc)).
  - intros ->. exact (Hno Hc).
Qed.

Lemma _check_bracketed_netloc_raises (E : Env) (netloc : str) (e : exn) :
  UrlParse._check_bracketed_netloc E netloc = Raise e -> bracket_error E e.
Proof.
  unfold UrlParse._check_bracketed_netloc, bracket_error.
  set (hp := match rsplit_last (ch "@") netloc with
             | Some (_, after) => after
             | None => netloc
             end).
  assert (Hhost : forall h, match _check_bracketed_host E h with
                            | None => Ok tt
                            | Some msg => Raise (ValueError msg)
                            end = Raise e ->
                  exists msg, e = ValueError msg
                    /\ (msg = lit "Invalid IPv6 URL"
                        \/ exists hostname, _check_bracketed_host E hostname = Some msg)).
  { intros h H. destruct (_check_bracketed_host E h) as [msg|] eqn:Hm; [|discriminate].
    injection H as <-. exists msg. split; [reflexivity|]. right. exists h. exact Hm. }
  destruct (split_first (ch "[") hp) as [[before bracketed]|].
  - destruct (negb (str_eqb before [])); cbn [bind].
    + intros H. injection H as <-. eexists. split; [reflexivity|]. left. reflexivity.
    + destruct (split_first (ch "]") bracketed) as [[h pt]|].
      * destruct (negb (str_eqb pt []) && negb (startswith pt (lit ":"))); cbn [bind].
        -- intros H. injection H as <-. eexists. split; [reflexivity|]. left. reflexivity.
        -- apply Hhost.
      * destruct (negb (str_eqb [] []) && negb (startswith [] (lit ":"))); cbn [bind].
        -- intros H. injection H as <-. eexists. split; [reflexivity|]. left. reflexivity.
        -- apply Hhost.
  - destruct (split_first (ch ":") hp) as [[h pt]|]; cbn [bind]; apply Hhost.
Qed.

(** What [urlsplit] returns for ASCII text: no part holds a [#], and
    the only exception is that of an unbalanced or invalid bracket. *)
Lemma urlsplit_ascii (E : Env) (url : str) :
  forallb isascii url = true ->
  match UrlParse.urlsplit E url with
  | Ok parts =>
      ascii_no_hash (UrlParse.scheme parts) /\ ascii_no_hash (UrlParse.netloc parts)
      /\ ascii_no_hash (UrlParse.path parts) /\ ascii_no_hash (UrlParse.query parts)
  | Raise e =>
      bracket_error E e
      /\ (In 91 url \/ In 93 url)
  end.
Proof.
  intros Hasc. unfold UrlParse.urlsplit.
  set (url1 := lstrip_by UrlParse.c0_control_or_space url).
  set (url2 := fold_left (fun u b => remove_char b u) UrlParse.unsafe_url_bytes url1).
  assert (H2 : forall c, In c url2 -> In c url).
  { intros c Hc. unfold url2, UrlParse.unsafe_url_bytes in Hc. cbn [fold_left] in Hc.
    do 3 apply in_remove_char in Hc. apply in_dropWhile in Hc. exact Hc. }
  match goal with
  | |- context [let '(s, u) := ?m in _] => destruct m as [scheme url3] eqn:Hsch
  end.
  assert (Hscheme : ascii_no_hash scheme /\ forall c, In c url3 -> In c url).
  { destruct (find_char (ch ":") url2) as [i|].
    - destruct (_ && _ && _ && _) eqn:Hcond.
      + injection Hsch as <- <-. split.
        * apply ascii_no_hash_lower. apply scheme_chars_ascii_no_hash.
          apply andb_true_iff in Hcond. tauto.
        * intros c Hc. apply in_skipn_of in Hc. auto.
      + injection Hsch as <- <-. split; [reflexivity | exact H2].
    - injection Hsch as <- <-. split; [reflexivity | exact H2]. }
  destruct Hscheme as [Hscheme H3].
  match goal with
  | |- context [bind ?m _] =>
      assert (Hnet : match m with
                     | Ok (netloc, url4) =>
                         ascii_no_hash netloc /\ forall c, In c url4 -> In c url
                     | Raise e =>
                         bracket_error E e
                         /\ (In 91 url \/ In 93 url)
                     end);
      [|destruct m as [[netloc url4]|e]; [|exact Hnet]]
  end.
  { destruct (str_eqb (firstn 2 url3) (lit "//")); [|split; [reflexivity | exact H3]].
    pose proof (_splitnetloc_no_hash url3) as Hsn.
    destruct (UrlParse._splitnetloc url3 2) as [netloc url4].
    destruct Hsn as (Hno & Hin & Hrest).
    assert (Hbr : has (ch "[") netloc || has (ch "]") netloc = true ->
                  In 91 url \/ In 93 url).
    { intros H. apply orb_true_iff in H.
      destruct H as [H|H]; apply has_true_in in H; [left | right]; apply H3, Hin, H. }
    destruct (has (ch "[") netloc) eqn:Ho, (has (ch "]") netloc) eqn:Hc; cbn [andb orb negb].
    - destruct (UrlParse._check_bracketed_netloc E netloc) as [[]|e] eqn:Hchk; cbn [bind].
      + split; [|intros c Hx; apply H3, Hrest, Hx].
        apply (ascii_no_hash_of_sub netloc url); auto.
      + split; [exact (_check_bracketed_netloc_raises E netloc e Hchk)|].
        apply Hbr; reflexivity.
    - split; [|apply Hbr; reflexivity].
      eexists. split; [reflexivity|]. left. reflexivity.
    - split; [|apply Hbr; reflexivity].
      eexists. split; [reflexivity|]. left. reflexivity.
    - split; [|intros c Hx; apply H3, Hrest, Hx].
      apply (ascii_no_hash_of_sub netloc url); auto. }
  destruct Hnet as [Hnetloc H4]. cbn [bind].
  assert (Ha4 : forallb isascii url4 = true).
  { apply forallb_forall. intros c Hc.
    exact (proj1 (forallb_forall _ _) Hasc c (H4 c Hc)). }
  match goal with
  | |- context [let '(u, f) := ?m in _] => destruct m as [url5 fragment] eqn:Hfrag
  end.
  assert (H5 : ascii_no_hash url5).
  { destruct (split_first (ch "#") url4) as [[u f]|] eqn:Hsp.
    - injection Hfrag as <- <-. apply split_first_spec in Hsp. destruct Hsp as [Heq Hno].
      apply (ascii_no_hash_of_sub u url4); [|exact Ha4 | apply has_false_not_in; exact Hno].
      intros c Hc. rewrite Heq. apply in_or_app. left. exact Hc.
    - injection Hfrag as <- <-. apply split_first_none in Hsp.
      apply (ascii_no_hash_of_sub url4 url4); [auto | exact Ha4 | apply has_false_not_in; exact Hsp]. }
  match goal with
  | |- context [let '(u, q) := ?m in _] => destruct m as [path query] eqn:Hq
  end.
  assert (H6 : ascii_no_hash path /\ ascii_no_hash query).
  { destruct (split_first (ch "?") url5) as [[u q]|] eqn:Hsp.
    - injection Hq as <- <-. apply split_first_spec in Hsp. destruct Hsp as [Heq _].
      rewrite Heq in H5. apply ascii_no_hash_app in H5. destruct H5 as [Hu Hq].
      split; [exact Hu|]. unfold ascii_no_hash in *. cbn [forallb] in Hq. apply andb_true_iff in Hq. tauto.
    - injection Hq as <- <-. split; [exact H5 | reflexivity]. }
  assert (Hcheck : UrlParse._checknetloc E netloc = Ok tt).
  { unfold UrlParse._checknetloc. destruct netloc as [|c n]; [reflexivity|].
    replace (forallb isascii (c :: n)) with true; [reflexivity|].
    symmetry. apply forallb_forall. intros x Hx.
    exact (proj1 (proj1 (ascii_no_hash_spec _) Hnetloc x Hx)). }
  rewrite Hcheck. cbn [bind UrlParse.scheme UrlParse.netloc UrlParse.path UrlParse.query].
  tauto.
Qed.

Lemma urlunsplit_ascii_no_hash (scheme netloc path query : str) :
  ascii_no_hash scheme -> ascii_no_hash netloc -> ascii_no_hash path ->
  ascii_no_hash query -> path <> [] ->
  ascii_no_hash (UrlParse.urlunsplit scheme netloc path query [])
  /\ UrlParse.urlunsplit scheme netloc path query [] <> [].
Proof.
  intros Hs Hn Hp Hq Hne. unfold UrlParse.urlunsplit.
  change (negb (str_eqb [] [])) with false. cbv zeta iota.
  assert (Hlen : List.length path <> O) by (destruct path; [congruence | discriminate]).
  repeat match goal with
         | |- context [if ?b then _ else _] => destruct b
         end;
    (split;
     [ repeat (apply ascii_no_hash_app; split); assumption || reflexivity
     | intros H; apply (f_equal (@List.length char)) in H;
       repeat rewrite length_app in H; cbn in H; lia ]).
Qed.

Lemma in_strip (s : str) (c : char) : In c (strip s) -> In c s.
Proof.
  unfold strip, strip_by, rstrip_by, lstrip_by. intros H.
  apply in_rev in H. apply in_dropWhile in H. apply in_rev in H.
  apply in_dropWhile in H. exact H.
Qed.

(** For every ASCII text, [normalize_url] drops the fragment: what it
    returns is ASCII, holds no [#] and is empty only for blank text.
    The only exception it raises is a [ValueError] of a bracket check
    of [urlsplit], for a text that holds a square bracket; its message
    is "Invalid IPv6 URL" or the one the library's check of the
    bracketed host gives. *)
Theorem normalize_url_drops_fragment (E : Env) (raw : str) :
  forallb isascii raw = true ->
  match normalize_url E raw with
  | Ok s =>
      has (ch "#") s = false
      /\ forallb isascii s = true
      /\ (s = [] <-> strip raw = [])
  | Raise e =>
      (exists msg,
         e = ValueError msg
         /\ (msg = lit "Invalid IPv6 URL"
             \/ exists hostname, _check_bracketed_host E hostname = Some msg))
      /\ (has (ch "[") raw = true \/ has (ch "]") raw = true)
  end.
Proof.
  intros Hasc. unfold normalize_url.
  destruct (strip raw) as [|c0 rest] eqn:Hstrip.
  { split; [reflexivity|]. split; [reflexivity | tauto]. }
  rewrite <- Hstrip.
  assert (Hasc' : forallb isascii (strip raw) = true).
  { apply forallb_forall. intros c Hc.
    exact (proj1 (forallb_forall _ _) Hasc c (in_strip _ _ Hc)). }
  pose proof (urlsplit_ascii E (strip raw) Hasc') as Hsplit.
  destruct (UrlParse.urlsplit E (strip raw)) as [parts|e]; cbn [bind].
  2:{ destruct Hsplit as [He Hbr]. split; [exact He|].
      destruct Hbr as [H|H]; [left | right]; apply has_true_in, in_strip, H. }
  destruct Hsplit as (Hs & Hn & Hp & Hq).
  assert (Hscheme : ascii_no_hash (lower E (str_or (UrlParse.scheme parts) (lit "http")))).
  { apply ascii_no_hash_lower. destruct (UrlParse.scheme parts); [reflexivity | exact Hs]. }
  assert (Hnetloc : ascii_no_hash
            match rsplit_last (ch ":") (UrlParse.netloc parts) with
            | Some (host, port) =>
                if (str_eqb (lower E (str_or (UrlParse.scheme parts) (lit "http")))
                            (lit "http") && str_eqb port (lit "80"))
                   || (str_eqb (lower E (str_or (UrlParse.scheme parts) (lit "http")))
                               (lit "https") && str_eqb port (lit "443"))
                then lower E host
                else lower E host ++ lit ":" ++ port
            | None => lower E (UrlParse.netloc parts)
            end).
  { destruct (rsplit_last (ch ":") (UrlParse.netloc parts)) as [[host port]|] eqn:Hr;
      [|apply ascii_no_hash_lower; exact Hn].
    apply rsplit_last_spec in Hr. rewrite Hr in Hn.
    apply ascii_no_hash_app in Hn. destruct Hn as [Hh Hpt].
    assert (Hport : ascii_no_hash port).
    { unfold ascii_no_hash in *. cbn [forallb] in Hpt.
      apply andb_true_iff in Hpt. tauto. }
    destruct (_ || _); [apply ascii_no_hash_lower; exact Hh|].
    apply ascii_no_hash_app. split; [apply ascii_no_hash_lower; exact Hh|].
    apply ascii_no_hash_app. split; [reflexivity | exact Hport]. }
  assert (Hpath : ascii_no_hash (str_or (UrlParse.path parts) (lit "/"))
                  /\ str_or (UrlParse.path parts) (lit "/") <> []).
  { destruct (UrlParse.path parts); [split; [reflexivity | discriminate]|].
    split; [exact Hp | discriminate]. }
  destruct Hpath as [Hpath Hpne].
  destruct (urlunsplit_ascii_no_hash _ _ _ _ Hscheme Hnetloc Hpath Hq Hpne) as [Hc Hne].
  split; [apply ascii_no_hash_no_hash; exact Hc|]. split.
  - apply forallb_forall. intros c Hin. exact (proj1 (proj1 (ascii_no_hash_spec _) Hc c Hin)).
  - split; [intros H; contradiction | intros H; rewrite Hstrip in H; discriminate].
Qed.

Lemma normalize_url_drops_fragment_witness :
  forallb isascii (lit " HTTP://Example.com:80/a?b=1#top ") = true
  /\ normalize_url offline_env (lit " HTTP://Example.com:80/a?b=1#top ")
     = Ok (lit "http://example.com/a?b=1")
  /\ normalize_url strict_brackets_env (lit "http://[::1]:8080/a#top")
     = Ok (lit "http://[::1]:8080/a")
  /\ normalize_url strict_brackets_env (lit "http://[zz]/")
     = Raise (ValueError (lit "'zz' does not appear to be an IPv4 or IPv6 address"))
  /\ normalize_url strict_brackets_env (lit "http://[::1/")
     = Raise (ValueError (lit "Invalid IPv6 URL"))
  /\ match normalize_url offline_env (lit " HTTP://Example.com:80/a?b=1#top ") with
     | Ok s =>
         has (ch "#") s = false
         /\ forallb isascii s = true
         /\ (s = [] <-> strip (lit " HTTP://Example.com:80/a?b=1#top ") = [])
     | Raise e =>
         (exists msg,
            e = ValueError msg
            /\ (msg = lit "Invalid IPv6 URL"
                \/ exists hostname,
                     _check_bracketed_host offline_env hostname = Some msg))
         /\ (has (ch "[") (lit " HTTP://Example.com:80/a?b=1#top ") = true
             \/ has (ch "]") (lit " HTTP://Example.com:80/a?b=1#top ") = true)
     end.
Proof.
  split; [reflexivity|]. split; [reflexivity|]. split; [reflexivity|].
  split; [reflexivity|]. split; [reflexivity|].
  exact (normalize_url_drops_fragment offline_env
           (lit " HTTP://Example.com:80/a?b=1#top ") eq_refl).
Defined.
